(** * Context Key: the cryptographic envelope of packages/crypto/src/crypto.ts

    A shallow embedding of [generateKeyPair], [signContextKey],
    [verifyContextKey], [deriveKey], [encryptContextKey] and
    [decryptContextKey], together with the parts of the JavaScript run time
    they rest on: JSON.stringify with a replacer array, JSON.parse,
    Object.keys and Array.prototype.sort; and of the pages that call them:
    [onSubmit] of the vault's create page, and [loadContextKey] with the
    other handlers of the chat page, each as a function from the state of
    the component to the state it leaves.

    JavaScript values are dynamic, and so is [value]: the interfaces of
    types.ts are object literals, and what [JSON.parse] returns is whatever
    the text holds.  A function that can throw returns a [result]; a promise
    that rejects is a [Throw].

    The cryptographic cores (Ed25519, PBKDF2, AES-GCM), base64, the text
    codecs and the random source are fields of a [Platform] record; the
    checks tweetnacl makes on its arguments before it reaches the core are
    written out.  What a theorem needs of the platform is a hypothesis of
    that theorem: [PlatformLaws], [LibraryLaws], [AuthenticatedCipher],
    [SignatureLaws] or [encodeUTF8_returns_string]. *)

From Stdlib Require Import String Ascii List ZArith NArith Bool Lia.
From Stdlib Require Import Permutation DecimalString DecimalN OrderedTypeEx.
Import ListNotations.

Local Open Scope string_scope.
Local Open Scope list_scope.

(** * Part I: the program *)

(** ** Exceptions and the error monad *)

(** The exceptions the code can meet.  [Error] is the plain [Error] tweetnacl
    raises with a message, [DOMException] what Web Crypto rejects with. *)
Inductive exn : Type :=
| TypeError
| SyntaxError
| URIError
| Error (message : string)
| DOMException (name : string).

(** AES-GCM decryption rejects with this when the tag does not match. *)
Definition OperationError : exn := DOMException "OperationError".

(** A call either returns or throws; a rejected promise is a throw. *)
Inductive result (A : Type) : Type :=
| Ok (a : A)
| Throw (e : exn).
Arguments Ok {A} a.
Arguments Throw {A} e.

Definition bind {A B : Type} (r : result A) (k : A -> result B) : result B :=
  match r with
  | Ok a => k a
  | Throw e => Throw e
  end.

Notation "x <- r ;; k" := (bind r (fun x => k))
  (at level 61, r at next level, right associativity).

(** [try { body } catch (error) { return handler }] *)
Definition try_catch {A : Type} (body : result A) (handler : A) : result A :=
  match body with
  | Ok a => Ok a
  | Throw _ => Ok handler
  end.

(** ** JavaScript values *)

Definition bytes : Type := list ascii.

(** Numbers: the integers a double holds exactly, and the three values
    JSON cannot write. *)
Inductive number : Type :=
| Finite (z : Z)
| NaN
| PosInfinity
| NegInfinity.

(** A string is its sequence of code units (here the units below 256); an
    object is its own enumerable properties in enumeration order. *)
#[warnings="-register-all"]
Inductive value : Type :=
| JUndefined
| JNull
| JBool (b : bool)
| JNum (n : number)
| JStr (s : string)
| JArr (xs : list value)
| JObj (fs : list (string * value)).

(** Induction over values that reaches inside arrays and objects. *)
Fixpoint value_ind' (P : value -> Prop)
    (Hundef : P JUndefined) (Hnull : P JNull)
    (Hbool : forall b, P (JBool b)) (Hnum : forall n, P (JNum n))
    (Hstr : forall s, P (JStr s))
    (Harr : forall xs, Forall P xs -> P (JArr xs))
    (Hobj : forall fs, Forall (fun kv => P (snd kv)) fs -> P (JObj fs))
    (v : value) {struct v} : P v :=
  match v with
  | JUndefined => Hundef
  | JNull => Hnull
  | JBool b => Hbool b
  | JNum n => Hnum n
  | JStr s => Hstr s
  | JArr xs =>
      Harr xs ((fix go (l : list value) : Forall P l :=
                  match l with
                  | [] => Forall_nil P
                  | x :: l' =>
                      Forall_cons x
                        (value_ind' P Hundef Hnull Hbool Hnum Hstr Harr Hobj x)
                        (go l')
                  end) xs)
  | JObj fs =>
      Hobj fs ((fix go (l : list (string * value))
                  : Forall (fun kv => P (snd kv)) l :=
                  match l with
                  | [] => Forall_nil _
                  | kv :: l' =>
                      Forall_cons kv
                        (value_ind' P Hundef Hnull Hbool Hnum Hstr Harr Hobj
                           (snd kv))
                        (go l')
                  end) fs)
  end.

(** Lookup of an own property by name. *)
Fixpoint assoc {A : Type} (k : string) (fs : list (string * A)) : option A :=
  match fs with
  | [] => None
  | (k', a) :: rest => if String.eqb k k' then Some a else assoc k rest
  end.

(** [o.k] for a property name that no prototype defines (the names used in
    crypto.ts are of this kind): the own property or [undefined]; reading a
    property of [undefined] or [null] throws. *)
Definition Get (o : value) (k : string) : result value :=
  match o with
  | JUndefined | JNull => Throw TypeError
  | JObj fs => Ok (match assoc k fs with Some v => v | None => JUndefined end)
  | _ => Ok JUndefined
  end.

(** Decimal numeral of a natural number, as in an array index key. *)
Definition decimal (n : N) : string := NilEmpty.string_of_uint (N.to_uint n).

(** [Object.keys(o)]: own enumerable string keys; indices for arrays and
    strings, nothing for numbers and booleans, TypeError otherwise. *)
Definition Object_keys (o : value) : result (list string) :=
  match o with
  | JUndefined | JNull => Throw TypeError
  | JObj fs => Ok (map fst fs)
  | JArr xs => Ok (map (fun i => decimal (N.of_nat i)) (seq 0 (List.length xs)))
  | JStr s => Ok (map (fun i => decimal (N.of_nat i)) (seq 0 (String.length s)))
  | JBool _ | JNum _ => Ok []
  end.

(** [Array.prototype.sort()] with no comparator on an array of strings:
    ascending by code units.  The result is the sorted permutation, built
    here by insertion. *)
Fixpoint insert (k : string) (l : list string) : list string :=
  match l with
  | [] => [k]
  | h :: t => if String.leb k h then k :: h :: t else h :: insert k t
  end.

Definition Array_sort (l : list string) : list string :=
  fold_right insert [] l.

(** ** JSON.stringify *)

Definition dquote : ascii := "034"%char.
Definition backslash : ascii := "092"%char.

Definition hex_digit (n : N) : ascii :=
  if (n <? 10)%N then ascii_of_N (48 + n) else ascii_of_N (87 + n).

(** [UnicodeEscape]: backslash, u and four lowercase hexadecimal digits. *)
Definition UnicodeEscape (c : ascii) : string :=
  let n := N_of_ascii c in
  String backslash
    (String "u" (String "0" (String "0"
       (String (hex_digit (n / 16)) (String (hex_digit (n mod 16)) ""))))).

(** One code unit inside a quoted string: the two-character escapes of the
    table, a unicode escape for the other control characters, the unit
    itself otherwise. *)
Definition quote_code_unit (c : ascii) : string :=
  let n := N_of_ascii c in
  if (n =? 8)%N then String backslash "b"
  else if (n =? 9)%N then String backslash "t"
  else if (n =? 10)%N then String backslash "n"
  else if (n =? 12)%N then String backslash "f"
  else if (n =? 13)%N then String backslash "r"
  else if (n =? 34)%N then String backslash (String dquote "")
  else if (n =? 92)%N then String backslash (String backslash "")
  else if (n <? 32)%N then UnicodeEscape c
  else String c "".

Fixpoint quote_body (s : string) : string :=
  match s with
  | EmptyString => EmptyString
  | String c rest => quote_code_unit c ++ quote_body rest
  end.

Definition QuoteJSONString (s : string) : string :=
  String dquote (quote_body s ++ String dquote "").

(** [Number::toString] of an integer below 10^21 in magnitude: its decimal
    digits, with no exponent. *)
Definition Number_toString (z : Z) : string :=
  match z with
  | Z0 => "0"
  | Zpos p => decimal (Npos p)
  | Zneg p => String "-" (decimal (Npos p))
  end.

Definition member (P strP : string) : string :=
  QuoteJSONString P ++ String ":" strP.

(** [SerializeJSONProperty] with the state's PropertyList ([None] when
    JSON.stringify was given no replacer array).  [None] as a result is
    [undefined]: the property is left out of an object and written as null
    in an array.  With a PropertyList, an object at any depth writes the
    listed names it has, in the order of the list, and no other.  (A listed
    name that only Object.prototype defines is a function there and is left
    out as well, [__proto__] apart, which the model does not treat.) *)
Fixpoint SerializeJSONProperty (PropertyList : option (list string))
    (v : value) : option string :=
  match v with
  | JUndefined => None
  | JNull => Some "null"
  | JBool true => Some "true"
  | JBool false => Some "false"
  | JNum (Finite z) => Some (Number_toString z)
  | JNum _ => Some "null"
  | JStr s => Some (QuoteJSONString s)
  | JArr xs =>
      let partial :=
        map (fun x => match SerializeJSONProperty PropertyList x with
                      | Some strP => strP
                      | None => "null"
                      end) xs in
      Some (String "[" (String.concat "," partial ++ "]"))
  | JObj fs =>
      let table :=
        map (fun kv => (fst kv, SerializeJSONProperty PropertyList (snd kv)))
          fs in
      let partial :=
        match PropertyList with
        | Some K =>
            flat_map (fun P => match assoc P table with
                               | Some (Some strP) => [member P strP]
                               | _ => []
                               end) K
        | None =>
            flat_map (fun kv => match snd kv with
                                | Some strP => [member (fst kv) strP]
                                | None => []
                                end) table
        end in
      Some (String "{" (String.concat "," partial ++ "}"))
  end.

(** The PropertyList of a replacer array of strings: its elements, each
    once, in order of first occurrence. *)
Fixpoint dedup (l : list string) : list string :=
  match l with
  | [] => []
  | k :: rest =>
      k :: filter (fun k' => negb (String.eqb k k')) (dedup rest)
  end.

(** [JSON.stringify(v, replacer)], [replacer] an array of strings or
    absent; [None] is the result [undefined]. *)
Definition JSON_stringify (v : value) (replacer : option (list string))
  : option string :=
  SerializeJSONProperty (option_map dedup replacer) v.

(** ** The records of types.ts, as the object literals that build them *)

Definition strings (l : list string) : value := JArr (map JStr l).

Definition UserProfile (display_name tone : string) (domains : list string)
  : value :=
  JObj [("display_name", JStr display_name); ("tone", JStr tone);
        ("domains", strings domains)].

Definition Policies (allow_writeback : bool) (persistence pii_handling : string)
  : value :=
  JObj [("allow_writeback", JBool allow_writeback);
        ("persistence", JStr persistence);
        ("pii_handling", JStr pii_handling)].

Definition MemoryEntry (id content created_at : string) : value :=
  JObj [("id", JStr id); ("content", JStr content);
        ("created_at", JStr created_at)].

Definition ContextKey (version id created_at updated_at : string)
    (profile policies : value) (data_sources memories : list value) : value :=
  JObj [("version", JStr version); ("id", JStr id);
        ("created_at", JStr created_at); ("updated_at", JStr updated_at);
        ("profile", profile); ("policies", policies);
        ("data_sources", JArr data_sources); ("memories", JArr memories)].

Definition SignedContextKey (data : value) (signature public_key : string)
  : value :=
  JObj [("data", data); ("signature", JStr signature);
        ("public_key", JStr public_key)].

Definition DataSource (id name type : string) (config : value) : value :=
  JObj [("id", JStr id); ("name", JStr name); ("type", JStr type);
        ("config", config)].

(** ** JSON.parse

    The parser reads the texts JSON.stringify writes when given no indent:
    no insignificant white space, integer numerals, code units below 256.
    Texts outside these (white space between tokens, fractions, exponents)
    are refused here where the run time reads them. *)

Definition hex_value (c : ascii) : option N :=
  let n := N_of_ascii c in
  if ((48 <=? n) && (n <=? 57))%N then Some (n - 48)%N
  else if ((97 <=? n) && (n <=? 102))%N then Some (n - 87)%N
  else if ((65 <=? n) && (n <=? 70))%N then Some (n - 55)%N
  else None.

Definition code_unit (h1 h2 h3 h4 : ascii) : option ascii :=
  match hex_value h1, hex_value h2, hex_value h3, hex_value h4 with
  | Some a, Some b, Some c, Some d =>
      let n := (((a * 16 + b) * 16 + c) * 16 + d)%N in
      if (n <? 256)%N then Some (ascii_of_N n) else None
  | _, _, _, _ => None
  end.

Definition cons_unit (c : ascii) (r : option (string * string))
  : option (string * string) :=
  match r with
  | Some (s, rest) => Some (String c s, rest)
  | None => None
  end.

(** The characters of a string literal after its opening quote, up to and
    including the closing quote; the decoded string and what follows. *)
Fixpoint parse_string_body (s : string) : option (string * string) :=
  match s with
  | EmptyString => None
  | String c rest =>
      if Ascii.eqb c dquote then Some (EmptyString, rest)
      else if Ascii.eqb c backslash then
        match rest with
        | EmptyString => None
        | String e rest' =>
            if Ascii.eqb e dquote then cons_unit dquote (parse_string_body rest')
            else if Ascii.eqb e backslash
            then cons_unit backslash (parse_string_body rest')
            else if Ascii.eqb e "/" then cons_unit "/" (parse_string_body rest')
            else if Ascii.eqb e "b"
            then cons_unit "008" (parse_string_body rest')
            else if Ascii.eqb e "t"
            then cons_unit "009" (parse_string_body rest')
            else if Ascii.eqb e "n"
            then cons_unit "010" (parse_string_body rest')
            else if Ascii.eqb e "f"
            then cons_unit "012" (parse_string_body rest')
            else if Ascii.eqb e "r"
            then cons_unit "013" (parse_string_body rest')
            else if Ascii.eqb e "u" then
              match rest' with
              | String h1 (String h2 (String h3 (String h4 rest''))) =>
                  match code_unit h1 h2 h3 h4 with
                  | Some u => cons_unit u (parse_string_body rest'')
                  | None => None
                  end
              | _ => None
              end
            else None
        end
      else if (N_of_ascii c <? 32)%N then None
      else cons_unit c (parse_string_body rest)
  end.

Definition is_digit (c : ascii) : bool :=
  ((48 <=? N_of_ascii c) && (N_of_ascii c <=? 57))%N.

Fixpoint span_digits (s : string) : string * string :=
  match s with
  | EmptyString => (EmptyString, EmptyString)
  | String c rest =>
      if is_digit c
      then let (d, r) := span_digits rest in (String c d, r)
      else (EmptyString, s)
  end.

Definition leading_zero (d : string) : bool :=
  match d with
  | String c (String _ _) => Ascii.eqb c "0"
  | _ => false
  end.

(** A JSON integer part: a single 0, or digits that start with 1 to 9. *)
Definition parse_digits (s : string) : option (N * string) :=
  let (d, rest) := span_digits s in
  if leading_zero d then None
  else
    match NilEmpty.uint_of_string d with
    | Some Decimal.Nil => None
    | Some u => Some (N.of_uint u, rest)
    | None => None
    end.

Definition parse_number (s : string) : option (Z * string) :=
  match s with
  | EmptyString => None
  | String c rest =>
      if Ascii.eqb c "-" then
        match parse_digits rest with
        | Some (n, rest') => Some (Z.opp (Z.of_N n), rest')
        | None => None
        end
      else
        match parse_digits s with
        | Some (n, rest') => Some (Z.of_N n, rest')
        | None => None
        end
  end.

Fixpoint strip_prefix (p s : string) : option string :=
  match p, s with
  | EmptyString, _ => Some s
  | String a p', String b s' =>
      if Ascii.eqb a b then strip_prefix p' s' else None
  | String _ _, EmptyString => None
  end.

(** [CreateDataProperty]: a name already present keeps its place and takes
    the new value; a new name goes last. *)
Fixpoint define (fs : list (string * value)) (k : string) (v : value)
  : list (string * value) :=
  match fs with
  | [] => [(k, v)]
  | (k', v') :: rest =>
      if String.eqb k k' then (k', v) :: rest else (k', v') :: define rest k v
  end.

Definition object_of (members : list (string * value)) : value :=
  JObj (fold_left (fun fs kv => define fs (fst kv) (snd kv)) members []).

Fixpoint parse_value (fuel : nat) (s : string) : option (value * string) :=
  match fuel with
  | O => None
  | S fuel' =>
      match parse_number s with
      | Some (z, rest) => Some (JNum (Finite z), rest)
      | None =>
          match s with
          | EmptyString => None
          | String c rest =>
              if Ascii.eqb c dquote then
                match parse_string_body rest with
                | Some (str, rest') => Some (JStr str, rest')
                | None => None
                end
              else if Ascii.eqb c "[" then
                match parse_value fuel' rest with
                | Some (v, rest') =>
                    match parse_elements fuel' rest' with
                    | Some (vs, rest'') => Some (JArr (v :: vs), rest'')
                    | None => None
                    end
                | None =>
                    match rest with
                    | String "]" rest' => Some (JArr [], rest')
                    | _ => None
                    end
                end
              else if Ascii.eqb c "{" then
                match rest with
                | String "}" rest' => Some (JObj [], rest')
                | _ =>
                    match parse_members fuel' rest with
                    | Some (ms, rest') => Some (object_of ms, rest')
                    | None => None
                    end
                end
              else
                match strip_prefix "null" s with
                | Some rest' => Some (JNull, rest')
                | None =>
                    match strip_prefix "true" s with
                    | Some rest' => Some (JBool true, rest')
                    | None =>
                        match strip_prefix "false" s with
                        | Some rest' => Some (JBool false, rest')
                        | None => None
                        end
                    end
                end
          end
      end
  end

(** After an element: a closing bracket, or a comma and one more element. *)
with parse_elements (fuel : nat) (s : string)
  : option (list value * string) :=
  match fuel with
  | O => None
  | S fuel' =>
      match s with
      | String "]" rest => Some ([], rest)
      | String "," rest =>
          match parse_value fuel' rest with
          | Some (v, rest') =>
              match parse_elements fuel' rest' with
              | Some (vs, rest'') => Some (v :: vs, rest'')
              | None => None
              end
          | None => None
          end
      | _ => None
      end
  end

(** One member, then a closing brace or a comma and the next member. *)
with parse_members (fuel : nat) (s : string)
  : option (list (string * value) * string) :=
  match fuel with
  | O => None
  | S fuel' =>
      match s with
      | String c rest =>
          if Ascii.eqb c dquote then
            match parse_string_body rest with
            | Some (k, String ":" rest') =>
                match parse_value fuel' rest' with
                | Some (v, String "}" rest'') => Some ([(k, v)], rest'')
                | Some (v, String "," rest'') =>
                    match parse_members fuel' rest'' with
                    | Some (ms, rest3) => Some ((k, v) :: ms, rest3)
                    | None => None
                    end
                | _ => None
                end
            | _ => None
            end
          else None
      | EmptyString => None
      end
  end.

(** *** The order of the properties

    An object enumerates its own properties with the array indices first,
    in ascending numeric order, and the other names after them in the
    order of creation, whatever the order in the text. *)

(** An array index: the canonical numeral of an integer below 2^32 - 1. *)
Definition array_index (k : string) : option N :=
  match parse_digits k with
  | Some (n, EmptyString) => if (n <? 2 ^ 32 - 1)%N then Some n else None
  | _ => None
  end.

Fixpoint insert_index (n : N) (kv : string * value)
    (l : list (N * (string * value))) : list (N * (string * value)) :=
  match l with
  | [] => [(n, kv)]
  | (m, kv') :: rest =>
      if (n <? m)%N then (n, kv) :: l else (m, kv') :: insert_index n kv rest
  end.

(** [OrdinaryOwnPropertyKeys], on properties with distinct names. *)
Definition OrdinaryOwnPropertyKeys (fs : list (string * value))
  : list (string * value) :=
  map snd
    (fold_right (fun kv acc => match array_index (fst kv) with
                               | Some n => insert_index n kv acc
                               | None => acc
                               end) [] fs)
  ++ filter (fun kv => match array_index (fst kv) with
                       | Some _ => false
                       | None => true
                       end) fs.

(** The value with the properties of every object in enumeration order. *)
Fixpoint own_property_order (v : value) : value :=
  match v with
  | JArr xs => JArr (map own_property_order xs)
  | JObj fs =>
      JObj (OrdinaryOwnPropertyKeys
              (map (fun kv => (fst kv, own_property_order (snd kv))) fs))
  | _ => v
  end.

(** [JSON.parse(text)]: the whole text is one value, or SyntaxError. *)
Definition JSON_parse (text : string) : result value :=
  match parse_value (S (String.length text)) text with
  | Some (v, EmptyString) => Ok (own_property_order v)
  | _ => Throw SyntaxError
  end.

(** *** Insignificant white space

    JSON text may hold white space (tab, line feed, carriage return, space)
    around every token.  [without_white_space] removes it, outside string
    literals, wherever a structural character, the start or the end of the
    text is next to it.  White space between two other tokens stays, and
    the text is then refused, as the run time refuses it. *)

Definition is_json_space (c : ascii) : bool :=
  let n := N_of_ascii c in
  ((n =? 9) || (n =? 10) || (n =? 13) || (n =? 32))%N.

Definition is_structural (c : ascii) : bool :=
  existsb (Ascii.eqb c) ["{"; "}"; "["; "]"; ","; ":"]%char.

(** The first code unit after the white space, if any. *)
Fixpoint next_token (s : string) : option ascii :=
  match s with
  | EmptyString => None
  | String c rest => if is_json_space c then next_token rest else Some c
  end.

Fixpoint without_white_space (after_structural in_string escaped : bool)
    (s : string) : string :=
  match s with
  | EmptyString => EmptyString
  | String c rest =>
      if in_string then
        String c
          (without_white_space false
             (if escaped then true else negb (Ascii.eqb c dquote))
             (negb escaped && Ascii.eqb c backslash) rest)
      else if is_json_space c then
        if after_structural
           || match next_token rest with
              | None => true
              | Some d => is_structural d
              end
        then without_white_space after_structural false false rest
        else String c (without_white_space after_structural false false rest)
      else
        String c
          (without_white_space (is_structural c) (Ascii.eqb c dquote) false
             rest)
  end.

(** [JSON.parse(text)] on a text that may hold white space between its
    tokens, as the text of a file does. *)
Definition JSON_parse_text (text : string) : result value :=
  JSON_parse (without_white_space true false false text).

(** ** The platform: tweetnacl, tweetnacl-util and Web Crypto *)

(** What a tweetnacl entry point is handed where it expects bytes.  The
    library tests every argument with [instanceof Uint8Array] before it
    does anything else. *)
Inductive buffer : Type :=
| Uint8Array (b : bytes)
| JSString (s : string).

(** The algorithm dictionaries handed to [crypto.subtle.deriveKey]. *)
Record Pbkdf2Params : Type := {
  kdf_name : string;
  kdf_salt : bytes;
  kdf_iterations : Z;
  kdf_hash : string
}.

Record AesKeyGenParams : Type := {
  aes_name : string;
  aes_length : Z
}.

Record Platform : Type := {
  (** tweetnacl-util *)
  encodeBase64 : bytes -> string;
  decodeBase64 : value -> result bytes;
  encodeUTF8 : value -> result buffer;
  (** tweetnacl: the Ed25519 core under [nacl.sign] *)
  crypto_sign : bytes -> bytes -> bytes;
  crypto_sign_open : bytes -> bytes -> bytes -> bool;
  (** Web Crypto *)
  BaseKey : Type;
  CryptoKey : Type;
  subtle_importKey : string -> bytes -> string -> result BaseKey;
  subtle_deriveKey :
    Pbkdf2Params -> BaseKey -> AesKeyGenParams -> result CryptoKey;
  subtle_encrypt : bytes -> CryptoKey -> bytes -> result bytes;
  subtle_decrypt : bytes -> CryptoKey -> bytes -> result bytes;
  TextEncoder_encode : string -> bytes;
  TextDecoder_decode : bytes -> string;
  (** [crypto.getRandomValues(new Uint8Array(n))], on an explicit state *)
  Rng : Type;
  getRandomValues : nat -> Rng -> bytes * Rng
}.

(** The blob of types.ts. *)
Record KdfParams : Type := {
  algorithm : string;
  iterations : Z;
  memory : Z;
  parallelism : Z
}.

Record EncryptedContextKey : Type := {
  encrypted_data : string;
  iv : string;
  salt : string;
  kdf_params : KdfParams
}.

Definition string_or_undefined (o : option string) : value :=
  match o with
  | Some s => JStr s
  | None => JUndefined
  end.

Section Crypto.

Context (P : Platform).

(** *** tweetnacl's wrappers around the core *)

Record KeyPair : Type := {
  publicKey : bytes;
  secretKey : bytes
}.

(** [nacl.sign.keyPair.fromSecretKey]: the public key is the second half
    of the 64-byte secret key. *)
Definition nacl_sign_keyPair_fromSecretKey (sk : bytes) : result KeyPair :=
  if negb (Nat.eqb (List.length sk) 64)
  then Throw (Error "bad secret key size")
  else Ok {| publicKey := skipn 32 sk; secretKey := sk |}.

(** [nacl.sign.detached]: [checkArrayTypes] first, then the key size. *)
Definition nacl_sign_detached (msg : buffer) (sk : bytes) : result bytes :=
  match msg with
  | JSString _ => Throw TypeError
  | Uint8Array m =>
      if negb (Nat.eqb (List.length sk) 64)
      then Throw (Error "bad secret key size")
      else Ok (crypto_sign P m sk)
  end.

(** [nacl.sign.detached.verify]: [checkArrayTypes], the two sizes, then
    the check itself. *)
Definition nacl_sign_detached_verify (msg : buffer) (sig pk : bytes)
  : result bool :=
  match msg with
  | JSString _ => Throw TypeError
  | Uint8Array m =>
      if negb (Nat.eqb (List.length sig) 64)
      then Throw (Error "bad signature size")
      else if negb (Nat.eqb (List.length pk) 32)
      then Throw (Error "bad public key size")
      else Ok (crypto_sign_open P m sig pk)
  end.

(** *** crypto.ts *)

(** The expression both [signContextKey] (line 36) and [verifyContextKey]
    (line 60) hand to the signature:
    [JSON.stringify(data, Object.keys(data).sort())]. *)
Definition serialize (data : value) : result (option string) :=
  keys <- Object_keys data ;;
  Ok (JSON_stringify data (Some (Array_sort keys))).

Definition signContextKey (contextKey : value) (privateKey : string)
  : result value :=
  privateKeyBytes <- decodeBase64 P (JStr privateKey) ;;
  keyPair <- nacl_sign_keyPair_fromSecretKey privateKeyBytes ;;
  serialized <- serialize contextKey ;;
  message <- encodeUTF8 P (string_or_undefined serialized) ;;
  signature <- nacl_sign_detached message privateKeyBytes ;;
  Ok (SignedContextKey contextKey
        (encodeBase64 P signature)
        (encodeBase64 P (publicKey keyPair))).

Definition verifyContextKey (signedKey : value) : result bool :=
  try_catch
    (public_key <- Get signedKey "public_key" ;;
     publicKey <- decodeBase64 P public_key ;;
     signature <- Get signedKey "signature" ;;
     signature <- decodeBase64 P signature ;;
     data <- Get signedKey "data" ;;
     serialized <- serialize data ;;
     message <- encodeUTF8 P (string_or_undefined serialized) ;;
     nacl_sign_detached_verify message signature publicKey)
    false.

(** The algorithm [deriveKey] asks Web Crypto for. *)
Definition deriveKey_algorithm (salt : bytes) (iterations : Z)
  : Pbkdf2Params :=
  {| kdf_name := "PBKDF2"; kdf_salt := salt;
     kdf_iterations := iterations; kdf_hash := "SHA-256" |}.

Definition deriveKey (password : string) (salt : bytes) (iterations : Z)
  : result (CryptoKey P) :=
  let passwordBuffer := TextEncoder_encode P password in
  baseKey <- subtle_importKey P "raw" passwordBuffer "PBKDF2" ;;
  subtle_deriveKey P (deriveKey_algorithm salt iterations) baseKey
    {| aes_name := "AES-GCM"; aes_length := 256 |}.

Definition encryptContextKey (signedKey : value) (password : string)
    (g : Rng P) : result EncryptedContextKey * Rng P :=
  let (salt, g1) := getRandomValues P 32 g in
  let (iv, g2) := getRandomValues P 12 g1 in
  let iterations := 100000%Z in
  (key <- deriveKey password salt iterations ;;
   let serialized := JSON_stringify signedKey None in
   let data :=
     TextEncoder_encode P
       (match serialized with Some s => s | None => EmptyString end) in
   encrypted <- subtle_encrypt P iv key data ;;
   Ok {| encrypted_data := encodeBase64 P encrypted;
         iv := encodeBase64 P iv;
         salt := encodeBase64 P salt;
         kdf_params := {| algorithm := "argon2id";
                          iterations := iterations;
                          memory := 65536;
                          parallelism := 1 |} |},
   g2).

Definition decryptContextKey (encryptedKey : EncryptedContextKey)
    (password : string) : result value :=
  salt <- decodeBase64 P (JStr (salt encryptedKey)) ;;
  iv <- decodeBase64 P (JStr (iv encryptedKey)) ;;
  encryptedData <- decodeBase64 P (JStr (encrypted_data encryptedKey)) ;;
  key <- deriveKey password salt (iterations (kdf_params encryptedKey)) ;;
  decrypted <- subtle_decrypt P iv key encryptedData ;;
  let serialized := TextDecoder_decode P decrypted in
  JSON_parse serialized.

End Crypto.

(** ** crypto.ts: generateKeyPair *)

(** The object [generateKeyPair] returns: both keys in base64. *)
Module Encoded.
Record KeyPair : Type := {
  publicKey : string;
  privateKey : string
}.
End Encoded.

Section KeyGeneration.

Context (P : Platform).

(** The Ed25519 core of [crypto_sign_keypair]: the packed public point of
    a seed (hash, clamp, scalarbase, pack). *)
Variable crypto_sign_public : bytes -> bytes.

(** [nacl.sign.keyPair()]: [randombytes] fills the first 32 bytes of the
    secret key with the seed, and the public key is copied into the last
    32. *)
Definition nacl_sign_keyPair (g : Rng P) : KeyPair * Rng P :=
  let (seed, g') := getRandomValues P 32 g in
  let pk := crypto_sign_public seed in
  ({| publicKey := pk; secretKey := seed ++ pk |}, g').

Definition generateKeyPair (g : Rng P) : Encoded.KeyPair * Rng P :=
  let (keyPair, g') := nacl_sign_keyPair g in
  ({| Encoded.publicKey := encodeBase64 P (publicKey keyPair);
      Encoded.privateKey := encodeBase64 P (secretKey keyPair) |}, g').

End KeyGeneration.

(** ** The string methods the pages call *)

(** White space, for [trim] and for the class [\s]: among the code units
    below 256, TAB, LF, VT, FF, CR, space and no-break space. *)
Definition is_white_space (c : ascii) : bool :=
  let n := N_of_ascii c in
  ((9 <=? n) && (n <=? 13) || (n =? 32) || (n =? 160))%N.

Fixpoint trimStart (s : string) : string :=
  match s with
  | EmptyString => EmptyString
  | String c rest => if is_white_space c then trimStart rest else s
  end.

Fixpoint trimEnd (s : string) : string :=
  match s with
  | EmptyString => EmptyString
  | String c rest =>
      match trimEnd rest with
      | EmptyString => if is_white_space c then EmptyString else String c ""
      | rest' => String c rest'
      end
  end.

(** [s.trim()] *)
Definition trim (s : string) : string := trimEnd (trimStart s).

(** [s.split(sep)] for a separator of one code unit: the pieces between
    the separators, one more than there are separators. *)
Fixpoint split (sep : ascii) (s : string) : list string :=
  match s with
  | EmptyString => [EmptyString]
  | String c rest =>
      if Ascii.eqb c sep then EmptyString :: split sep rest
      else match split sep rest with
           | piece :: pieces => String c piece :: pieces
           | [] => [String c ""]
           end
  end.

(** [s.replace(/\s+/g, '_')]: every maximal run of white space becomes one
    underscore.  [in_run] says that the unit before was white space. *)
Fixpoint replace_runs (in_run : bool) (s : string) : string :=
  match s with
  | EmptyString => EmptyString
  | String c rest =>
      if is_white_space c
      then if in_run then replace_runs true rest
           else String "_" (replace_runs true rest)
      else String c (replace_runs false rest)
  end.

Definition replace_white_space (s : string) : string := replace_runs false s.

(** [s.toLowerCase()] on code units below 256: A to Z, and the capital
    letters of Latin-1 (192 to 222 except the multiplication sign). *)
Definition toLowerCase_unit (c : ascii) : ascii :=
  let n := N_of_ascii c in
  if ((65 <=? n) && (n <=? 90)
      || (192 <=? n) && (n <=? 222) && negb (n =? 215))%N
  then ascii_of_N (n + 32)
  else c.

Fixpoint toLowerCase (s : string) : string :=
  match s with
  | EmptyString => EmptyString
  | String c rest => String (toLowerCase_unit c) (toLowerCase rest)
  end.

(** [ToString], as a template literal applies it.  An array joins its
    elements with commas, [undefined] and null elements as nothing.  An
    object is converted by its [toString]: the one of Object.prototype
    unless the object has a property of that name, which, read from JSON
    text, is no function; [valueOf] then gives no primitive either, and
    the conversion throws. *)
Fixpoint ToString (v : value) : result string :=
  match v with
  | JUndefined => Ok "undefined"
  | JNull => Ok "null"
  | JBool true => Ok "true"
  | JBool false => Ok "false"
  | JNum (Finite z) => Ok (Number_toString z)
  | JNum NaN => Ok "NaN"
  | JNum PosInfinity => Ok "Infinity"
  | JNum NegInfinity => Ok "-Infinity"
  | JStr s => Ok s
  | JArr xs =>
      texts <- (fix elements (l : list value) : result (list string) :=
                  match l with
                  | [] => Ok []
                  | x :: l' =>
                      t <- match x with
                           | JUndefined | JNull => Ok EmptyString
                           | _ => ToString x
                           end ;;
                      ts <- elements l' ;;
                      Ok (t :: ts)
                  end) xs ;;
      Ok (String.concat "," texts)
  | JObj fs =>
      match assoc "toString" fs with
      | Some _ => Throw TypeError
      | None => Ok "[object Object]"
      end
  end.

(** [xs.join(sep)] *)
Fixpoint Array_join (sep : string) (xs : list value) : result string :=
  match xs with
  | [] => Ok EmptyString
  | x :: rest =>
      t <- match x with
           | JUndefined | JNull => Ok EmptyString
           | _ => ToString x
           end ;;
      match rest with
      | [] => Ok t
      | _ => ts <- Array_join sep rest ;; Ok (t ++ sep ++ ts)%string
      end
  end.

(** [v.join(sep)] on whatever [v] is: only an array has the method (on an
    object read from JSON text a property of that name is no function). *)
Definition join (v : value) (sep : string) : result string :=
  match v with
  | JArr xs => Array_join sep xs
  | _ => Throw TypeError
  end.

(** ** JSON.stringify with indentation *)

Definition newline : ascii := "010"%char.

(** [SerializeJSONProperty] with no replacer and the state's [gap] and
    [indent]. *)
Fixpoint SerializeJSONProperty_gap (gap indent : string) (v : value)
  : option string :=
  match v with
  | JUndefined => None
  | JNull => Some "null"
  | JBool true => Some "true"
  | JBool false => Some "false"
  | JNum (Finite z) => Some (Number_toString z)
  | JNum _ => Some "null"
  | JStr s => Some (QuoteJSONString s)
  | JArr xs =>
      let stepback := indent in
      let indent := (indent ++ gap)%string in
      let partial :=
        map (fun x => match SerializeJSONProperty_gap gap indent x with
                      | Some strP => strP
                      | None => "null"
                      end) xs in
      Some (match partial, gap with
            | [], _ => "[]"
            | _, EmptyString => String "[" (String.concat "," partial ++ "]")
            | _, _ =>
                String "[" (String newline
                  (indent
                   ++ String.concat (String "," (String newline indent)) partial
                   ++ String newline (stepback ++ "]")))%string
            end)
  | JObj fs =>
      let stepback := indent in
      let indent := (indent ++ gap)%string in
      let partial :=
        flat_map
          (fun kv => match SerializeJSONProperty_gap gap indent (snd kv) with
                     | Some strP =>
                         [(QuoteJSONString (fst kv)
                           ++ String ":"
                                (match gap with
                                 | EmptyString => strP
                                 | _ => String " " strP
                                 end))%string]
                     | None => []
                     end) fs in
      Some (match partial, gap with
            | [], _ => "{}"
            | _, EmptyString => String "{" (String.concat "," partial ++ "}")
            | _, _ =>
                String "{" (String newline
                  (indent
                   ++ String.concat (String "," (String newline indent)) partial
                   ++ String newline (stepback ++ "}")))%string
            end)
  end.

(** [JSON.stringify(v, null, space)] for a number [space]: the gap is that
    many spaces, ten at most. *)
Definition JSON_stringify_space (v : value) (space : nat) : option string :=
  SerializeJSONProperty_gap
    (string_of_list_ascii (repeat " "%char (Nat.min space 10))) "" v.

(** The blob as the object literal [encryptContextKey] returns. *)
Definition EncryptedContextKey_object (b : EncryptedContextKey) : value :=
  JObj [("encrypted_data", JStr (encrypted_data b));
        ("iv", JStr (iv b));
        ("salt", JStr (salt b));
        ("kdf_params",
         JObj [("algorithm", JStr (algorithm (kdf_params b)));
               ("iterations", JNum (Finite (iterations (kdf_params b))));
               ("memory", JNum (Finite (memory (kdf_params b))));
               ("parallelism",
                JNum (Finite (parallelism (kdf_params b))))])].

(** ** packages/vault/src/app/create/page.tsx *)

(** shared/constants *)
Definition CONTEXT_KEY_VERSION : string := "1.0.0".

Module Vault.

Record FormData : Type := {
  display_name : string;
  tone : string;
  custom_tone : string;
  domains : list string;
  custom_domains : string;
  allow_writeback : bool;
  persistence : string;
  pii_handling : string;
  password : string;
  confirm_password : string
}.

(** The state of the component. *)
Record State : Type := {
  step : Z;
  isGenerating : bool;
  generatedKey : option string
}.

(** What a call shows and hands out: the alerts, what console.error was
    given, and the files the browser downloaded (name and text). *)
Record Effects : Type := {
  alerts : list string;
  errors : list exn;
  downloads : list (string * string)
}.

Definition nothing : Effects :=
  {| alerts := []; errors := []; downloads := [] |}.

(** Lines 67 to 70. *)
Definition allDomains (data : FormData) : list string :=
  domains data
  ++ match custom_domains data with
     | EmptyString => []
     | custom => map trim (split "," custom)
     end.

(** The record of lines 73 to 90; [id] is what [generateId()] returned,
    [created_at] and [updated_at] what the two readings of the clock
    gave. *)
Definition contextKey (data : FormData) (id created_at updated_at : string)
  : value :=
  ContextKey CONTEXT_KEY_VERSION id created_at updated_at
    (UserProfile (display_name data)
       (if String.eqb (tone data) "custom" then custom_tone data
        else tone data)
       (allDomains data))
    (Policies (allow_writeback data) (persistence data) (pii_handling data))
    [] [].

(** Line 104. *)
Definition filename (data : FormData) : string :=
  (toLowerCase (replace_white_space (display_name data))
   ++ "_context_key.ckey")%string.

Section Page.

Context (P : Platform).
Variable crypto_sign_public : bytes -> bytes.

(** The failure branch: the catch clause, then the finally clause. *)
Definition failed (st : State) (e : exn) : State * Effects :=
  ({| step := step st; isGenerating := false;
      generatedKey := generatedKey st |},
   {| alerts := ["Failed to generate key. Please try again."];
      errors := [e]; downloads := [] |}).

Definition onSubmit (st : State) (data : FormData)
    (id created_at updated_at : string) (g : Rng P)
  : State * Effects * Rng P :=
  if (step st <? 3)%Z
  then ({| step := step st + 1; isGenerating := isGenerating st;
           generatedKey := generatedKey st |}, nothing, g)
  else if negb (String.eqb (password data) (confirm_password data))
  then (st, {| alerts := ["Passwords do not match"]; errors := [];
               downloads := [] |}, g)
  else
    let contextKey := contextKey data id created_at updated_at in
    let (keyPair, g1) := generateKeyPair P crypto_sign_public g in
    match signContextKey P contextKey (Encoded.privateKey keyPair) with
    | Throw e => (failed st e, g1)
    | Ok signedKey =>
        let (encrypted, g2) :=
          encryptContextKey P signedKey (password data) g1 in
        match encrypted with
        | Throw e => (failed st e, g2)
        | Ok encryptedKey =>
            let text :=
              JSON_stringify_space (EncryptedContextKey_object encryptedKey)
                2 in
            let filename := filename data in
            ({| step := 4; isGenerating := false;
                generatedKey := Some filename |},
             {| alerts := []; errors := [];
                downloads :=
                  [(filename,
                    match text with Some t => t | None => "undefined" end)] |},
             g2)
        end
    end.

(** The Back button, line 389. *)
Definition onBack (st : State) : State :=
  {| step := Z.max 1 (step st - 1); isGenerating := isGenerating st;
     generatedKey := generatedKey st |}.

End Page.

End Vault.

(** ** packages/temp-chat/src/app/page.tsx *)

Module TempChat.

Record LoadedContext : Type := {
  contextKey : value;
  displayName : value;
  tone : value;
  domains : value
}.

(** A message of the conversation.  The content of a reply is whatever
    the server sent under that name. *)
Record ChatMessage : Type := {
  id : string;
  role : string;
  content : value;
  timestamp : string
}.

(** What [fetch] resolves to, as far as the page uses it: the flag [ok]
    and what [json()] resolves to. *)
Record Response : Type := {
  ok : bool;
  json : result value
}.

(** A [File], as far as the page uses it: what [text()] resolves to. *)
Record File : Type := {
  text : result string
}.

Record State : Type := {
  loadedContext : option LoadedContext;
  messages : list ChatMessage;
  inputMessage : string;
  isLoading : bool;
  showKeyLoader : bool;
  password : string;
  keyFile : option File;
  error : option string
}.

Definition setLoadedContext (c : option LoadedContext) (st : State) : State :=
  {| loadedContext := c; messages := messages st;
     inputMessage := inputMessage st; isLoading := isLoading st;
     showKeyLoader := showKeyLoader st; password := password st;
     keyFile := keyFile st; error := error st |}.

Definition setIsLoading (b : bool) (st : State) : State :=
  {| loadedContext := loadedContext st; messages := messages st;
     inputMessage := inputMessage st; isLoading := b;
     showKeyLoader := showKeyLoader st; password := password st;
     keyFile := keyFile st; error := error st |}.

Definition setError (e : option string) (st : State) : State :=
  {| loadedContext := loadedContext st; messages := messages st;
     inputMessage := inputMessage st; isLoading := isLoading st;
     showKeyLoader := showKeyLoader st; password := password st;
     keyFile := keyFile st; error := e |}.

Definition setPassword (s : string) (st : State) : State :=
  {| loadedContext := loadedContext st; messages := messages st;
     inputMessage := inputMessage st; isLoading := isLoading st;
     showKeyLoader := showKeyLoader st; password := s;
     keyFile := keyFile st; error := error st |}.

Definition setInputMessage (s : string) (st : State) : State :=
  {| loadedContext := loadedContext st; messages := messages st;
     inputMessage := s; isLoading := isLoading st;
     showKeyLoader := showKeyLoader st; password := password st;
     keyFile := keyFile st; error := error st |}.

Definition setKeyFile (f : option File) (st : State) : State :=
  {| loadedContext := loadedContext st; messages := messages st;
     inputMessage := inputMessage st; isLoading := isLoading st;
     showKeyLoader := showKeyLoader st; password := password st;
     keyFile := f; error := error st |}.

(** The state the component starts in, lines 22 to 29. *)
Definition initial : State :=
  {| loadedContext := None; messages := []; inputMessage := EmptyString;
     isLoading := false; showKeyLoader := true; password := EmptyString;
     keyFile := None; error := None |}.

(** [onDrop], lines 47 to 52. *)
Definition onDrop (acceptedFiles : list File) (st : State) : State :=
  match acceptedFiles with
  | file :: _ => setError None (setKeyFile (Some file) st)
  | [] => st
  end.

(** [clearSession], lines 187 to 192. *)
Definition clearSession (st : State) : State :=
  {| loadedContext := None; messages := [];
     inputMessage := inputMessage st; isLoading := isLoading st;
     showKeyLoader := true; password := password st;
     keyFile := keyFile st; error := None |}.

(** Lines 126 to 132. *)
Definition systemPrompt (context : LoadedContext) : result string :=
  name <- ToString (displayName context) ;;
  style <- ToString (tone context) ;;
  areas <- join (domains context) ", " ;;
  Ok ("You are a helpful AI assistant. Here is your context:"
      ++ String newline (String newline
      ("Display Name: " ++ name
      ++ String newline
      ("Communication Style: " ++ style
      ++ String newline
      ("Areas of Expertise: " ++ areas
      ++ String newline (String newline
      "Please respond according to this context and communication style. Be helpful and knowledgeable about the user's areas of expertise."))))))%string.

Definition message (role : string) (content : value) : value :=
  JObj [("role", JStr role); ("content", content)].

(** The argument of [JSON.stringify] at lines 140 to 149: the prompt, the
    messages of the conversation that are no system messages, and the
    message of the user. *)
Definition request (prompt : string) (history : list ChatMessage)
    (userMessage : ChatMessage) : value :=
  JObj [("messages",
         JArr (message "system" (JStr prompt)
               :: map (fun m => message (role m) (content m))
                    (filter (fun m => negb (String.eqb (role m) "system"))
                       history)
               ++ [message "user" (content userMessage)]))].

(** Lines 95 to 98: the four updates that end a successful load. *)
Definition loaded (m : ChatMessage) (st : State) : State :=
  {| loadedContext := loadedContext st; messages := [m];
     inputMessage := inputMessage st; isLoading := isLoading st;
     showKeyLoader := false; password := EmptyString;
     keyFile := None; error := error st |}.

Section Page.

Context (P : Platform).

(** [JSON.parse] on the text of the file, which may hold white space. *)
Variable JSON_parse_file : string -> result value.

(** The conversion Web Crypto applies to the [iterations] member of the
    algorithm: a JavaScript value to an unsigned long, or a TypeError. *)
Variable unsigned_long : value -> result Z.

(** [fetch('/api/chat', ...)] with the given body: the network and the
    server behind it. *)
Variable fetch : string -> result Response.

(** [deriveKey] and [decryptContextKey] of crypto.ts, on what the page
    hands them: whatever [JSON.parse] returned. *)
Definition deriveKey_of (password : string) (salt : bytes) (iterations : value)
  : result (CryptoKey P) :=
  let passwordBuffer := TextEncoder_encode P password in
  baseKey <- subtle_importKey P "raw" passwordBuffer "PBKDF2" ;;
  n <- unsigned_long iterations ;;
  subtle_deriveKey P (deriveKey_algorithm salt n) baseKey
    {| aes_name := "AES-GCM"; aes_length := 256 |}.

Definition decryptContextKey_of (encryptedKey : value) (password : string)
  : result value :=
  salt <- Get encryptedKey "salt" ;;
  salt <- decodeBase64 P salt ;;
  iv <- Get encryptedKey "iv" ;;
  iv <- decodeBase64 P iv ;;
  encrypted_data <- Get encryptedKey "encrypted_data" ;;
  encryptedData <- decodeBase64 P encrypted_data ;;
  kdf_params <- Get encryptedKey "kdf_params" ;;
  iterations <- Get kdf_params "iterations" ;;
  key <- deriveKey_of password salt iterations ;;
  decrypted <- subtle_decrypt P iv key encryptedData ;;
  let serialized := TextDecoder_decode P decrypted in
  JSON_parse serialized.

(** Lines 66 to 75: the envelope, once read, opened and verified. *)
Definition verified_envelope (file : File) (password : string)
  : result value :=
  fileContent <- text file ;;
  encryptedKey <- JSON_parse_file fileContent ;;
  signedKey <- decryptContextKey_of encryptedKey password ;;
  verified <- verifyContextKey P signedKey ;;
  if negb verified then Throw (Error "Invalid key signature")
  else Ok signedKey.

(** Lines 77 to 85: the argument of [setLoadedContext]. *)
Definition context_of (signedKey : value) : result LoadedContext :=
  contextKey <- Get signedKey "data" ;;
  profile <- Get contextKey "profile" ;;
  display_name <- Get profile "display_name" ;;
  profile <- Get contextKey "profile" ;;
  tone <- Get profile "tone" ;;
  profile <- Get contextKey "profile" ;;
  domains <- Get profile "domains" ;;
  Ok {| contextKey := contextKey; displayName := display_name;
        tone := tone; domains := domains |}.

(** Lines 88 to 93; [now] is what [Date.now()] returned and [timestamp]
    what [new Date().toISOString()] did. *)
Definition systemMessage (contextKey : value) (now : Z) (timestamp : string)
  : result ChatMessage :=
  profile <- Get contextKey "profile" ;;
  display_name <- Get profile "display_name" ;;
  name <- ToString display_name ;;
  policies <- Get contextKey "policies" ;;
  persistence <- Get policies "persistence" ;;
  session <- ToString persistence ;;
  Ok {| id := Number_toString now;
        role := "system";
        content := JStr ("Context Key loaded for " ++ name
                         ++ ". This session is " ++ session ++ ".");
        timestamp := timestamp |}.

(** The body of the try block, with the state it leaves. *)
Definition load (file : File) (now : Z) (timestamp : string) (st : State)
  : State * result unit :=
  match verified_envelope file (password st) with
  | Throw e => (st, Throw e)
  | Ok signedKey =>
      match context_of signedKey with
      | Throw e => (st, Throw e)
      | Ok context =>
          let st := setLoadedContext (Some context) st in
          match systemMessage (contextKey context) now timestamp with
          | Throw e => (st, Throw e)
          | Ok m => (loaded m st, Ok tt)
          end
      end
  end.

Definition loadContextKey (st : State) (now : Z) (timestamp : string)
  : State :=
  match keyFile st, password st with
  | None, _ | _, EmptyString =>
      setError (Some "Please select a key file and enter your password") st
  | Some file, _ =>
      let (st, outcome) :=
        load file now timestamp (setError None (setIsLoading true st)) in
      let st :=
        match outcome with
        | Ok _ => st
        | Throw _ =>
            setError
              (Some "Failed to load context key. Please check your file and password.")
              st
        end in
      setIsLoading false st
  end.

(** The body of the try block of [sendMessage], lines 125 to 165: the
    content of the reply, and the requests that went out. *)
Definition reply (context : LoadedContext) (history : list ChatMessage)
    (userMessage : ChatMessage) : result value * list string :=
  match systemPrompt context with
  | Throw e => (Throw e, [])
  | Ok prompt =>
      let body :=
        match JSON_stringify (request prompt history userMessage) None with
        | Some t => t
        | None => "undefined"
        end in
      (response <- fetch body ;;
       if negb (ok response)
       then Throw (Error "Failed to get response from AI")
       else data <- json response ;; Get data "content",
       [body])
  end.

(** [sendMessage]; [now] and [timestamp] are the readings of the clock for
    the message of the user, [now'] and [timestamp'] those for the message
    that answers it. *)
Definition sendMessage (st : State) (now : Z) (timestamp : string)
    (now' : Z) (timestamp' : string) : State * list string :=
  match trim (inputMessage st), loadedContext st with
  | EmptyString, _ | _, None => (st, [])
  | text, Some context =>
      let userMessage :=
        {| id := Number_toString now; role := "user";
           content := JStr text; timestamp := timestamp |} in
      let (answer, requests) := reply context (messages st) userMessage in
      let second :=
        {| id := Number_toString (now' + 1); role := "assistant";
           content :=
             match answer with
             | Ok content => content
             | Throw _ =>
                 JStr "Sorry, I encountered an error processing your message. Please try again."
             end;
           timestamp := timestamp' |} in
      ({| loadedContext := loadedContext st;
          messages := messages st ++ [userMessage; second];
          inputMessage := EmptyString; isLoading := false;
          showKeyLoader := showKeyLoader st; password := password st;
          keyFile := keyFile st; error := error st |},
       requests)
  end.

(** What the user can make the page do, with the readings of the clock
    each handler takes.  Each handler runs to its end before the next
    starts. *)
Inductive action : Type :=
| OnDrop (acceptedFiles : list File)
| SetPassword (s : string)
| SetInputMessage (s : string)
| LoadContextKey (now : Z) (timestamp : string)
| SendMessage (now : Z) (timestamp : string) (now' : Z) (timestamp' : string)
| ClearSession.

Definition step (st : State) (a : action) : State * list string :=
  match a with
  | OnDrop acceptedFiles => (onDrop acceptedFiles st, [])
  | SetPassword s => (setPassword s st, [])
  | SetInputMessage s => (setInputMessage s st, [])
  | LoadContextKey now timestamp => (loadContextKey st now timestamp, [])
  | SendMessage now timestamp now' timestamp' =>
      sendMessage st now timestamp now' timestamp'
  | ClearSession => (clearSession st, [])
  end.

(** The state after a run of actions, and the requests sent on the way. *)
Fixpoint run (st : State) (actions : list action) : State * list string :=
  match actions with
  | [] => (st, [])
  | a :: rest =>
      let (st', sent) := step st a in
      let (st'', sent') := run st' rest in
      (st'', sent ++ sent')
  end.

End Page.

End TempChat.

(** * Part II: what the theorems are stated with *)

(** ** What the theorems assume of the platform *)

(** The functional contracts of the libraries: base64 and the text codec
    decode what they encoded, the random source fills the array it is
    given, PBKDF2 returns for an iteration count that is a positive
    unsigned long, AES-GCM seals under a 12-byte nonce and opens with the
    same key and nonce what it sealed. *)
Record PlatformLaws (P : Platform) : Prop := {
  base64_roundtrip :
    forall b, decodeBase64 P (JStr (encodeBase64 P b)) = Ok b;
  text_roundtrip :
    forall s, TextDecoder_decode P (TextEncoder_encode P s) = s;
  random_length :
    forall n g, List.length (fst (getRandomValues P n g)) = n;
  deriveKey_returns :
    forall password salt n,
      (0 < n < 2 ^ 32)%Z -> exists key, deriveKey P password salt n = Ok key;
  encrypt_returns :
    forall iv key data,
      List.length iv = 12 -> exists c, subtle_encrypt P iv key data = Ok c;
  decrypt_encrypt :
    forall iv key data c,
      subtle_encrypt P iv key data = Ok c ->
      subtle_decrypt P iv key c = Ok data
}.

(** The same contracts stated of the primitives alone: [importKey] takes
    every password, and PBKDF2 with SHA-256 returns an AES-GCM key for an
    iteration count that is a positive unsigned long. *)
Record LibraryLaws (P : Platform) : Prop := {
  decodeBase64_encodeBase64 :
    forall b, decodeBase64 P (JStr (encodeBase64 P b)) = Ok b;
  decode_encode :
    forall s, TextDecoder_decode P (TextEncoder_encode P s) = s;
  getRandomValues_length :
    forall n g, List.length (fst (getRandomValues P n g)) = n;
  importKey_returns :
    forall raw,
      exists baseKey, subtle_importKey P "raw" raw "PBKDF2" = Ok baseKey;
  pbkdf2_returns :
    forall salt n baseKey,
      (0 < n < 2 ^ 32)%Z ->
      exists key,
        subtle_deriveKey P
          {| kdf_name := "PBKDF2"; kdf_salt := salt; kdf_iterations := n;
             kdf_hash := "SHA-256" |}
          baseKey {| aes_name := "AES-GCM"; aes_length := 256 |} = Ok key;
  aes_gcm_encrypt_returns :
    forall iv key data,
      List.length iv = 12 -> exists c, subtle_encrypt P iv key data = Ok c;
  aes_gcm_decrypt_encrypt :
    forall iv key data c,
      subtle_encrypt P iv key data = Ok c ->
      subtle_decrypt P iv key c = Ok data
}.

(** AES-GCM as an ideal authenticated cipher: what was sealed under one
    key is refused under every other. *)
Record AuthenticatedCipher (P : Platform) : Prop := {
  other_key_rejected :
    forall iv k1 k2 data c,
      k1 <> k2 ->
      subtle_encrypt P iv k1 data = Ok c ->
      subtle_decrypt P iv k2 c = Throw OperationError
}.

(** The platform with another Ed25519 core. *)
Definition with_nacl (P : Platform) (sign : bytes -> bytes -> bytes)
    (open : bytes -> bytes -> bytes -> bool) : Platform := {|
  encodeBase64 := encodeBase64 P;
  decodeBase64 := decodeBase64 P;
  encodeUTF8 := encodeUTF8 P;
  crypto_sign := sign;
  crypto_sign_open := open;
  BaseKey := BaseKey P;
  CryptoKey := CryptoKey P;
  subtle_importKey := subtle_importKey P;
  subtle_deriveKey := subtle_deriveKey P;
  subtle_encrypt := subtle_encrypt P;
  subtle_decrypt := subtle_decrypt P;
  TextEncoder_encode := TextEncoder_encode P;
  TextDecoder_decode := TextDecoder_decode P;
  Rng := Rng P;
  getRandomValues := getRandomValues P
|}.

(** Ed25519, with [crypto_sign_public] the public key of a seed: a
    signature under a 64-byte secret key has 64 bytes, a public key 32, and
    a signature made with the secret key of a key pair, which is the seed
    followed by its public key, is accepted under that public key.  (Under
    64 bytes that are no such pair the signature is made and then
    refused.) *)
Record SignatureLaws (P : Platform) (crypto_sign_public : bytes -> bytes)
  : Prop := {
  signature_length :
    forall m sk, List.length sk = 64 -> List.length (crypto_sign P m sk) = 64;
  public_key_length :
    forall seed, List.length (crypto_sign_public seed) = 32;
  own_signature_accepted :
    forall m seed,
      List.length seed = 32 ->
      crypto_sign_open P m
        (crypto_sign P m (seed ++ crypto_sign_public seed))
        (crypto_sign_public seed) = true
}.

(** tweetnacl-util names its two text functions after the string, not after
    the bytes: [decodeUTF8(s)] takes a string to a Uint8Array, and
    [encodeUTF8(arr)] takes a Uint8Array to a string.  Whatever
    [encodeUTF8] returns is therefore a string.  crypto.ts imports both and
    calls [encodeUTF8] on the serialized record. *)
Definition encodeUTF8_returns_string (P : Platform) : Prop :=
  forall v m, encodeUTF8 P v = Ok m -> exists s, m = JSString s.

(** ** Values that JSON text holds exactly *)

Fixpoint distinct (l : list string) : bool :=
  match l with
  | [] => true
  | k :: rest => negb (existsb (String.eqb k) rest) && distinct rest
  end.

Fixpoint all_digits (s : string) : bool :=
  match s with
  | EmptyString => true
  | String c rest => is_digit c && all_digits rest
  end.

(** Canonical numeric strings: the property names an object enumerates
    first, in numeric order, whatever the order of creation. *)
Definition is_array_index (k : string) : bool :=
  match k with
  | EmptyString => false
  | _ => all_digits k && negb (leading_zero k)
  end.

(** No [undefined], no NaN or infinity, integers in the safe range, and
    objects whose property names are distinct and enumerate in creation
    order. *)
Fixpoint json_clean (v : value) : bool :=
  match v with
  | JUndefined => false
  | JNull | JBool _ | JStr _ => true
  | JNum (Finite z) => (Z.abs z <? 2 ^ 53)%Z
  | JNum _ => false
  | JArr xs => forallb json_clean xs
  | JObj fs =>
      distinct (map fst fs)
      && forallb (fun kv => negb (is_array_index (fst kv))
                            && json_clean (snd kv)) fs
  end.

(** The value with null for every NaN and infinity, at any depth. *)
Fixpoint without_non_finite (v : value) : value :=
  match v with
  | JNum (Finite z) => JNum (Finite z)
  | JNum _ => JNull
  | JArr xs => JArr (map without_non_finite xs)
  | JObj fs => JObj (map (fun kv => (fst kv, without_non_finite (snd kv))) fs)
  | _ => v
  end.

(** ** Records that differ in the order of creation *)

(** [w] is [v] with the properties of its objects, at any depth, created
    in another order; arrays keep their order. *)
#[warnings="-register-all"]
Inductive reordered : value -> value -> Prop :=
| reordered_undefined : reordered JUndefined JUndefined
| reordered_null : reordered JNull JNull
| reordered_bool (b : bool) : reordered (JBool b) (JBool b)
| reordered_num (n : number) : reordered (JNum n) (JNum n)
| reordered_str (s : string) : reordered (JStr s) (JStr s)
| reordered_arr (xs ys : list value) :
    Forall2 reordered xs ys -> reordered (JArr xs) (JArr ys)
| reordered_obj (fs hs gs : list (string * value)) :
    Forall2 (fun f h => fst f = fst h /\ reordered (snd f) (snd h)) fs hs ->
    Permutation hs gs ->
    reordered (JObj fs) (JObj gs).

(** An object has each property name once. *)
Fixpoint distinct_keys (v : value) : bool :=
  match v with
  | JArr xs => forallb distinct_keys xs
  | JObj fs =>
      distinct (map fst fs) && forallb (fun kv => distinct_keys (snd kv)) fs
  | _ => true
  end.

(** ** Tampering with the nested fields *)

(** Memory entries with their contents passed through [contents]. *)
Definition memory_entries (contents : string -> string)
    (ms : list (string * string * string)) : list value :=
  map (fun m => MemoryEntry (fst (fst m)) (contents (snd (fst m))) (snd m)) ms.

(** The keys of a ContextKey, sorted: the replacer array of line 36. *)
Definition signed_names : list string :=
  ["created_at"; "data_sources"; "id"; "memories"; "policies"; "profile";
   "updated_at"; "version"].

(** ** What the signed text keeps of a record *)

(** The value that the text written under the property list [K] denotes:
    [undefined] is dropped from objects and null in arrays, NaN and the
    infinities are null, and an object keeps the names of [K] it has, in
    the order of [K]. *)
Fixpoint written (K : list string) (v : value) : option value :=
  match v with
  | JUndefined => None
  | JNull => Some JNull
  | JBool b => Some (JBool b)
  | JNum (Finite z) => Some (JNum (Finite z))
  | JNum _ => Some JNull
  | JStr s => Some (JStr s)
  | JArr xs =>
      Some (JArr (map (fun x => match written K x with
                                | Some w => w
                                | None => JNull
                                end) xs))
  | JObj fs =>
      let table := map (fun kv => (fst kv, written K (snd kv))) fs in
      Some (JObj (flat_map (fun P => match assoc P table with
                                     | Some (Some w) => [(P, w)]
                                     | _ => []
                                     end) K))
  end.

(** What [serialize] keeps of [data]: what is written under its own
    sorted keys. *)
Definition signed_part (data : value) : option value :=
  match Object_keys data with
  | Ok keys => written (dedup (Array_sort keys)) data
  | Throw _ => None
  end.

(** [Object.prototype.hasOwnProperty]: the value is an object that has
    the name among its own properties. *)
Definition has_own_property (v : value) (name : string) : bool :=
  match v with
  | JObj fs => existsb (String.eqb name) (map fst fs)
  | _ => false
  end.

(** Values that plain JSON text denotes: no [undefined], no NaN or
    infinity, distinct property names. *)
Fixpoint printable (v : value) : bool :=
  match v with
  | JUndefined => false
  | JNull | JBool _ | JStr _ => true
  | JNum (Finite _) => true
  | JNum _ => false
  | JArr xs => forallb printable xs
  | JObj fs =>
      distinct (map fst fs) && forallb (fun kv => printable (snd kv)) fs
  end.

(** ** What the pages' strings are measured with *)

Definition starts_with_space (s : string) : bool :=
  match s with
  | EmptyString => false
  | String c _ => is_white_space c
  end.

Fixpoint ends_with_space (s : string) : bool :=
  match s with
  | EmptyString => false
  | String c EmptyString => is_white_space c
  | String _ rest => ends_with_space rest
  end.

(** Some code unit of [s] satisfies [p]. *)
Fixpoint has (p : ascii -> bool) (s : string) : bool :=
  match s with
  | EmptyString => false
  | String c rest => p c || has p rest
  end.

Fixpoint count (p : ascii -> bool) (s : string) : nat :=
  match s with
  | EmptyString => 0
  | String c rest => (if p c then 1 else 0) + count p rest
  end.

(** A to Z. *)
Definition is_capital (c : ascii) : bool :=
  let n := N_of_ascii c in ((65 <=? n) && (n <=? 90))%N.

(** ** A platform to run on

    Cryptography in the symbolic style: a derived key is the framed list of
    what it was derived from, the password padded as HMAC pads it, and a
    ciphertext carries its key and nonce in front of the plaintext.  base64 and the text codec are the identity on
    code units.  It satisfies the laws above. *)
Module Symbolic.

Definition zero : ascii := "000"%char.
Definition one : ascii := "001"%char.

(** Self-delimiting framing: each byte after a 1, then a 0. *)
Fixpoint frame (l : bytes) : bytes :=
  match l with
  | [] => [zero]
  | c :: l' => one :: c :: frame l'
  end.

Fixpoint unframe (l : bytes) : option (bytes * bytes) :=
  match l with
  | m :: rest =>
      if Ascii.eqb m zero then Some ([], rest)
      else
        match rest with
        | c :: rest' =>
            match unframe rest' with
            | Some (body, after) => Some (c :: body, after)
            | None => None
            end
        | [] => None
        end
  | [] => None
  end.

Definition bytes_eqb (a b : bytes) : bool :=
  String.eqb (string_of_list_ascii a) (string_of_list_ascii b).

Definition decode (v : value) : result bytes :=
  match v with
  | JStr s => Ok (list_ascii_of_string s)
  | _ => Throw TypeError
  end.

(** HMAC pads a key shorter than its block of 64 bytes with zeros, and
    PBKDF2 sees the password through it. *)
Definition hmac_key (k : bytes) : bytes :=
  k ++ repeat zero (64 - List.length k).

Definition derive (params : Pbkdf2Params) (baseKey : bytes)
    (_ : AesKeyGenParams) : result bytes :=
  if (0 <? kdf_iterations params)%Z
  then Ok (frame (hmac_key baseKey) ++ frame (kdf_salt params)
           ++ frame (list_ascii_of_string
                       (Number_toString (kdf_iterations params))))
  else Throw OperationError.

Definition seal (iv key data : bytes) : result bytes :=
  if Nat.eqb (List.length iv) 12
  then Ok (frame key ++ frame iv ++ data)
  else Throw OperationError.

Definition open (iv key c : bytes) : result bytes :=
  match unframe c with
  | Some (key', c') =>
      match unframe c' with
      | Some (iv', data) =>
          if bytes_eqb key key' && bytes_eqb iv iv' then Ok data
          else Throw OperationError
      | None => Throw OperationError
      end
  | None => Throw OperationError
  end.

(** A signature names the public key and the start of the message. *)
Definition tag (pk m : bytes) : bytes :=
  firstn 64 (pk ++ m ++ repeat zero 64).

Definition sign (m sk : bytes) : bytes := tag (skipn 32 sk) m.

Definition platform : Platform := {|
  encodeBase64 := string_of_list_ascii;
  decodeBase64 := decode;
  encodeUTF8 := fun v =>
    match v with JStr s => Ok (JSString s) | _ => Ok (JSString EmptyString) end;
  crypto_sign := sign;
  crypto_sign_open := fun m sig pk => bytes_eqb sig (tag pk m);
  BaseKey := bytes;
  CryptoKey := bytes;
  subtle_importKey := fun _ password _ => Ok password;
  subtle_deriveKey := derive;
  subtle_encrypt := seal;
  subtle_decrypt := open;
  TextEncoder_encode := list_ascii_of_string;
  TextDecoder_decode := string_of_list_ascii;
  Rng := nat;
  getRandomValues := fun n g => (repeat (ascii_of_nat g) n, S g)
|}.

(** The same platform with the bytes of the string as the message, which is
    what tweetnacl-util's [decodeUTF8] returns. *)
Definition with_decodeUTF8 : Platform := {|
  encodeBase64 := encodeBase64 platform;
  decodeBase64 := decodeBase64 platform;
  encodeUTF8 := fun v =>
    match v with
    | JStr s => Ok (Uint8Array (list_ascii_of_string s))
    | _ => Throw TypeError
    end;
  crypto_sign := crypto_sign platform;
  crypto_sign_open := crypto_sign_open platform;
  BaseKey := BaseKey platform;
  CryptoKey := CryptoKey platform;
  subtle_importKey := subtle_importKey platform;
  subtle_deriveKey := subtle_deriveKey platform;
  subtle_encrypt := subtle_encrypt platform;
  subtle_decrypt := subtle_decrypt platform;
  TextEncoder_encode := TextEncoder_encode platform;
  TextDecoder_decode := TextDecoder_decode platform;
  Rng := Rng platform;
  getRandomValues := getRandomValues platform
|}.

End Symbolic.

(** ** Concrete inputs *)

Module Examples.

(** The record of the spec's scenario. *)
Definition ana : value :=
  ContextKey "1.0.0" "key-1" "2024-01-01T00:00:00.000Z"
    "2024-01-02T00:00:00.000Z"
    (UserProfile "Ana" "concise" ["ml"])
    (Policies false "session" "strict")
    []
    (memory_entries (fun c => c) [("m1", "likes tea", "2024-01-03")]).

(** The same record after tampering with the profile, the policies and
    the memory. *)
Definition mallory : value :=
  ContextKey "1.0.0" "key-1" "2024-01-01T00:00:00.000Z"
    "2024-01-02T00:00:00.000Z"
    (UserProfile "Bob" "verbose" ["law"; "finance"])
    (Policies true "permanent" "permissive")
    []
    (memory_entries (fun _ => "owes me money")
       [("m1", "likes tea", "2024-01-03")]).

(** An envelope nobody signed. *)
Definition forged : value := SignedContextKey ana "AAAA" "BBBB".

Definition private_key : string :=
  string_of_list_ascii (repeat "k"%char 64).

(** A record with a NaN where types.ts allows any value, and the same
    record without it. *)
Definition with_nan : value :=
  ContextKey "1.0.0" "key-2" "2024-01-01" "2024-01-01"
    (UserProfile "Ana" "concise" ["ml"])
    (Policies false "session" "strict")
    [DataSource "d1" "notes" "local_file" (JObj [("weight", JNum NaN)])]
    [].

Definition without_nan : value :=
  ContextKey "1.0.0" "key-2" "2024-01-01" "2024-01-01"
    (UserProfile "Ana" "concise" ["ml"])
    (Policies false "session" "strict")
    [DataSource "d1" "notes" "local_file" (JObj [])]
    [].

(** Unsigned envelopes around them, and the second with null for NaN. *)
Definition forged_nan : value := SignedContextKey with_nan "AAAA" "BBBB".

Definition forged_null : value :=
  SignedContextKey
    (ContextKey "1.0.0" "key-2" "2024-01-01" "2024-01-01"
       (UserProfile "Ana" "concise" ["ml"])
       (Policies false "session" "strict")
       [DataSource "d1" "notes" "local_file" (JObj [("weight", JNull)])]
       [])
    "AAAA" "BBBB".

(** An unsigned envelope whose data source configuration has array
    indices among its property names, in enumeration order. *)
Definition forged_indices : value :=
  SignedContextKey
    (ContextKey "1.0.0" "key-5" "2024-01-01" "2024-01-01"
       (UserProfile "Ana" "concise" ["ml"])
       (Policies false "session" "strict")
       [DataSource "d1" "notes" "local_file"
          (JObj [("2", JNum (Finite 1)); ("10", JBool true);
                 ("b", JNull); ("a", JNum (Finite (-3)))])]
       [])
    "AAAA" "BBBB".

(** A password, and the same followed by a NUL. *)
Definition correct_horse : string := "correct-horse".

Definition correct_horse_NUL : string :=
  (correct_horse ++ String Symbolic.zero EmptyString)%string.

(** A record whose version is NaN, and the same with null. *)
Definition version_nan : value :=
  JObj [("version", JNum NaN); ("id", JStr "key-3")].

Definition version_null : value :=
  JObj [("version", JNull); ("id", JStr "key-3")].

(** The same record with the properties of the record and of its profile
    created in the opposite order. *)
Definition ana_profile_fields : list (string * value) :=
  [("display_name", JStr "Ana"); ("tone", JStr "concise");
   ("domains", strings ["ml"])].

Definition ana_fields (profile : value) : list (string * value) :=
  [("version", JStr "1.0.0"); ("id", JStr "key-1");
   ("created_at", JStr "2024-01-01T00:00:00.000Z");
   ("updated_at", JStr "2024-01-02T00:00:00.000Z");
   ("profile", profile);
   ("policies", Policies false "session" "strict");
   ("data_sources", JArr []);
   ("memories",
    JArr (memory_entries (fun c => c) [("m1", "likes tea", "2024-01-03")]))].

Definition ana_reversed : value :=
  JObj (rev (ana_fields (JObj (rev ana_profile_fields)))).

(** What is left of [ana] in the text that is signed. *)
Definition ana_signed_part : value :=
  JObj [("created_at", JStr "2024-01-01T00:00:00.000Z");
        ("data_sources", JArr []);
        ("id", JStr "key-1");
        ("memories",
         JArr [JObj [("created_at", JStr "2024-01-03"); ("id", JStr "m1")]]);
        ("policies", JObj []);
        ("profile", JObj []);
        ("updated_at", JStr "2024-01-02T00:00:00.000Z");
        ("version", JStr "1.0.0")].

Definition blob_a : EncryptedContextKey :=
  {| encrypted_data := "Y2lwaGVy"; iv := "bm9uY2U="; salt := "c2FsdA==";
     kdf_params := {| algorithm := "argon2id"; iterations := 100000;
                      memory := 65536; parallelism := 1 |} |}.

Definition blob_b : EncryptedContextKey :=
  {| encrypted_data := "Y2lwaGVy"; iv := "bm9uY2U="; salt := "c2FsdA==";
     kdf_params := {| algorithm := "PBKDF2"; iterations := 100000;
                      memory := 0; parallelism := 4 |} |}.

End Examples.

(** ** Concrete inputs for the pages *)

Module PageExamples.

Import Symbolic Examples.

(** A public key for every seed: its first 32 bytes, padded. *)
Definition public_of_seed (seed : bytes) : bytes :=
  firstn 32 (seed ++ repeat zero 32).

(** A conversion that takes the numbers in range and nothing else. *)
Definition unsigned_long (v : value) : result Z :=
  match v with
  | JNum (Finite z) =>
      if ((0 <=? z) && (z <? 2 ^ 32))%Z then Ok z else Throw TypeError
  | _ => Throw TypeError
  end.

Definition form : Vault.FormData :=
  {| Vault.display_name := "Ana  Maria";
     Vault.tone := "custom";
     Vault.custom_tone := "dry";
     Vault.domains := ["Software Development"];
     Vault.custom_domains := "ml, law ,";
     Vault.allow_writeback := true;
     Vault.persistence := "session";
     Vault.pii_handling := "moderate";
     Vault.password := "correct horse";
     Vault.confirm_password := "correct horse" |}.

Definition mistyped : Vault.FormData :=
  {| Vault.display_name := "Ana  Maria";
     Vault.tone := "custom";
     Vault.custom_tone := "dry";
     Vault.domains := ["Software Development"];
     Vault.custom_domains := "ml, law ,";
     Vault.allow_writeback := true;
     Vault.persistence := "session";
     Vault.pii_handling := "moderate";
     Vault.password := "correct horse";
     Vault.confirm_password := "correct house" |}.

Definition at_step (n : Z) : Vault.State :=
  {| Vault.step := n; Vault.isGenerating := false;
     Vault.generatedKey := None |}.

(** The chat page before a key is loaded, with a file chosen and a
    password typed. *)
Definition waiting (file : TempChat.File) (password : string)
  : TempChat.State :=
  {| TempChat.loadedContext := None; TempChat.messages := [];
     TempChat.inputMessage := EmptyString; TempChat.isLoading := false;
     TempChat.showKeyLoader := true; TempChat.password := password;
     TempChat.keyFile := Some file; TempChat.error := None |}.

(** A record, signed and sealed on the platform whose message is the bytes
    of the text; [blob_a] stands in where a step fails. *)
Definition sealed (contextKey : value) (password : string)
  : EncryptedContextKey :=
  match signContextKey with_decodeUTF8 contextKey private_key with
  | Ok signedKey =>
      match fst (encryptContextKey with_decodeUTF8 signedKey password 0) with
      | Ok blob => blob
      | Throw _ => blob_a
      end
  | Throw _ => blob_a
  end.

(** A record with a profile and no policies. *)
Definition no_policies : value :=
  JObj [("version", JStr "1.0.0"); ("id", JStr "key-4");
        ("profile", UserProfile "Ana" "concise" ["ml"])].

(** A file whose text is not looked at, and a [JSON.parse] that reads every
    file as the given blob. *)
Definition some_file : TempChat.File := {| TempChat.text := Ok "{}" |}.

Definition read_as (blob : EncryptedContextKey) (_ : string) : result value :=
  Ok (EncryptedContextKey_object blob).

(** A server that answers every request. *)
Definition answering (_ : string) : result TempChat.Response :=
  Ok {| TempChat.ok := true;
        TempChat.json := Ok (JObj [("content", JStr "Hello, Ana.")]) |}.

(** A session: a file is dropped, the password typed, the key loaded, a
    message typed and sent. *)
Definition session : list TempChat.action :=
  [TempChat.OnDrop [some_file];
   TempChat.SetPassword "correct horse";
   TempChat.LoadContextKey 1704067200000 "2024-01-01T00:00:00.000Z";
   TempChat.SetInputMessage " hello ";
   TempChat.SendMessage 1704067201000 "2024-01-01T00:00:01.000Z"
     1704067202000 "2024-01-01T00:00:02.000Z"].

End PageExamples.

(** ** Measures for the proof that JSON text is read back *)

(** What may follow a numeral: anything but a digit. *)
Definition stops (rest : string) : bool :=
  match rest with
  | EmptyString => true
  | String c _ => negb (is_digit c)
  end.

(** Fuel that is enough to read a value back. *)
Fixpoint cost (v : value) : nat :=
  match v with
  | JArr xs => S (list_sum (map (fun x => S (cost x)) xs))
  | JObj fs => S (list_sum (map (fun kv => S (cost (snd kv))) fs))
  | _ => 1
  end.

(** [t] is the text of [v], and the parser reads [v] back from it whatever
    follows, given fuel for [v]. *)
Definition roundtrips (v : value) (t : string) : Prop :=
  SerializeJSONProperty None v = Some t
  /\ cost v <= String.length t
  /\ forall fuel rest,
       cost v <= fuel -> stops rest = true ->
       parse_value fuel (t ++ rest) = Some (v, rest).

(** The text after the first of a comma-separated run that [close] ends. *)
Fixpoint tail_text (close : ascii) (ts : list string) (rest : string)
  : string :=
  match ts with
  | [] => String close rest
  | t :: ts' => String "," (t ++ tail_text close ts' rest)
  end.

Definition member_texts (fs : list (string * value)) (ts : list string)
  : list string :=
  map (fun p => member (fst (fst p)) (snd p)) (combine fs ts).

(** * Part III: proofs *)

(** ** Facts about strings *)

Lemma append_assoc (a b c : string) : ((a ++ b) ++ c = a ++ (b ++ c))%string.
Proof. induction a as [|x a IH]; simpl; [reflexivity | now rewrite IH]. Qed.

Lemma length_append (a b : string) :
  String.length (a ++ b) = String.length a + String.length b.
Proof. induction a as [|x a IH]; simpl; [reflexivity | now rewrite IH]. Qed.

Lemma append_empty_r (a : string) : (a ++ "")%string = a.
Proof. induction a as [|x a IH]; simpl; [reflexivity | now rewrite IH]. Qed.

(** ** Strings are read back as written *)

Lemma parse_quote_code_unit (c : ascii) (tail : string) :
  parse_string_body (quote_code_unit c ++ tail)
  = cons_unit c (parse_string_body tail).
Proof.
  destruct c as [[] [] [] [] [] [] [] []]; reflexivity.
Qed.

Lemma parse_quote_body (s rest : string) :
  parse_string_body (quote_body s ++ String dquote rest) = Some (s, rest).
Proof.
  induction s as [|c s IH]; simpl.
  - reflexivity.
  - rewrite append_assoc, parse_quote_code_unit, IH. reflexivity.
Qed.

Lemma quote_code_unit_length (c : ascii) :
  1 <= String.length (quote_code_unit c).
Proof.
  destruct c as [[] [] [] [] [] [] [] []]; vm_compute; lia.
Qed.

(** ** Numerals are read back as written *)

Lemma span_digits_numeral (u : Decimal.uint) (rest : string) :
  stops rest = true ->
  span_digits (NilEmpty.string_of_uint u ++ rest)
  = (NilEmpty.string_of_uint u, rest).
Proof.
  intros Hrest. induction u; simpl; try (rewrite IHu; reflexivity).
  destruct rest as [|c r]; simpl in *; [reflexivity|].
  destruct (is_digit c); [discriminate | reflexivity].
Qed.

Lemma nzhead_not_D0 (d d' : Decimal.uint) : Decimal.nzhead d <> Decimal.D0 d'.
Proof. induction d; simpl; try discriminate. exact IHd. Qed.

Lemma leading_zero_unorm (d : Decimal.uint) :
  leading_zero (NilEmpty.string_of_uint (Decimal.unorm d)) = false.
Proof.
  unfold Decimal.unorm.
  destruct (Decimal.nzhead d) eqn:E; simpl; try reflexivity;
    try (destruct (NilEmpty.string_of_uint u); reflexivity).
  exfalso. exact (nzhead_not_D0 _ _ E).
Qed.

Lemma to_uint_unorm (n : N) : Decimal.unorm (N.to_uint n) = N.to_uint n.
Proof.
  rewrite <- DecimalN.Unsigned.to_of, DecimalN.Unsigned.of_to. reflexivity.
Qed.

Lemma to_uint_nonnil (n : N) : N.to_uint n <> Decimal.Nil.
Proof.
  destruct n; simpl; [discriminate | apply DecimalPos.Unsigned.to_uint_nonnil].
Qed.

Lemma parse_digits_decimal (n : N) (rest : string) :
  stops rest = true -> parse_digits (decimal n ++ rest) = Some (n, rest).
Proof.
  intros Hrest. unfold parse_digits, decimal.
  rewrite span_digits_numeral by assumption.
  rewrite <- (to_uint_unorm n) at 1. rewrite leading_zero_unorm.
  rewrite NilEmpty.usu.
  pose proof (to_uint_nonnil n) as Hn.
  destruct (N.to_uint n) eqn:E; try contradiction;
    rewrite <- E, DecimalN.Unsigned.of_to; reflexivity.
Qed.

Lemma parse_number_unsigned (u : Decimal.uint) (rest : string) :
  u <> Decimal.Nil ->
  parse_number (NilEmpty.string_of_uint u ++ rest)
  = match parse_digits (NilEmpty.string_of_uint u ++ rest) with
    | Some (n, rest') => Some (Z.of_N n, rest')
    | None => None
    end.
Proof.
  intros Hu. destruct u; try contradiction; reflexivity.
Qed.

Lemma parse_number_toString (z : Z) (rest : string) :
  stops rest = true -> parse_number (Number_toString z ++ rest) = Some (z, rest).
Proof.
  intros Hrest. destruct z as [|p|p].
  - change (Number_toString 0) with (decimal 0). unfold decimal at 1.
    rewrite parse_number_unsigned by apply to_uint_nonnil.
    fold (decimal 0). rewrite parse_digits_decimal by assumption. reflexivity.
  - unfold Number_toString, decimal at 1.
    rewrite parse_number_unsigned by apply to_uint_nonnil.
    fold (decimal (Npos p)). rewrite parse_digits_decimal by assumption.
    reflexivity.
  - unfold Number_toString. simpl.
    rewrite parse_digits_decimal by assumption. reflexivity.
Qed.

Lemma decimal_length (n : N) : 1 <= String.length (decimal n).
Proof.
  unfold decimal. pose proof (to_uint_nonnil n) as Hn.
  destruct (N.to_uint n); try contradiction; simpl; lia.
Qed.

Lemma Number_toString_length (z : Z) : 1 <= String.length (Number_toString z).
Proof.
  destruct z; simpl; try lia; apply decimal_length.
Qed.

(** ** Values are read back as written *)

Lemma concat_tail (close : ascii) (t : string) (ts : list string)
    (rest : string) :
  (String.concat "," (t :: ts) ++ String close rest
   = t ++ tail_text close ts rest)%string.
Proof.
  revert t. induction ts as [|t' ts IH]; intros t.
  - reflexivity.
  - change (String.concat "," (t :: t' :: ts))
      with (t ++ String "," (String.concat "," (t' :: ts)))%string.
    rewrite append_assoc. cbn [String.append tail_text].
    rewrite IH. reflexivity.
Qed.

Lemma stops_tail_text (close : ascii) (ts : list string) (rest : string) :
  is_digit close = false -> stops (tail_text close ts rest) = true.
Proof. intros H. destruct ts; simpl; [now rewrite H | reflexivity]. Qed.

Lemma concat_length (cs : list nat) (ts : list string) :
  Forall2 (fun c t => c <= String.length t) cs ts ->
  list_sum (map S cs) <= String.length (String.concat "," ts) + 1.
Proof.
  induction 1 as [|c t cs ts Hlen Hrest IH]; [simpl; lia|].
  destruct Hrest as [|c' t' cs ts Hc' Hrest].
  - simpl. lia.
  - change (String.concat "," (t :: t' :: ts))
      with (t ++ String "," (String.concat "," (t' :: ts)))%string.
    rewrite length_append. simpl String.length.
    simpl in IH |- *. lia.
Qed.

(** *** Arrays *)

Lemma parse_value_close_bracket (fuel : nat) (rest : string) :
  parse_value fuel (String "]" rest) = None.
Proof. destruct fuel; reflexivity. Qed.

Lemma parse_value_array (fuel : nat) (rest : string) :
  parse_value (S fuel) (String "[" rest)
  = match parse_value fuel rest with
    | Some (v, rest') =>
        match parse_elements fuel rest' with
        | Some (vs, rest'') => Some (JArr (v :: vs), rest'')
        | None => None
        end
    | None =>
        match rest with
        | String "]" rest' => Some (JArr [], rest')
        | _ => None
        end
    end.
Proof. reflexivity. Qed.

Lemma parse_elements_tail (xs : list value) (ts : list string) :
  Forall2 roundtrips xs ts ->
  forall fuel rest,
    S (list_sum (map (fun x => S (cost x)) xs)) <= fuel ->
    parse_elements fuel (tail_text "]" ts rest) = Some (xs, rest).
Proof.
  induction 1 as [|x t xs ts (_ & _ & Hparse) _ IH]; intros fuel rest Hfuel.
  - destruct fuel; [simpl in Hfuel; lia | reflexivity].
  - destruct fuel as [|fuel]; [simpl in Hfuel; lia|].
    simpl in Hfuel.
    change (parse_elements (S fuel) (tail_text "]" (t :: ts) rest))
      with (match parse_value fuel (t ++ tail_text "]" ts rest) with
            | Some (v, rest') =>
                match parse_elements fuel rest' with
                | Some (vs, rest'') => Some (v :: vs, rest'')
                | None => None
                end
            | None => None
            end).
    rewrite Hparse by (try apply stops_tail_text; try reflexivity; lia).
    rewrite IH by lia. reflexivity.
Qed.

Lemma array_roundtrips (xs : list value) (ts : list string) :
  Forall2 roundtrips xs ts ->
  roundtrips (JArr xs) (String "[" (String.concat "," ts ++ "]")).
Proof.
  intros H. split; [|split].
  - simpl.
    replace (map _ xs) with ts; [reflexivity|].
    induction H as [|x t xs ts (Hser & _) _ IH]; simpl; [reflexivity|].
    rewrite Hser, <- IH. reflexivity.
  - assert (Forall2 (fun c t => c <= String.length t) (map cost xs) ts) as Hl.
    { induction H as [|x t xs ts (_ & Hlen & _) _ IH]; simpl; auto. }
    apply concat_length in Hl. rewrite map_map in Hl. simpl.
    rewrite length_append. simpl. lia.
  - intros fuel rest Hfuel _.
    destruct fuel as [|fuel]; [simpl in Hfuel; lia|].
    simpl String.append. rewrite append_assoc. simpl String.append.
    rewrite parse_value_array.
    destruct H as [|x t xs ts Hx Hrest].
    + simpl. rewrite parse_value_close_bracket. reflexivity.
    + rewrite concat_tail. simpl in Hfuel.
      destruct Hx as (_ & _ & Hparse).
      rewrite Hparse by (try apply stops_tail_text; try reflexivity; lia).
      rewrite (parse_elements_tail _ _ Hrest) by lia. reflexivity.
Qed.

(** *** Objects *)

Lemma parse_value_object (fuel : nat) (rest : string) :
  parse_value (S fuel) (String "{" rest)
  = match rest with
    | String "}" rest' => Some (JObj [], rest')
    | _ =>
        match parse_members fuel rest with
        | Some (ms, rest') => Some (object_of ms, rest')
        | None => None
        end
    end.
Proof. reflexivity. Qed.

Lemma parse_members_member (fuel : nat) (k t after : string) :
  parse_members (S fuel) (member k t ++ after)
  = match parse_value fuel (t ++ after) with
    | Some (v, String "}" rest'') => Some ([(k, v)], rest'')
    | Some (v, String "," rest'') =>
        match parse_members fuel rest'' with
        | Some (ms, rest3) => Some ((k, v) :: ms, rest3)
        | None => None
        end
    | _ => None
    end.
Proof.
  unfold member, QuoteJSONString.
  cbn [String.append]. rewrite !append_assoc. cbn [String.append].
  cbn [parse_members]. change (Ascii.eqb dquote dquote) with true. cbv iota.
  rewrite parse_quote_body. reflexivity.
Qed.

Lemma parse_members_text (fs : list (string * value)) (ts : list string) :
  Forall2 (fun kv t => roundtrips (snd kv) t) fs ts ->
  forall kv t fuel rest,
    roundtrips (snd kv) t ->
    S (cost (snd kv)) + list_sum (map (fun kv => S (cost (snd kv))) fs)
    <= fuel ->
    parse_members fuel
      (member (fst kv) t ++ tail_text "}" (member_texts fs ts) rest)
    = Some (kv :: fs, rest).
Proof.
  induction 1 as [|kv' t' fs ts Hkv' _ IH];
    intros [k v] t fuel rest (_ & _ & Hparse) Hfuel;
    (destruct fuel as [|fuel]; [simpl in Hfuel; lia|]);
    rewrite parse_members_member; simpl in Hfuel; simpl fst; simpl snd in *.
  - simpl. rewrite Hparse by (try reflexivity; lia). reflexivity.
  - change (member_texts (kv' :: fs) (t' :: ts))
      with (member (fst kv') t' :: member_texts fs ts).
    cbn [tail_text].
    rewrite Hparse by (try reflexivity; lia).
    rewrite IH by (try assumption; lia). reflexivity.
Qed.

Lemma define_fresh (fs : list (string * value)) (k : string) (v : value) :
  existsb (String.eqb k) (map fst fs) = false ->
  define fs k v = fs ++ [(k, v)].
Proof.
  induction fs as [|[k' v'] fs IH]; simpl; [reflexivity|].
  intros H. apply orb_false_iff in H as [Hk Hrest].
  rewrite Hk, IH by assumption. reflexivity.
Qed.

Lemma existsb_app_false (k : string) (l1 l2 : list string) :
  existsb (String.eqb k) (l1 ++ l2) = false ->
  existsb (String.eqb k) l1 = false /\ existsb (String.eqb k) l2 = false.
Proof. rewrite existsb_app. apply orb_false_iff. Qed.

Lemma distinct_app_cons (l1 l2 : list string) (k : string) :
  distinct (l1 ++ k :: l2) = true ->
  existsb (String.eqb k) l1 = false /\ distinct ((l1 ++ [k]) ++ l2) = true.
Proof.
  induction l1 as [|h l1 IH]; simpl.
  - intros H. split; [reflexivity | exact H].
  - intros H. apply andb_true_iff in H as [Hh Hd].
    apply negb_true_iff in Hh. rewrite existsb_app in Hh.
    apply orb_false_iff in Hh as [Hh1 Hh2]. simpl in Hh2.
    apply orb_false_iff in Hh2 as [Hhk Hh2].
    destruct (IH Hd) as [Hk Hd']. split.
    + rewrite String.eqb_sym, Hhk, Hk. reflexivity.
    + rewrite Hd', andb_true_r. apply negb_true_iff.
      rewrite !existsb_app, Hh1, Hh2. simpl. rewrite Hhk. reflexivity.
Qed.

Lemma fold_define (fs acc : list (string * value)) :
  distinct (map fst (acc ++ fs)) = true ->
  fold_left (fun a kv => define a (fst kv) (snd kv)) fs acc = acc ++ fs.
Proof.
  revert acc. induction fs as [|[k v] fs IH]; intros acc H; simpl.
  - now rewrite app_nil_r.
  - rewrite map_app in H. simpl in H.
    apply distinct_app_cons in H as [Hk Hd].
    rewrite define_fresh by assumption.
    rewrite IH.
    + rewrite <- app_assoc. reflexivity.
    + rewrite !map_app. exact Hd.
Qed.

Lemma object_of_distinct (fs : list (string * value)) :
  distinct (map fst fs) = true -> object_of fs = JObj fs.
Proof.
  intros H. unfold object_of. rewrite fold_define; [reflexivity | exact H].
Qed.

Lemma object_roundtrips (fs : list (string * value)) (ts : list string) :
  distinct (map fst fs) = true ->
  Forall2 (fun kv t => roundtrips (snd kv) t) fs ts ->
  roundtrips (JObj fs)
    (String "{" (String.concat "," (member_texts fs ts) ++ "}")).
Proof.
  intros Hkeys H. split; [|split].
  - simpl.
    replace (flat_map _ _) with (member_texts fs ts); [reflexivity|].
    induction H as [|kv t fs ts (Hser & _) _ IH]; [reflexivity|].
    simpl in Hkeys. apply andb_true_iff in Hkeys as [_ Hkeys].
    simpl. rewrite Hser. simpl.
    change (member_texts (kv :: fs) (t :: ts))
      with (member (fst kv) t :: member_texts fs ts).
    f_equal. exact (IH Hkeys).
  - assert (Forall2 (fun c t => c <= String.length t)
              (map (fun kv => cost (snd kv)) fs) (member_texts fs ts)) as Hl.
    { clear Hkeys.
      induction H as [|kv t fs ts (_ & Hlen & _) _ IH]; simpl; auto.
      constructor; [|exact IH].
      unfold member. rewrite length_append. simpl. lia. }
    apply concat_length in Hl. rewrite map_map in Hl. simpl.
    rewrite length_append. simpl. lia.
  - intros fuel rest Hfuel _.
    destruct fuel as [|fuel]; [simpl in Hfuel; lia|].
    simpl String.append. rewrite append_assoc. simpl String.append.
    rewrite parse_value_object.
    destruct H as [|kv t fs ts Hkv Hrest].
    + reflexivity.
    + change (member_texts (kv :: fs) (t :: ts))
        with (member (fst kv) t :: member_texts fs ts).
      rewrite concat_tail. simpl in Hfuel.
      rewrite (parse_members_text _ _ Hrest) by (try assumption; lia).
      rewrite object_of_distinct by assumption.
      unfold member, QuoteJSONString. reflexivity.
Qed.

(** *** Every clean value *)

Lemma parse_value_number (fuel : nat) (s rest : string) (z : Z) :
  parse_number s = Some (z, rest) ->
  parse_value (S fuel) s = Some (JNum (Finite z), rest).
Proof. intros H. cbn [parse_value]. rewrite H. reflexivity. Qed.

Lemma parse_value_string (fuel : nat) (body : string) :
  parse_value (S fuel) (String dquote body)
  = match parse_string_body body with
    | Some (str, rest') => Some (JStr str, rest')
    | None => None
    end.
Proof. reflexivity. Qed.

Lemma quote_body_length (s : string) :
  String.length s <= String.length (quote_body s).
Proof.
  induction s as [|c s IH]; simpl; [lia|].
  rewrite length_append. pose proof (quote_code_unit_length c). lia.
Qed.

Theorem clean_roundtrips (v : value) :
  json_clean v = true -> exists t, roundtrips v t.
Proof.
  induction v as [| |b|n|s|xs IH|fs IH] using value_ind'; intros Hclean.
  - discriminate.
  - exists "null". repeat split; [simpl; lia|].
    intros [|fuel] rest Hfuel _; [simpl in Hfuel; lia | reflexivity].
  - exists (if b then "true" else "false").
    destruct b; (repeat split; [simpl; lia|]);
      intros [|fuel] rest Hfuel _; (simpl in Hfuel; lia) || reflexivity.
  - destruct n as [z| | |]; try discriminate.
    exists (Number_toString z). repeat split.
    + apply Number_toString_length.
    + intros [|fuel] rest Hfuel Hrest; [simpl in Hfuel; lia|].
      apply parse_value_number, parse_number_toString, Hrest.
  - exists (QuoteJSONString s). repeat split; [simpl; lia|].
    intros [|fuel] rest Hfuel _; [simpl in Hfuel; lia|].
    unfold QuoteJSONString. cbn [String.append].
    rewrite parse_value_string, append_assoc. cbn [String.append].
    rewrite parse_quote_body. reflexivity.
  - assert (exists ts, Forall2 roundtrips xs ts) as [ts Hts].
    { simpl in Hclean. induction IH as [|x xs Hx _ IHxs].
      - exists []. constructor.
      - simpl in Hclean. apply andb_true_iff in Hclean as [Hc Hcs].
        destruct (Hx Hc) as [t Ht]. destruct (IHxs Hcs) as [ts Hts].
        exists (t :: ts). constructor; assumption. }
    eexists. apply array_roundtrips, Hts.
  - simpl in Hclean. apply andb_true_iff in Hclean as [Hkeys Hclean].
    assert (exists ts, Forall2 (fun kv t => roundtrips (snd kv) t) fs ts)
      as [ts Hts].
    { clear Hkeys. induction IH as [|kv fs Hkv _ IHfs].
      - exists []. constructor.
      - simpl in Hclean. apply andb_true_iff in Hclean as [Hc Hcs].
        apply andb_true_iff in Hc as [_ Hc].
        destruct (Hkv Hc) as [t Ht]. destruct (IHfs Hcs) as [ts Hts].
        exists (t :: ts). constructor; assumption. }
    eexists. apply object_roundtrips; [exact Hkeys | exact Hts].
Qed.

(** An array index is all digits, with no leading zero. *)
Lemma span_digits_whole (k d : string) :
  span_digits k = (d, EmptyString) -> d = k /\ all_digits k = true.
Proof.
  revert d. induction k as [|c k IH]; intros d; simpl.
  - intros [= <-]. split; reflexivity.
  - destruct (is_digit c); [|discriminate].
    destruct (span_digits k) as [d' r]. intros [= <- ->].
    destruct (IH d' eq_refl) as [-> ->]. split; reflexivity.
Qed.

Lemma array_index_is_array_index (k : string) (n : N) :
  array_index k = Some n -> is_array_index k = true.
Proof.
  unfold array_index, parse_digits.
  destruct (span_digits k) as [d rest] eqn:E.
  destruct (leading_zero d) eqn:Hz; [discriminate|].
  destruct (NilEmpty.uint_of_string d) as [u|] eqn:Hu; [|discriminate].
  destruct u; try discriminate;
    (destruct rest; [|discriminate]; intros _;
     apply span_digits_whole in E as [-> Hd];
     unfold is_array_index; rewrite Hd, Hz;
     destruct k; [discriminate Hu | reflexivity]).
Qed.

Lemma OrdinaryOwnPropertyKeys_no_index (fs : list (string * value)) :
  forallb (fun kv => negb (is_array_index (fst kv))) fs = true ->
  OrdinaryOwnPropertyKeys fs = fs.
Proof.
  intros H. unfold OrdinaryOwnPropertyKeys.
  assert (forall kv, In kv fs -> array_index (fst kv) = None) as Hnone.
  { intros kv Hin. rewrite forallb_forall in H. specialize (H kv Hin).
    destruct (array_index (fst kv)) as [n|] eqn:E; [|reflexivity].
    apply array_index_is_array_index in E. rewrite E in H. discriminate. }
  clear H. induction fs as [|kv fs IH]; [reflexivity|].
  cbn [fold_right filter]. rewrite (Hnone kv (or_introl eq_refl)).
  specialize (IH (fun kv' Hin => Hnone kv' (or_intror Hin))).
  destruct (fold_right _ [] fs) as [|x l] eqn:E.
  - cbn [map app] in *. now rewrite IH.
  - exfalso. clear IH.
    assert (forall fs', (forall kv', In kv' fs' -> array_index (fst kv') = None) ->
              fold_right (fun kv0 acc => match array_index (fst kv0) with
                                         | Some n => insert_index n kv0 acc
                                         | None => acc
                                         end) [] fs' = []) as Hnil.
    { induction fs' as [|kv' fs' IH']; intros Hn; [reflexivity|].
      cbn [fold_right]. rewrite (Hn kv' (or_introl eq_refl)).
      apply IH'. intros kv'' Hin. apply Hn. now right. }
    rewrite Hnil in E; [discriminate|].
    intros kv' Hin. apply Hnone. now right.
Qed.

(** A clean value has its properties in enumeration order. *)
Lemma own_property_order_clean (v : value) :
  json_clean v = true -> own_property_order v = v.
Proof.
  induction v as [| |b|n|s|xs IH|fs IH] using value_ind'; intros Hclean;
    try reflexivity.
  - cbn [own_property_order]. f_equal. cbn [json_clean] in Hclean.
    induction IH as [|x xs Hx _ IHxs]; [reflexivity|].
    cbn [forallb] in Hclean. apply andb_true_iff in Hclean as [Hc Hcs].
    cbn [map]. now rewrite (Hx Hc), (IHxs Hcs).
  - cbn [own_property_order]. f_equal. cbn [json_clean] in Hclean.
    apply andb_true_iff in Hclean as [_ Hclean].
    assert (map (fun kv => (fst kv, own_property_order (snd kv))) fs = fs)
      as ->.
    { induction IH as [|[k x] fs Hx _ IHfs]; [reflexivity|].
      cbn [forallb fst snd] in Hclean.
      apply andb_true_iff in Hclean as [Hc Hcs].
      apply andb_true_iff in Hc as [_ Hc].
      cbn [map fst snd]. cbn [snd] in Hx. now rewrite (Hx Hc), (IHfs Hcs). }
    apply OrdinaryOwnPropertyKeys_no_index.
    rewrite forallb_forall in *. intros kv Hin.
    specialize (Hclean kv Hin). now apply andb_true_iff in Hclean as [-> _].
Qed.

(** JSON.parse(JSON.stringify(v)) gives [v] back, for every clean [v]. *)
Theorem JSON_parse_stringify (v : value) :
  json_clean v = true ->
  exists text, JSON_stringify v None = Some text /\ JSON_parse text = Ok v.
Proof.
  intros Hclean. destruct (clean_roundtrips v Hclean) as (t & Hser & Hlen & Hp).
  exists t. split; [exact Hser|].
  unfold JSON_parse.
  rewrite <- (append_empty_r t) at 2.
  rewrite Hp by (try reflexivity; lia).
  now rewrite own_property_order_clean.
Qed.

(** ** The symbolic platform keeps the laws *)

(** The public half of the secret key of a key pair. *)
Lemma skipn_secret_key (public : bytes -> bytes) (seed : bytes) :
  List.length seed = 32 -> skipn 32 (seed ++ public seed) = public seed.
Proof.
  intros H. rewrite skipn_app, H, Nat.sub_diag, skipn_all2 by lia.
  reflexivity.
Qed.

Module SymbolicLaws.

Import Symbolic.

Lemma unframe_frame (l rest : bytes) :
  unframe (frame l ++ rest) = Some (l, rest).
Proof.
  induction l as [|c l IH]; simpl; [reflexivity|]. rewrite IH. reflexivity.
Qed.

Lemma frame_inj (a b ra rb : bytes) :
  frame a ++ ra = frame b ++ rb -> a = b.
Proof.
  intros H. apply (f_equal unframe) in H.
  rewrite !unframe_frame in H. congruence.
Qed.

Lemma bytes_eqb_eq (a b : bytes) : bytes_eqb a b = true <-> a = b.
Proof.
  unfold bytes_eqb. rewrite String.eqb_eq. split; [|congruence].
  intros H. apply (f_equal list_ascii_of_string) in H.
  now rewrite !list_ascii_of_string_of_list_ascii in H.
Qed.

Lemma laws : PlatformLaws platform.
Proof.
  split.
  - intros b. simpl. now rewrite list_ascii_of_string_of_list_ascii.
  - apply string_of_list_ascii_of_string.
  - intros n g. apply repeat_length.
  - intros password salt n [Hn _]. unfold deriveKey.
    cbn [platform bind subtle_importKey subtle_deriveKey].
    unfold derive, deriveKey_algorithm.
    cbn [kdf_iterations]. apply Z.ltb_lt in Hn. rewrite Hn.
    eexists. reflexivity.
  - intros iv key data Hiv. cbn [platform subtle_encrypt]. unfold seal.
    rewrite Hiv. eexists. reflexivity.
  - intros iv key data c. cbn [platform subtle_encrypt subtle_decrypt].
    unfold seal, open.
    destruct (Nat.eqb (List.length iv) 12); [|discriminate].
    intros [= <-]. rewrite unframe_frame, unframe_frame.
    rewrite (proj2 (bytes_eqb_eq key key) eq_refl).
    rewrite (proj2 (bytes_eqb_eq iv iv) eq_refl). reflexivity.
Qed.

Lemma library : LibraryLaws platform.
Proof.
  split.
  - apply (base64_roundtrip platform laws).
  - apply (text_roundtrip platform laws).
  - apply (random_length platform laws).
  - intros raw. eexists. reflexivity.
  - intros salt n baseKey [Hn _]. cbn [platform subtle_deriveKey].
    unfold derive. cbn [kdf_iterations]. apply Z.ltb_lt in Hn. rewrite Hn.
    eexists. reflexivity.
  - apply (encrypt_returns platform laws).
  - apply (decrypt_encrypt platform laws).
Qed.

Lemma authenticated : AuthenticatedCipher platform.
Proof.
  split.
  intros iv k1 k2 data c Hk. cbn [platform subtle_encrypt subtle_decrypt].
  unfold seal, open.
  destruct (Nat.eqb (List.length iv) 12); [|discriminate].
  intros [= <-]. rewrite unframe_frame, unframe_frame.
  destruct (bytes_eqb k2 k1) eqn:E; [|reflexivity].
  apply bytes_eqb_eq in E. congruence.
Qed.

Lemma encodeUTF8_string : encodeUTF8_returns_string platform.
Proof.
  intros v m. simpl. destruct v; intros [= <-]; eexists; reflexivity.
Qed.

Lemma tag_length (pk m : bytes) : List.length (tag pk m) = 64.
Proof.
  unfold tag. rewrite length_firstn, !length_app, repeat_length. lia.
Qed.

Lemma signatures :
  SignatureLaws with_decodeUTF8 PageExamples.public_of_seed.
Proof.
  split.
  - intros m sk _. apply tag_length.
  - intros seed. unfold PageExamples.public_of_seed.
    rewrite length_firstn, length_app, repeat_length. lia.
  - intros m seed Hseed. apply bytes_eqb_eq.
    cbn [with_decodeUTF8 platform crypto_sign]. unfold sign.
    now rewrite skipn_secret_key.
Qed.

Lemma base64 (b : bytes) :
  decodeBase64 with_decodeUTF8 (JStr (encodeBase64 with_decodeUTF8 b)) = Ok b.
Proof. exact (base64_roundtrip platform laws b). Qed.

End SymbolicLaws.

(** ** Theorems *)

(** The laws of the primitives give those of [deriveKey]. *)
Lemma LibraryLaws_PlatformLaws (P : Platform) :
  LibraryLaws P -> PlatformLaws P.
Proof.
  intros W. split.
  - apply (decodeBase64_encodeBase64 P W).
  - apply (decode_encode P W).
  - apply (getRandomValues_length P W).
  - intros password salt n Hn. unfold deriveKey.
    destruct (importKey_returns P W (TextEncoder_encode P password))
      as [baseKey ->].
    cbn [bind]. apply (pbkdf2_returns P W salt n baseKey Hn).
  - apply (aes_gcm_encrypt_returns P W).
  - apply (aes_gcm_decrypt_encrypt P W).
Qed.

Section Envelope.

Context (P : Platform).

(** *** C10: the labels of kdf_params do not reach decryption *)

(** C10.  Two blobs that agree on the ciphertext, the nonce, the salt and
    kdf_params.iterations decrypt to the same outcome under every password,
    whatever their kdf_params.algorithm, memory and parallelism: only the
    iterations, with the salt and the password, enter the key derivation. *)
Theorem decrypt_independent_of_kdf_labels (b1 b2 : EncryptedContextKey)
    (password : string) :
  encrypted_data b1 = encrypted_data b2 ->
  iv b1 = iv b2 ->
  salt b1 = salt b2 ->
  iterations (kdf_params b1) = iterations (kdf_params b2) ->
  decryptContextKey P b1 password = decryptContextKey P b2 password.
Proof.
  intros Hdata Hiv Hsalt Hiter. unfold decryptContextKey.
  rewrite Hdata, Hiv, Hsalt, Hiter. reflexivity.
Qed.

(** *** C7: verification never throws *)

Lemma try_catch_bool (body : result bool) :
  try_catch body false = Ok true \/ try_catch body false = Ok false.
Proof. destruct body as [[|]|]; simpl; auto. Qed.

(** C7.  On every input [verifyContextKey] returns a boolean and never
    throws; it returns false when the signature is not base64, when the
    public key is not base64 or not 32 bytes long, when the signature is not
    64 bytes long, and when the signature check fails. *)
Theorem verifyContextKey_never_throws (signedKey : value) :
  (verifyContextKey P signedKey = Ok true
   \/ verifyContextKey P signedKey = Ok false)
  /\ (forall sg e,
        Get signedKey "signature" = Ok sg ->
        decodeBase64 P sg = Throw e ->
        verifyContextKey P signedKey = Ok false)
  /\ (forall pk e,
        Get signedKey "public_key" = Ok pk ->
        decodeBase64 P pk = Throw e ->
        verifyContextKey P signedKey = Ok false)
  /\ (forall pk pkb,
        Get signedKey "public_key" = Ok pk ->
        decodeBase64 P pk = Ok pkb ->
        List.length pkb <> 32 ->
        verifyContextKey P signedKey = Ok false)
  /\ (forall sg sgb,
        Get signedKey "signature" = Ok sg ->
        decodeBase64 P sg = Ok sgb ->
        List.length sgb <> 64 ->
        verifyContextKey P signedKey = Ok false)
  /\ (forall pk pkb sg sgb data text m,
        Get signedKey "public_key" = Ok pk ->
        decodeBase64 P pk = Ok pkb ->
        Get signedKey "signature" = Ok sg ->
        decodeBase64 P sg = Ok sgb ->
        Get signedKey "data" = Ok data ->
        serialize data = Ok text ->
        encodeUTF8 P (string_or_undefined text) = Ok (Uint8Array m) ->
        crypto_sign_open P m sgb pkb = false ->
        verifyContextKey P signedKey = Ok false).
Proof.
  unfold verifyContextKey. repeat split.
  - apply try_catch_bool.
  - intros sg e Hsg Hdec.
    destruct (Get signedKey "public_key") as [pk|]; [|reflexivity]. simpl.
    destruct (decodeBase64 P pk); [|reflexivity]. simpl.
    rewrite Hsg. simpl. rewrite Hdec. reflexivity.
  - intros pk e Hpk Hdec. rewrite Hpk. simpl. rewrite Hdec. reflexivity.
  - intros pk pkb Hpk Hdec Hlen. rewrite Hpk. simpl. rewrite Hdec. simpl.
    apply Nat.eqb_neq in Hlen.
    destruct (Get signedKey "signature") as [sg|]; [|reflexivity]. simpl.
    destruct (decodeBase64 P sg) as [sgb|]; [|reflexivity]. simpl.
    destruct (Get signedKey "data") as [data|]; [|reflexivity]. simpl.
    destruct (serialize data) as [text|]; [|reflexivity]. simpl.
    destruct (encodeUTF8 P _) as [[m|s]|]; try reflexivity. simpl.
    rewrite Hlen. destruct (Nat.eqb (List.length sgb) 64); reflexivity.
  - intros sg sgb Hsg Hdec Hlen.
    apply Nat.eqb_neq in Hlen.
    destruct (Get signedKey "public_key") as [pk|]; [|reflexivity]. simpl.
    destruct (decodeBase64 P pk); [|reflexivity]. simpl.
    rewrite Hsg. simpl. rewrite Hdec. simpl.
    destruct (Get signedKey "data") as [data|]; [|reflexivity]. simpl.
    destruct (serialize data) as [text|]; [|reflexivity]. simpl.
    destruct (encodeUTF8 P _) as [[m|s]|]; try reflexivity. simpl.
    rewrite Hlen. reflexivity.
  - intros pk pkb sg sgb data text m Hpk Hpkb Hsg Hsgb Hdata Htext Hm Hopen.
    rewrite Hpk. simpl. rewrite Hpkb. simpl. rewrite Hsg. simpl.
    rewrite Hsgb. simpl. rewrite Hdata. simpl. rewrite Htext. simpl.
    rewrite Hm. simpl. rewrite Hopen.
    destruct (Nat.eqb (List.length sgb) 64), (Nat.eqb (List.length pkb) 32);
      reflexivity.
Qed.

End Envelope.

Section Sealing.

Context (P : Platform).

(** *** C3: what kdf_params records *)

Lemma encryptContextKey_blob (signedKey : value) (password : string)
    (g : Rng P) (blob : EncryptedContextKey) :
  fst (encryptContextKey P signedKey password g) = Ok blob ->
  let salt' := fst (getRandomValues P 32 g) in
  let iv' := fst (getRandomValues P 12 (snd (getRandomValues P 32 g))) in
  exists key encrypted,
    deriveKey P password salt' 100000 = Ok key
    /\ subtle_encrypt P iv' key
         (TextEncoder_encode P
            (match JSON_stringify signedKey None with
             | Some s => s
             | None => EmptyString
             end)) = Ok encrypted
    /\ blob = {| encrypted_data := encodeBase64 P encrypted;
                 iv := encodeBase64 P iv';
                 salt := encodeBase64 P salt';
                 kdf_params := {| algorithm := "argon2id";
                                  iterations := 100000;
                                  memory := 65536;
                                  parallelism := 1 |} |}.
Proof.
  unfold encryptContextKey.
  destruct (getRandomValues P 32 g) as [salt' g1]. cbn [fst snd].
  destruct (getRandomValues P 12 g1) as [iv' g2]. cbn [fst snd].
  destruct (deriveKey P password salt' 100000) as [key|]; [|discriminate].
  simpl. destruct (subtle_encrypt P iv' key _) as [encrypted|] eqn:E;
    [|discriminate].
  simpl. intros [= <-]. exists key, encrypted. repeat split. exact E.
Qed.

(** C3, as amended.  Every blob [encryptContextKey] returns records the
    constant kdf_params: algorithm argon2id, iterations 100000, memory
    65536, parallelism 1.  Of these only the iterations describe what ran
    at seal time: [importKey] on the bytes of the password, then PBKDF2
    with SHA-256 over the recorded salt and the recorded iterations, whose
    key made the recorded ciphertext under the recorded nonce.
    [decryptContextKey], under any password, runs [importKey] and PBKDF2
    with SHA-256 over the blob's salt and kdf_params.iterations and opens
    the ciphertext with that key; it reads neither the algorithm nor the
    memory nor the parallelism of the blob. *)
Theorem seal_and_open_derive_alike (signedKey : value) (password : string)
    (g : Rng P) (blob : EncryptedContextKey) :
  (forall b, decodeBase64 P (JStr (encodeBase64 P b)) = Ok b) ->
  fst (encryptContextKey P signedKey password g) = Ok blob ->
  kdf_params blob
  = {| algorithm := "argon2id"; iterations := 100000;
       memory := 65536; parallelism := 1 |}
  /\ exists salt' iv' baseKey key encrypted,
       let pbkdf2 :=
         {| kdf_name := "PBKDF2"; kdf_salt := salt';
            kdf_iterations := iterations (kdf_params blob);
            kdf_hash := "SHA-256" |} in
       let aes_gcm := {| aes_name := "AES-GCM"; aes_length := 256 |} in
       salt' = fst (getRandomValues P 32 g)
       /\ decodeBase64 P (JStr (salt blob)) = Ok salt'
       /\ decodeBase64 P (JStr (iv blob)) = Ok iv'
       /\ decodeBase64 P (JStr (encrypted_data blob)) = Ok encrypted
       /\ subtle_importKey P "raw" (TextEncoder_encode P password) "PBKDF2"
          = Ok baseKey
       /\ subtle_deriveKey P pbkdf2 baseKey aes_gcm = Ok key
       /\ subtle_encrypt P iv' key
            (TextEncoder_encode P
               (match JSON_stringify signedKey None with
                | Some s => s
                | None => EmptyString
                end)) = Ok encrypted
       /\ (forall password',
             decryptContextKey P blob password'
             = (baseKey' <- subtle_importKey P "raw"
                              (TextEncoder_encode P password') "PBKDF2" ;;
                key' <- subtle_deriveKey P pbkdf2 baseKey' aes_gcm ;;
                decrypted <- subtle_decrypt P iv' key' encrypted ;;
                JSON_parse (TextDecoder_decode P decrypted)))
       /\ (forall algorithm' memory' parallelism' password',
             decryptContextKey P
               {| encrypted_data := encrypted_data blob; iv := iv blob;
                  salt := salt blob;
                  kdf_params := {| algorithm := algorithm';
                                   iterations := iterations (kdf_params blob);
                                   memory := memory';
                                   parallelism := parallelism' |} |}
               password'
             = decryptContextKey P blob password').
Proof.
  intros Hb64 H.
  apply encryptContextKey_blob in H as (key & encrypted & Hk & Henc & ->).
  split; [reflexivity|].
  unfold deriveKey in Hk.
  destruct (subtle_importKey P "raw" (TextEncoder_encode P password) "PBKDF2")
    as [baseKey|] eqn:Hbase; [|discriminate].
  cbn [bind] in Hk.
  exists (fst (getRandomValues P 32 g)),
    (fst (getRandomValues P 12 (snd (getRandomValues P 32 g)))),
    baseKey, key, encrypted.
  cbn [salt iv encrypted_data kdf_params iterations].
  rewrite !Hb64. repeat split; try assumption.
  intros password'. unfold decryptContextKey, deriveKey.
  cbn [salt iv encrypted_data kdf_params iterations].
  rewrite !Hb64. cbn [bind].
  destruct (subtle_importKey P "raw" (TextEncoder_encode P password') "PBKDF2");
    reflexivity.
Qed.

(** *** C4: the serializer validates nothing *)

Lemma serialize_object (fs : list (string * value)) :
  exists text, serialize (JObj fs) = Ok (Some text).
Proof. eexists. reflexivity. Qed.

Lemma SerializeJSONProperty_without_non_finite (K : option (list string))
    (v : value) :
  SerializeJSONProperty K (without_non_finite v) = SerializeJSONProperty K v.
Proof.
  induction v as [| |b|n|s|xs IH|fs IH] using value_ind'; try reflexivity.
  - destruct n; reflexivity.
  - cbn [without_non_finite SerializeJSONProperty]. rewrite map_map.
    rewrite Forall_forall in IH.
    rewrite (map_ext_in _ (fun x => match SerializeJSONProperty K x with
                                    | Some strP => strP
                                    | None => "null"
                                    end)); [reflexivity|].
    intros x Hin. now rewrite (IH x Hin).
  - cbn [without_non_finite SerializeJSONProperty]. rewrite map_map.
    rewrite Forall_forall in IH.
    rewrite (map_ext_in _ (fun kv => (fst kv, SerializeJSONProperty K (snd kv))));
      [reflexivity|].
    intros kv Hin. cbn [fst snd]. now rewrite (IH kv Hin).
Qed.

(** The text to sign reads NaN and the infinities in a record as null. *)
Lemma serialize_without_non_finite (fs : list (string * value)) :
  serialize (without_non_finite (JObj fs)) = serialize (JObj fs).
Proof.
  unfold serialize. cbn [without_non_finite Object_keys bind].
  rewrite map_map. cbn [fst]. unfold JSON_stringify. f_equal.
  change (map (fun x : string * value => fst x) fs) with (map fst fs).
  exact (SerializeJSONProperty_without_non_finite _ (JObj fs)).
Qed.

End Sealing.

Section Signing.

Context (P : Platform).

(** *** C1: what the signed text covers *)

Lemma memory_entry_text (K : option (list string))
    (contents contents' : string -> string)
    (ms : list (string * string * string)) :
  K = Some signed_names ->
  SerializeJSONProperty K (JArr (memory_entries contents ms))
  = SerializeJSONProperty K (JArr (memory_entries contents' ms)).
Proof.
  intros ->. unfold memory_entries. cbn [SerializeJSONProperty].
  rewrite !map_map. reflexivity.
Qed.

Lemma serialize_covers_no_nested_field
    (version id created_at updated_at : string)
    (display_name tone display_name' tone' : string)
    (domains domains' : list string)
    (allow_writeback allow_writeback' : bool)
    (persistence pii_handling persistence' pii_handling' : string)
    (data_sources : list value)
    (contents : string -> string) (ms : list (string * string * string)) :
  serialize
    (ContextKey version id created_at updated_at
       (UserProfile display_name tone domains)
       (Policies allow_writeback persistence pii_handling)
       data_sources (memory_entries (fun c => c) ms))
  = serialize
      (ContextKey version id created_at updated_at
         (UserProfile display_name' tone' domains')
         (Policies allow_writeback' persistence' pii_handling')
         data_sources (memory_entries contents ms)).
Proof.
  pose proof (memory_entry_text _ (fun c => c) contents ms eq_refl) as Hm.
  unfold serialize, ContextKey. cbn [Object_keys bind map fst].
  change (Array_sort _) with signed_names.
  unfold JSON_stringify.
  change (option_map dedup (Some signed_names)) with (Some signed_names).
  remember (JArr (memory_entries (fun c => c) ms)) as m1.
  remember (JArr (memory_entries contents ms)) as m2.
  cbn [SerializeJSONProperty map fst snd]. rewrite Hm. reflexivity.
Qed.

Lemma Get_SignedContextKey (data : value) (signature public_key : string) :
  Get (SignedContextKey data signature public_key) "data" = Ok data
  /\ Get (SignedContextKey data signature public_key) "signature"
     = Ok (JStr signature)
  /\ Get (SignedContextKey data signature public_key) "public_key"
     = Ok (JStr public_key).
Proof. repeat split. Qed.

(** [verifyContextKey] gives the same verdict on two envelopes with the
    same signature and public key whose records differ in the profile, in
    the policies and in the contents of the memory entries: none of these
    is part of the text the signature is checked against, because the
    replacer array built from the top-level keys filters the keys of the
    nested objects too. *)
Theorem verifyContextKey_blind_to_nested_fields
    (version id created_at updated_at : string)
    (display_name tone display_name' tone' : string)
    (domains domains' : list string)
    (allow_writeback allow_writeback' : bool)
    (persistence pii_handling persistence' pii_handling' : string)
    (data_sources : list value)
    (contents : string -> string) (ms : list (string * string * string))
    (signature public_key : string) :
  verifyContextKey P
    (SignedContextKey
       (ContextKey version id created_at updated_at
          (UserProfile display_name tone domains)
          (Policies allow_writeback persistence pii_handling)
          data_sources (memory_entries (fun c => c) ms))
       signature public_key)
  = verifyContextKey P
      (SignedContextKey
         (ContextKey version id created_at updated_at
            (UserProfile display_name' tone' domains')
            (Policies allow_writeback' persistence' pii_handling')
            data_sources (memory_entries contents ms))
         signature public_key).
Proof.
  unfold verifyContextKey.
  repeat match goal with
         | |- context [Get (SignedContextKey ?d ?s ?k) _] =>
             destruct (Get_SignedContextKey d s k) as (-> & -> & ->)
         end.
  cbn [bind].
  rewrite (serialize_covers_no_nested_field version id created_at updated_at
             display_name tone display_name' tone' domains domains'
             allow_writeback allow_writeback' persistence pii_handling
             persistence' pii_handling' data_sources contents ms).
  reflexivity.
Qed.

(** *** C4: signing validates nothing *)

(** C4, as amended.  [signContextKey] takes a NaN or an infinity in a
    record, at any depth, for null.  Serialization never fails on a record
    and gives the text of the record with null in their place; signing
    the record and signing it with null in their place fail with the same
    error or return the same signature and public key, and the envelope
    returned holds the record itself, unchanged; [verifyContextKey] gives
    one verdict on both.  Whatever [signContextKey] throws comes from the
    private key, which does not decode or has not 64 bytes, or from the
    message, which [encodeUTF8] refuses or returns as a string: nothing
    comes from what the record holds. *)
Theorem signContextKey_takes_non_finite_for_null
    (fs : list (string * value)) (privateKey signature public_key : string) :
  let contextKey := JObj fs in
  (exists text,
     serialize contextKey = Ok (Some text)
     /\ serialize (without_non_finite contextKey) = Ok (Some text))
  /\ match signContextKey P contextKey privateKey,
          signContextKey P (without_non_finite contextKey) privateKey with
     | Ok signedKey, Ok signedKey' =>
         exists s k,
           signedKey = SignedContextKey contextKey s k
           /\ signedKey' = SignedContextKey (without_non_finite contextKey) s k
     | Throw e, Throw e' => e = e'
     | _, _ => False
     end
  /\ verifyContextKey P (SignedContextKey contextKey signature public_key)
     = verifyContextKey P
         (SignedContextKey (without_non_finite contextKey) signature
            public_key)
  /\ (forall e,
        signContextKey P contextKey privateKey = Throw e ->
        decodeBase64 P (JStr privateKey) = Throw e
        \/ (exists sk,
              decodeBase64 P (JStr privateKey) = Ok sk
              /\ List.length sk <> 64
              /\ e = Error "bad secret key size")
        \/ (exists text,
              serialize contextKey = Ok (Some text)
              /\ (encodeUTF8 P (JStr text) = Throw e
                  \/ (exists s, encodeUTF8 P (JStr text) = Ok (JSString s))
                     /\ e = TypeError))).
Proof.
  intros contextKey. pose proof (serialize_without_non_finite fs) as Hs.
  fold contextKey in Hs. split; [|split; [|split]]; cycle 3.
  - intros e H. unfold signContextKey, nacl_sign_keyPair_fromSecretKey in H.
    destruct (decodeBase64 P (JStr privateKey)) as [sk|e0];
      cbn [bind] in H; [|left; injection H as <-; reflexivity].
    right.
    destruct (Nat.eqb (List.length sk) 64) eqn:Hlen; cbn [negb bind] in H.
    + right. destruct (serialize_object fs) as [text Htext].
      fold contextKey in Htext. rewrite Htext in H.
      cbn [bind string_or_undefined] in H.
      exists text. split; [exact Htext|].
      destruct (encodeUTF8 P (JStr text)) as [[m|s]|e1]; cbn [bind] in H.
      * unfold nacl_sign_detached in H. rewrite Hlen in H. discriminate.
      * right. cbn [nacl_sign_detached bind] in H. injection H as <-.
        split; [now exists s | reflexivity].
      * left. injection H as <-. reflexivity.
    + injection H as <-. left. exists sk. apply Nat.eqb_neq in Hlen.
      repeat split. exact Hlen.
  - destruct (serialize_object fs) as [text Htext]. exists text.
    split; [exact Htext|]. now rewrite Hs.
  - unfold signContextKey. rewrite Hs.
    destruct (decodeBase64 P (JStr privateKey)) as [sk|]; [|reflexivity].
    cbn [bind].
    destruct (nacl_sign_keyPair_fromSecretKey sk) as [kp|]; [|reflexivity].
    cbn [bind].
    destruct (serialize contextKey) as [text|]; [|reflexivity]. cbn [bind].
    destruct (encodeUTF8 P (string_or_undefined text)) as [m|]; [|reflexivity].
    cbn [bind].
    destruct (nacl_sign_detached P m sk) as [sg|]; [|reflexivity].
    cbn [bind]. eexists. eexists. split; reflexivity.
  - unfold verifyContextKey.
    repeat match goal with
           | |- context [Get (SignedContextKey ?d ?s ?k) _] =>
               destruct (Get_SignedContextKey d s k) as (-> & -> & ->)
           end.
    cbn [bind]. now rewrite Hs.
Qed.

(** *** C6 and C2: the message handed to tweetnacl *)

Lemma signContextKey_throws (contextKey : value) (privateKey : string) :
  encodeUTF8_returns_string P ->
  exists e, signContextKey P contextKey privateKey = Throw e.
Proof.
  intros Hstring. unfold signContextKey.
  destruct (decodeBase64 P (JStr privateKey)) as [sk|e]; [|now exists e].
  cbn [bind].
  destruct (nacl_sign_keyPair_fromSecretKey sk) as [kp|e]; [|now exists e].
  cbn [bind].
  destruct (serialize contextKey) as [text|e]; [|now exists e]. cbn [bind].
  destruct (encodeUTF8 P (string_or_undefined text)) as [m|e] eqn:E;
    [|now exists e].
  destruct (Hstring _ _ E) as [s ->]. exists TypeError. reflexivity.
Qed.

Lemma verifyContextKey_rejects (signedKey : value) :
  encodeUTF8_returns_string P ->
  verifyContextKey P signedKey = Ok false.
Proof.
  intros Hstring. unfold verifyContextKey.
  destruct (Get signedKey "public_key") as [pk|]; [|reflexivity]. cbn [bind].
  destruct (decodeBase64 P pk) as [pkb|]; [|reflexivity]. cbn [bind].
  destruct (Get signedKey "signature") as [sg|]; [|reflexivity]. cbn [bind].
  destruct (decodeBase64 P sg) as [sgb|]; [|reflexivity]. cbn [bind].
  destruct (Get signedKey "data") as [data|]; [|reflexivity]. cbn [bind].
  destruct (serialize data) as [text|]; [|reflexivity]. cbn [bind].
  destruct (encodeUTF8 P (string_or_undefined text)) as [m|] eqn:E;
    [|reflexivity].
  destruct (Hstring _ _ E) as [s ->]. reflexivity.
Qed.

(** C1.  When [encodeUTF8] returns a string, as tweetnacl-util's does, an
    envelope whose record was changed after signing is rejected:
    [verifyContextKey] returns false on the envelope that holds the changed
    record with the signature and the public key of the original, whatever
    was changed.  (No envelope comes from [signContextKey] itself, which
    throws for every record and private key: the statement is about every
    signature and public key.) *)
Theorem tampered_record_is_rejected (data tampered : value)
    (signature public_key : string) :
  encodeUTF8_returns_string P ->
  tampered <> data ->
  verifyContextKey P (SignedContextKey tampered signature public_key)
  = Ok false
  /\ forall privateKey,
       signContextKey P data privateKey
       <> Ok (SignedContextKey data signature public_key).
Proof.
  intros Hstring _. split; [now apply verifyContextKey_rejects|].
  intros privateKey H.
  destruct (signContextKey_throws data privateKey Hstring) as [e He].
  congruence.
Qed.

(** X1.  When [encodeUTF8] returns a string, [verifyContextKey] returns
    false on every input: [nacl.sign.detached.verify] refuses the message
    and the catch clause answers. *)
Theorem verifyContextKey_rejects_every_envelope (signedKey : value) :
  encodeUTF8_returns_string P ->
  verifyContextKey P signedKey = Ok false.
Proof. apply verifyContextKey_rejects. Qed.

(** X2.  Were the message the bytes of the serialized record, verifying
    right after signing would return true for the secret key of a key
    pair: with base64 and Ed25519 working as documented, a private key
    that decodes to a 32-byte seed followed by its public key, and
    [encodeUTF8] replaced by a function into Uint8Array. *)
Theorem verify_after_sign_with_bytes (crypto_sign_public : bytes -> bytes)
    (contextKey : value) (privateKey : string) (seed m : bytes)
    (text : option string) :
  (forall b, decodeBase64 P (JStr (encodeBase64 P b)) = Ok b) ->
  SignatureLaws P crypto_sign_public ->
  decodeBase64 P (JStr privateKey) = Ok (seed ++ crypto_sign_public seed) ->
  List.length seed = 32 ->
  serialize contextKey = Ok text ->
  encodeUTF8 P (string_or_undefined text) = Ok (Uint8Array m) ->
  exists signedKey,
    signContextKey P contextKey privateKey = Ok signedKey
    /\ verifyContextKey P signedKey = Ok true.
Proof.
  intros Hb64 S Hsk Hseed Htext Hm.
  pose proof (public_key_length P _ S seed) as Hpublic.
  assert (List.length (seed ++ crypto_sign_public seed) = 64) as Hlen
    by (rewrite length_app; lia).
  assert (Nat.eqb (List.length (seed ++ crypto_sign_public seed)) 64 = true)
    as Hlenb by now apply Nat.eqb_eq.
  pose proof (skipn_secret_key crypto_sign_public seed Hseed) as Hskip.
  eexists. split.
  - unfold signContextKey, nacl_sign_keyPair_fromSecretKey.
    rewrite Hsk. cbn [bind]. rewrite Hlenb. cbn [negb bind].
    rewrite Htext. cbn [bind]. rewrite Hm. cbn [bind nacl_sign_detached].
    rewrite Hlenb. cbn [negb bind publicKey]. rewrite Hskip. reflexivity.
  - unfold verifyContextKey.
    destruct (Get_SignedContextKey contextKey
                (encodeBase64 P
                   (crypto_sign P m (seed ++ crypto_sign_public seed)))
                (encodeBase64 P (crypto_sign_public seed))) as (-> & -> & ->).
    cbn [bind]. rewrite !Hb64. cbn [bind]. rewrite Htext. cbn [bind].
    rewrite Hm. cbn [bind nacl_sign_detached_verify].
    rewrite (signature_length P _ S _ _ Hlen), Hpublic.
    cbn [Nat.eqb negb].
    rewrite (own_signature_accepted P _ S m seed Hseed). reflexivity.
Qed.

(** C6.  When [encodeUTF8] returns a string, as tweetnacl-util's does,
    [signContextKey] throws for every record and every private key: the
    serialized record goes through [encodeUTF8], and [nacl.sign.detached]
    refuses a message that is not a Uint8Array.  Verifying right after
    signing therefore never yields true. *)
Theorem verify_after_sign_throws (contextKey : value) (privateKey : string) :
  encodeUTF8_returns_string P ->
  exists e,
    (signedKey <- signContextKey P contextKey privateKey ;;
     verifyContextKey P signedKey) = Throw e.
Proof.
  intros Hstring.
  destruct (signContextKey_throws contextKey privateKey Hstring) as [e ->].
  exists e. reflexivity.
Qed.

(** C2.  When [encodeUTF8] returns a string, sealing a record and opening
    the blob again throws at the signing step, for every record, private
    key, password and random state. *)
Theorem open_after_seal_throws (contextKey : value)
    (privateKey password : string) (g : Rng P) :
  encodeUTF8_returns_string P ->
  exists e,
    (signedKey <- signContextKey P contextKey privateKey ;;
     blob <- fst (encryptContextKey P signedKey password g) ;;
     opened <- decryptContextKey P blob password ;;
     verified <- verifyContextKey P opened ;;
     Ok (opened, verified)) = Throw e.
Proof.
  intros Hstring.
  destruct (signContextKey_throws contextKey privateKey Hstring) as [e ->].
  exists e. reflexivity.
Qed.

End Signing.

Section Opening.

Context (P : Platform) (L : PlatformLaws P).

(** With the libraries working as documented, [encryptContextKey] returns
    a blob: the key is derived over the salt drawn first. *)
Lemma encryptContextKey_blob_of (signedKey : value) (password : string)
    (g : Rng P) :
  let salt' := fst (getRandomValues P 32 g) in
  exists iv' key encrypted,
    deriveKey P password salt' 100000 = Ok key
    /\ subtle_encrypt P iv' key
         (TextEncoder_encode P
            (match JSON_stringify signedKey None with
             | Some s => s
             | None => EmptyString
             end)) = Ok encrypted
    /\ fst (encryptContextKey P signedKey password g)
       = Ok {| encrypted_data := encodeBase64 P encrypted;
               iv := encodeBase64 P iv';
               salt := encodeBase64 P salt';
               kdf_params := {| algorithm := "argon2id";
                                iterations := 100000;
                                memory := 65536;
                                parallelism := 1 |} |}.
Proof.
  unfold encryptContextKey.
  destruct (getRandomValues P 32 g) as [salt' g1].
  pose proof (random_length P L 12 g1) as Hiv.
  destruct (getRandomValues P 12 g1) as [iv' g2]. cbn [fst snd] in *.
  destruct (deriveKey_returns P L password salt' 100000 (conj eq_refl eq_refl))
    as [key Hkey].
  destruct (encrypt_returns P L iv' key
              (TextEncoder_encode P
                 (match JSON_stringify signedKey None with
                  | Some s => s
                  | None => EmptyString
                  end)) Hiv) as [encrypted Henc].
  exists iv', key, encrypted.
  rewrite Hkey. cbn [bind]. rewrite Henc. repeat split; assumption.
Qed.

Lemma encryptContextKey_returns (signedKey : value) (password : string)
    (g : Rng P) :
  exists salt' iv' key encrypted,
    deriveKey P password salt' 100000 = Ok key
    /\ subtle_encrypt P iv' key
         (TextEncoder_encode P
            (match JSON_stringify signedKey None with
             | Some s => s
             | None => EmptyString
             end)) = Ok encrypted
    /\ fst (encryptContextKey P signedKey password g)
       = Ok {| encrypted_data := encodeBase64 P encrypted;
               iv := encodeBase64 P iv';
               salt := encodeBase64 P salt';
               kdf_params := {| algorithm := "argon2id";
                                iterations := 100000;
                                memory := 65536;
                                parallelism := 1 |} |}.
Proof.
  destruct (encryptContextKey_blob_of signedKey password g)
    as (iv' & key & encrypted & H).
  now exists (fst (getRandomValues P 32 g)), iv', key, encrypted.
Qed.

End Opening.

(** *** C8: the signed text does not depend on the order of creation *)

Lemma leb_trans (a b c : string) :
  String.leb a b = true -> String.leb b c = true -> String.leb a c = true.
Proof.
  unfold String.leb. intros Hab Hbc.
  destruct (String.compare a b) eqn:Eab; try discriminate;
    destruct (String.compare b c) eqn:Ebc; try discriminate.
  - apply String_as_OT.cmp_eq in Eab, Ebc. subst.
    pose proof (proj2 (String_as_OT.cmp_eq c c) eq_refl) as Hcc.
    unfold String_as_OT.cmp in Hcc. now rewrite Hcc.
  - apply String_as_OT.cmp_eq in Eab. subst. now rewrite Ebc.
  - apply String_as_OT.cmp_eq in Ebc. subst. now rewrite Eab.
  - apply String_as_OT.cmp_lt in Eab, Ebc.
    pose proof (String_as_OT.lt_trans _ _ _ Eab Ebc) as Hac.
    apply String_as_OT.cmp_lt in Hac. unfold String_as_OT.cmp in Hac.
    now rewrite Hac.
Qed.

Lemma leb_false_flip (a b : string) :
  String.leb a b = false -> String.leb b a = true.
Proof.
  intros H. destruct (String.leb_total a b) as [Hab|Hba]; congruence.
Qed.

Lemma insert_comm (x y : string) (l : list string) :
  insert x (insert y l) = insert y (insert x l).
Proof.
  induction l as [|h t IH]; simpl.
  - destruct (String.leb x y) eqn:Exy, (String.leb y x) eqn:Eyx;
      try reflexivity.
    + now rewrite (String.leb_antisym _ _ Exy Eyx).
    + apply leb_false_flip in Exy. congruence.
  - destruct (String.leb y h) eqn:Eyh, (String.leb x h) eqn:Exh; simpl;
      rewrite ?Eyh, ?Exh;
      destruct (String.leb x y) eqn:Exy, (String.leb y x) eqn:Eyx;
      try reflexivity;
      try (apply leb_false_flip in Exy; congruence);
      try (rewrite (String.leb_antisym _ _ Exy Eyx); reflexivity);
      try (pose proof (leb_trans _ _ _ Exy Eyh); congruence);
      try (pose proof (leb_trans _ _ _ Eyx Exh); congruence);
      try (rewrite IH; reflexivity).
Qed.

Lemma Array_sort_permutation (l l' : list string) :
  Permutation l l' -> Array_sort l = Array_sort l'.
Proof.
  induction 1 as [|x l l' _ IH|x y l|l l' l'' _ IH1 _ IH2]; simpl.
  - reflexivity.
  - now rewrite IH.
  - apply insert_comm.
  - now rewrite IH1.
Qed.

Lemma distinct_NoDup (l : list string) : distinct l = true <-> NoDup l.
Proof.
  induction l as [|k l IH]; simpl.
  - split; [constructor | reflexivity].
  - rewrite andb_true_iff, negb_true_iff, IH. split.
    + intros [Hk Hl]. constructor; [|exact Hl].
      intros Hin. apply Bool.not_true_iff_false in Hk. apply Hk.
      apply existsb_exists. exists k. split; [exact Hin|apply String.eqb_refl].
    + intros H. inversion H as [|? ? Hk Hl]; subst. split; [|exact Hl].
      apply Bool.not_true_iff_false. intros Hex.
      apply existsb_exists in Hex as (k' & Hin & Heq).
      apply String.eqb_eq in Heq. subst. contradiction.
Qed.

Lemma assoc_map {A B : Type} (f : A -> B) (k : string)
    (fs : list (string * A)) :
  assoc k (map (fun kv => (fst kv, f (snd kv))) fs)
  = option_map f (assoc k fs).
Proof.
  induction fs as [|[k' a] fs IH]; simpl; [reflexivity|].
  destruct (String.eqb k k'); [reflexivity | exact IH].
Qed.

Lemma assoc_permutation {A : Type} (k : string) (hs gs : list (string * A)) :
  NoDup (map fst hs) -> Permutation hs gs -> assoc k hs = assoc k gs.
Proof.
  intros Hnd Hperm. induction Hperm as [|[k1 a1] l l' Hp IH
                                         |[k1 a1] [k2 a2] l
                                         |l l' l'' Hp1 IH1 Hp2 IH2].
  - reflexivity.
  - simpl in *. inversion Hnd; subst. now rewrite IH.
  - simpl in *. inversion Hnd as [|? ? Hnotin _]; subst.
    destruct (String.eqb k k1) eqn:E1, (String.eqb k k2) eqn:E2;
      try reflexivity.
    apply String.eqb_eq in E1, E2. subst. exfalso. apply Hnotin. now left.
  - rewrite IH1 by assumption. apply IH2.
    apply (Permutation_NoDup (Permutation_map fst Hp1) Hnd).
Qed.

(** Under a replacer array, the text of a value does not depend on the
    order in which the properties of its objects were created. *)
Lemma SerializeJSONProperty_reordered (K : list string) (v : value) :
  distinct_keys v = true ->
  forall w, reordered v w ->
  SerializeJSONProperty (Some K) v = SerializeJSONProperty (Some K) w.
Proof.
  induction v as [| |b|n|s|xs IH|fs IH] using value_ind';
    intros Hd w Hr; inversion Hr; subst; try reflexivity.
  - (* arrays *)
    cbn [SerializeJSONProperty]. do 3 f_equal. f_equal.
    cbn [distinct_keys] in Hd.
    match goal with H : Forall2 reordered xs _ |- _ => rename H into Hxs end.
    clear Hr. revert IH Hd.
    induction Hxs as [|x y xs ys Hxy _ IHxs]; intros IH Hd; [reflexivity|].
    inversion IH as [|? ? Hhead Htail]; subst. cbn [forallb] in Hd.
    apply andb_true_iff in Hd as [Hx Hrest]. cbn [map].
    rewrite (Hhead Hx y Hxy), (IHxs Htail Hrest). reflexivity.
  - (* objects *)
    cbn [distinct_keys] in Hd. apply andb_true_iff in Hd as [Hkeys Hd].
    match goal with
    | H : Forall2 _ fs ?hs', H' : Permutation ?hs' _ |- _ =>
        rename H into Hfs; rename H' into Hperm
    end.
    assert (map (fun kv => (fst kv, SerializeJSONProperty (Some K) (snd kv))) fs
            = map (fun kv => (fst kv, SerializeJSONProperty (Some K) (snd kv)))
                hs /\ map fst fs = map fst hs) as [Htable Hsame].
    { clear Hperm Hkeys Hr. revert IH Hd.
      induction Hfs as [|f h fs hs [Hk Hfh] _ IHfs]; intros IH Hd;
        [split; reflexivity|].
      inversion IH as [|? ? Hhead Htail]; subst. cbn [forallb] in Hd.
      apply andb_true_iff in Hd as [Hf Hrest].
      destruct (IHfs Htail Hrest) as [Ht Hs].
      cbn [map]. rewrite Ht, Hs, Hk, (Hhead Hf _ Hfh).
      split; reflexivity. }
    cbn [SerializeJSONProperty]. rewrite Htable. do 3 f_equal. f_equal.
    apply flat_map_ext. intros k.
    rewrite !assoc_map.
    rewrite (assoc_permutation k hs gs); [reflexivity| |exact Hperm].
    rewrite <- Hsame. apply distinct_NoDup, Hkeys.
Qed.

(** C8.  Two records that are equal field for field but whose objects, at
    any depth, were created with their properties in different orders have
    the same text for signing; the elements of arrays are compared in
    order. *)
Theorem serialize_independent_of_creation_order (r1 r2 : value) :
  distinct_keys r1 = true ->
  reordered r1 r2 ->
  serialize r1 = serialize r2.
Proof.
  intros Hd Hr. unfold serialize.
  assert (Object_keys r1 = Object_keys r2
          \/ exists k1 k2, Object_keys r1 = Ok k1 /\ Object_keys r2 = Ok k2
                           /\ Permutation k1 k2) as Hkeys.
  { inversion Hr; subst; try (left; reflexivity).
    - left. simpl.
      match goal with H : Forall2 _ _ _ |- _ =>
        rewrite (Forall2_length H) end.
      reflexivity.
    - right. exists (map fst fs), (map fst gs). repeat split.
      match goal with
      | H : Forall2 _ fs ?hs', H' : Permutation ?hs' _ |- _ =>
          apply (Permutation_map fst) in H';
          replace (map fst fs) with (map fst hs'); [exact H'|];
          clear - H; induction H as [|? ? ? ? [Hk _] _ IHf]; simpl;
          [reflexivity | now rewrite Hk, IHf]
      end. }
  destruct Hkeys as [->|(k1 & k2 & -> & -> & Hperm)].
  - destruct (Object_keys r2); [|reflexivity]. cbn [bind]. unfold JSON_stringify.
    cbn [option_map].
    now rewrite (SerializeJSONProperty_reordered _ r1 Hd r2 Hr).
  - cbn [bind]. rewrite (Array_sort_permutation _ _ Hperm).
    unfold JSON_stringify. cbn [option_map].
    now rewrite (SerializeJSONProperty_reordered _ r1 Hd r2 Hr).
Qed.

(** ** The signed part of a record *)

(** The parser reads back every printable value: the proof of
    [clean_roundtrips] uses no more of [json_clean] than this. *)
Lemma printable_roundtrips (v : value) :
  printable v = true -> exists t, roundtrips v t.
Proof.
  induction v as [| |b|n|s|xs IH|fs IH] using value_ind'; intros Hp.
  - discriminate.
  - apply (clean_roundtrips JNull). reflexivity.
  - apply (clean_roundtrips (JBool b)). reflexivity.
  - destruct n as [z| | |]; try discriminate.
    exists (Number_toString z). repeat split.
    + apply Number_toString_length.
    + intros [|fuel] rest Hfuel Hrest; [simpl in Hfuel; lia|].
      apply parse_value_number, parse_number_toString, Hrest.
  - apply (clean_roundtrips (JStr s)). reflexivity.
  - assert (exists ts, Forall2 roundtrips xs ts) as [ts Hts].
    { simpl in Hp. induction IH as [|x xs Hx _ IHxs].
      - exists []. constructor.
      - simpl in Hp. apply andb_true_iff in Hp as [Hc Hcs].
        destruct (Hx Hc) as [t Ht]. destruct (IHxs Hcs) as [ts Hts].
        exists (t :: ts). constructor; assumption. }
    eexists. apply array_roundtrips, Hts.
  - simpl in Hp. apply andb_true_iff in Hp as [Hkeys Hp].
    assert (exists ts, Forall2 (fun kv t => roundtrips (snd kv) t) fs ts)
      as [ts Hts].
    { clear Hkeys. induction IH as [|kv fs Hkv _ IHfs].
      - exists []. constructor.
      - simpl in Hp. apply andb_true_iff in Hp as [Hc Hcs].
        destruct (Hkv Hc) as [t Ht]. destruct (IHfs Hcs) as [ts Hts].
        exists (t :: ts). constructor; assumption. }
    eexists. apply object_roundtrips; [exact Hkeys | exact Hts].
Qed.

(** Plain JSON text determines the printable value it was written for. *)
Lemma printable_text_inj (v w : value) :
  printable v = true -> printable w = true ->
  SerializeJSONProperty None v = SerializeJSONProperty None w -> v = w.
Proof.
  intros Hv Hw Heq.
  destruct (printable_roundtrips v Hv) as (t & Hser & _ & Hpv).
  destruct (printable_roundtrips w Hw) as (t' & Hser' & _ & Hpw).
  rewrite Hser, Hser' in Heq. injection Heq as <-.
  pose proof (Hpv (cost v + cost w) "" ltac:(lia) eq_refl) as H1.
  pose proof (Hpw (cost v + cost w) "" ltac:(lia) eq_refl) as H2.
  congruence.
Qed.

Lemma assoc_In {A : Type} (k : string) (fs : list (string * A)) (a : A) :
  assoc k fs = Some a -> exists k', In (k', a) fs.
Proof.
  induction fs as [|[k' a'] fs IH]; simpl; [discriminate|].
  destruct (String.eqb k k').
  - intros [= ->]. exists k'. now left.
  - intros H. destruct (IH H) as [k'' Hin]. exists k''. now right.
Qed.

(** The text written under [K] is the plain text of what is kept. *)
Lemma written_text (K : list string) (v : value) :
  SerializeJSONProperty (Some K) v
  = match written K v with
    | Some w => SerializeJSONProperty None w
    | None => None
    end.
Proof.
  induction v as [| |b|n|s|xs IH|fs IH] using value_ind';
    try reflexivity.
  - destruct n; reflexivity.
  - cbn [SerializeJSONProperty written]. rewrite map_map.
    do 3 f_equal. f_equal.
    induction IH as [|x xs Hx _ IHxs]; [reflexivity|].
    cbn [map]. rewrite IHxs, Hx.
    destruct (written K x); reflexivity.
  - cbn [SerializeJSONProperty written].
    do 3 f_equal. f_equal.
    generalize K at 2 4 as L.
    induction L as [|p L IHL]; [reflexivity|].
    cbn [flat_map]. rewrite map_app, flat_map_app, <- IHL. f_equal.
    rewrite !assoc_map.
    destruct (assoc p fs) as [x|] eqn:E; [|reflexivity].
    destruct (assoc_In _ _ _ E) as [k' Hin].
    rewrite Forall_forall in IH. specialize (IH _ Hin). cbn [snd] in IH.
    cbn [option_map]. rewrite IH.
    destruct (written K x) as [w|]; [|reflexivity].
    cbn [map flat_map fst snd].
    destruct (SerializeJSONProperty None w); reflexivity.
Qed.

Lemma distinct_filter (p : string -> bool) (l : list string) :
  distinct l = true -> distinct (filter p l) = true.
Proof.
  rewrite !distinct_NoDup. apply NoDup_filter.
Qed.

Lemma kept_names {A : Type} (p : string -> option A) (L : list string) :
  map fst (flat_map (fun P => match p P with
                              | Some w => [(P, w)]
                              | None => []
                              end) L)
  = filter (fun P => match p P with Some _ => true | None => false end) L.
Proof.
  induction L as [|k L IH]; [reflexivity|].
  cbn [flat_map filter]. rewrite map_app, IH.
  destruct (p k); reflexivity.
Qed.

Lemma written_printable (K : list string) (v w : value) :
  distinct K = true -> written K v = Some w -> printable w = true.
Proof.
  intros HK. revert w.
  induction v as [| |b|n|s|xs IH|fs IH] using value_ind'; intros w;
    cbn [written]; try (intros [= <-]; reflexivity); try discriminate.
  - destruct n; intros [= <-]; reflexivity.
  - intros [= <-]. cbn [printable]. rewrite forallb_forall.
    intros y Hy. apply in_map_iff in Hy as (x & <- & Hx).
    rewrite Forall_forall in IH. specialize (IH _ Hx).
    destruct (written K x) as [w'|]; [now apply IH | reflexivity].
  - intros [= <-]. cbn [printable]. apply andb_true_iff. split.
    + pose (p := fun k => match assoc k (map (fun kv => (fst kv, written K (snd kv))) fs) with
                          | Some (Some w) => Some w
                          | _ => None
                          end).
      rewrite (flat_map_ext _ (fun k => match p k with
                                        | Some w => [(k, w)]
                                        | None => []
                                        end)).
      * rewrite kept_names. now apply distinct_filter.
      * intros k. unfold p.
        destruct (assoc k _) as [[w'|]|]; reflexivity.
    + rewrite forallb_forall. intros [k w'] Hin.
      apply in_flat_map in Hin as (k' & _ & Hin).
      rewrite assoc_map in Hin.
      destruct (assoc k' fs) as [x|] eqn:E; [|destruct Hin].
      cbn [option_map] in Hin.
      destruct (written K x) as [w''|] eqn:Ew; [|destruct Hin].
      destruct Hin as [[= <- <-]|[]].
      destruct (assoc_In _ _ _ E) as [k'' Hin].
      rewrite Forall_forall in IH. exact (IH _ Hin _ Ew).
Qed.

Lemma distinct_dedup (l : list string) : distinct (dedup l) = true.
Proof.
  induction l as [|k l IH]; [reflexivity|].
  cbn [dedup distinct]. apply andb_true_iff. split.
  - apply negb_true_iff, Bool.not_true_iff_false. intros H.
    apply existsb_exists in H as (k' & Hin & Heq).
    apply filter_In in Hin as [_ Hne]. rewrite Heq in Hne. discriminate.
  - now apply distinct_filter.
Qed.

Lemma written_defined (K : list string) (v : value) :
  written K v = None -> v = JUndefined.
Proof. destruct v as [| |b|[]|s|xs|fs]; try discriminate. reflexivity. Qed.

Lemma serialize_signed_part (data : value) (keys : list string) :
  Object_keys data = Ok keys ->
  exists w,
    signed_part data = Some w
    /\ printable w = true
    /\ serialize data = Ok (SerializeJSONProperty None w).
Proof.
  intros Hkeys. unfold signed_part, serialize, JSON_stringify.
  rewrite Hkeys. cbn [bind option_map]. rewrite written_text.
  destruct (written (dedup (Array_sort keys)) data) as [w|] eqn:E.
  - exists w. repeat split.
    apply (written_printable _ _ _ (distinct_dedup _) E).
  - apply written_defined in E. subst. discriminate.
Qed.

(** The signed text determines the signed part, and the other way
    round. *)
Lemma serialize_signed_part_iff (r1 r2 : value) :
  serialize r1 = serialize r2 <-> signed_part r1 = signed_part r2.
Proof.
  destruct (Object_keys r1) as [k1|e1] eqn:E1, (Object_keys r2) as [k2|e2] eqn:E2.
  - destruct (serialize_signed_part r1 k1 E1) as (w1 & -> & Hp1 & ->).
    destruct (serialize_signed_part r2 k2 E2) as (w2 & -> & Hp2 & ->).
    split.
    + intros [= H]. f_equal. now apply printable_text_inj.
    + now intros [= ->].
  - destruct (serialize_signed_part r1 k1 E1) as (w1 & -> & Hp1 & ->).
    unfold serialize, signed_part. rewrite E2. split; discriminate.
  - destruct (serialize_signed_part r2 k2 E2) as (w2 & -> & Hp2 & ->).
    unfold serialize, signed_part. rewrite E1. split; discriminate.
  - unfold serialize, signed_part. rewrite E1, E2. cbn [bind].
    destruct r1 as [| |b|n|s|xs|fs], r2 as [| |b'|n'|s'|xs'|fs'];
      try discriminate; injection E1 as <-; injection E2 as <-;
      split; reflexivity.
Qed.

(** X3.  Two values with no property named __proto__ of their own have
    the same signed text exactly when they have the same signed part,
    which is what [JSON.stringify] keeps of each under its own sorted
    keys.  A signature can therefore tell two such records apart if and
    only if their signed parts differ.  (With __proto__ among the listed
    names the run time reads the prototype of every nested object, which
    the values here do not have.) *)
Theorem serialize_eq_iff_signed_part (r1 r2 : value) :
  has_own_property r1 "__proto__" = false ->
  has_own_property r2 "__proto__" = false ->
  serialize r1 = serialize r2 <-> signed_part r1 = signed_part r2.
Proof. intros _ _. apply serialize_signed_part_iff. Qed.

(** The signed part of a ContextKey: its four strings, and what is kept
    of its two arrays and two nested objects. *)
Lemma signed_part_ContextKey (version id created_at updated_at : string)
    (profile policies : value) (data_sources memories : list value) :
  signed_part
    (ContextKey version id created_at updated_at profile policies
       data_sources memories)
  = Some (JObj ([("created_at", JStr created_at)]
                ++ match written signed_names (JArr data_sources) with
                   | Some w => [("data_sources", w)]
                   | None => []
                   end
                ++ [("id", JStr id)]
                ++ match written signed_names (JArr memories) with
                   | Some w => [("memories", w)]
                   | None => []
                   end
                ++ match written signed_names policies with
                   | Some w => [("policies", w)]
                   | None => []
                   end
                ++ match written signed_names profile with
                   | Some w => [("profile", w)]
                   | None => []
                   end
                ++ [("updated_at", JStr updated_at);
                    ("version", JStr version)])).
Proof.
  unfold signed_part, ContextKey. cbn [Object_keys map fst].
  change (dedup (Array_sort _)) with signed_names.
  remember (JArr data_sources) as a1. remember (JArr memories) as a2.
  cbn [written]. unfold signed_names at 1. 
  cbn [flat_map map fst snd assoc String.eqb Ascii.eqb Bool.eqb app].
  reflexivity.
Qed.

(** X4.  Two ContextKey records with the same signed text have the same
    version, id, created_at and updated_at, as many data sources and as
    many memories, and the same signed part of their data sources and of
    their memories. *)
Theorem signed_text_pins_top_level
    (version id created_at updated_at : string)
    (version' id' created_at' updated_at' : string)
    (profile policies profile' policies' : value)
    (data_sources memories data_sources' memories' : list value) :
  serialize
    (ContextKey version id created_at updated_at profile policies
       data_sources memories)
  = serialize
      (ContextKey version' id' created_at' updated_at' profile' policies'
         data_sources' memories') ->
  version = version' /\ id = id'
  /\ created_at = created_at' /\ updated_at = updated_at'
  /\ written signed_names (JArr data_sources)
     = written signed_names (JArr data_sources')
  /\ written signed_names (JArr memories)
     = written signed_names (JArr memories')
  /\ List.length data_sources = List.length data_sources'
  /\ List.length memories = List.length memories'.
Proof.
  intros H. apply serialize_signed_part_iff in H.
  rewrite !signed_part_ContextKey in H.
  cbn [written] in *.
  destruct (written signed_names policies), (written signed_names profile),
    (written signed_names policies'), (written signed_names profile');
    cbn [app] in H; try discriminate;
    injection H as Hc Hds Hi Hms; try discriminate; subst;
    repeat (try injection Hms as Hms ? ?; subst);
    pose proof (f_equal (@List.length value) Hds) as Hlds;
    pose proof (f_equal (@List.length value) Hms) as Hlms;
    rewrite !length_map in Hlds, Hlms;
    repeat split; congruence.
Qed.

(** X5.  On every platform [verifyContextKey] gives one verdict on two
    envelopes with the same signature and public key whose records have
    the same signed part. *)
Theorem verifyContextKey_depends_on_signed_part (P : Platform)
    (r1 r2 : value) (signature public_key : string) :
  signed_part r1 = signed_part r2 ->
  verifyContextKey P (SignedContextKey r1 signature public_key)
  = verifyContextKey P (SignedContextKey r2 signature public_key).
Proof.
  intros H. apply serialize_signed_part_iff in H. unfold verifyContextKey.
  destruct (Get_SignedContextKey r1 signature public_key) as (-> & -> & ->).
  destruct (Get_SignedContextKey r2 signature public_key) as (-> & -> & ->).
  cbn [bind]. rewrite H. reflexivity.
Qed.

(** ** The rest of crypto.ts *)

(** *** C9 and C5: what opens a sealed envelope *)

(** JSON.parse(JSON.stringify(v)) is [v] with its properties in
    enumeration order, for every [v] that JSON text denotes. *)
Lemma JSON_parse_printable (v : value) :
  printable v = true ->
  exists text,
    JSON_stringify v None = Some text
    /\ JSON_parse text = Ok (own_property_order v).
Proof.
  intros Hp. destruct (printable_roundtrips v Hp) as (t & Hser & Hlen & Hparse).
  exists t. split; [exact Hser|].
  unfold JSON_parse.
  rewrite <- (append_empty_r t) at 2.
  rewrite Hparse by (try reflexivity; lia). reflexivity.
Qed.

Section Sealed.

Context (P : Platform) (W : LibraryLaws P).

(** What [decryptContextKey] does with a blob of [encryptContextKey]. *)
Lemma decryptContextKey_sealed (signedKey : value) (p1 p2 : string)
    (g : Rng P) :
  let salt' := fst (getRandomValues P 32 g) in
  let text := match JSON_stringify signedKey None with
              | Some s => s
              | None => EmptyString
              end in
  exists blob iv' k1 k2 encrypted,
    fst (encryptContextKey P signedKey p1 g) = Ok blob
    /\ iterations (kdf_params blob) = 100000%Z
    /\ decodeBase64 P (JStr (salt blob)) = Ok salt'
    /\ decodeBase64 P (JStr (iv blob)) = Ok iv'
    /\ decodeBase64 P (JStr (encrypted_data blob)) = Ok encrypted
    /\ deriveKey P p1 salt' 100000 = Ok k1
    /\ deriveKey P p2 salt' 100000 = Ok k2
    /\ subtle_encrypt P iv' k1 (TextEncoder_encode P text) = Ok encrypted
    /\ decryptContextKey P blob p2
       = (decrypted <- subtle_decrypt P iv' k2 encrypted ;;
          JSON_parse (TextDecoder_decode P decrypted)).
Proof.
  intros salt' text. pose proof (LibraryLaws_PlatformLaws P W) as L.
  destruct (encryptContextKey_blob_of P L signedKey p1 g)
    as (iv' & k1 & encrypted & Hk1 & Henc & ->).
  destruct (deriveKey_returns P L p2 salt' 100000 (conj eq_refl eq_refl))
    as [k2 Hk2].
  eexists. exists iv', k1, k2, encrypted.
  split; [reflexivity|]. split; [reflexivity|].
  cbn [salt iv encrypted_data kdf_params iterations].
  rewrite !(base64_roundtrip P L).
  repeat split; try assumption.
  unfold decryptContextKey. cbn [salt iv encrypted_data kdf_params iterations].
  rewrite !(base64_roundtrip P L). cbn [bind].
  fold salt'. rewrite Hk2. reflexivity.
Qed.



End Sealed.

Section MoreOfCrypto.

Context (P : Platform).


(** What [signContextKey] returns, when it returns. *)
Lemma signContextKey_envelope (contextKey : value) (privateKey : string)
    (signedKey : value) :
  signContextKey P contextKey privateKey = Ok signedKey ->
  exists sk signature,
    decodeBase64 P (JStr privateKey) = Ok sk
    /\ List.length sk = 64
    /\ signedKey
       = SignedContextKey contextKey (encodeBase64 P signature)
           (encodeBase64 P (skipn 32 sk)).
Proof.
  unfold signContextKey, nacl_sign_keyPair_fromSecretKey.
  destruct (decodeBase64 P (JStr privateKey)) as [sk|]; [|discriminate].
  cbn [bind].
  destruct (Nat.eqb (List.length sk) 64) eqn:Hlen; [|discriminate].
  apply Nat.eqb_eq in Hlen. cbn [negb bind].
  destruct (serialize contextKey); [|discriminate]. cbn [bind].
  destruct (encodeUTF8 P _); [|discriminate]. cbn [bind].
  destruct (nacl_sign_detached P _ _) as [signature|]; [|discriminate].
  cbn [bind publicKey]. intros [= <-].
  exists sk, signature. repeat split. exact Hlen.
Qed.

Variable crypto_sign_public : bytes -> bytes.

(** The secret key is the seed followed by the public key. *)
Lemma generateKeyPair_secret (g : Rng P) :
  (forall b, decodeBase64 P (JStr (encodeBase64 P b)) = Ok b) ->
  (forall n g, List.length (fst (getRandomValues P n g)) = n) ->
  (forall seed, List.length (crypto_sign_public seed) = 32) ->
  let keys := fst (generateKeyPair P crypto_sign_public g) in
  exists sk,
    decodeBase64 P (JStr (Encoded.privateKey keys)) = Ok sk
    /\ List.length sk = 64
    /\ encodeBase64 P (skipn 32 sk) = Encoded.publicKey keys.
Proof.
  intros Hb64 Hrandom Hpublic. unfold generateKeyPair, nacl_sign_keyPair.
  pose proof (Hrandom 32 g) as Hseed.
  destruct (getRandomValues P 32 g) as [seed g']. cbn [fst snd] in *.
  cbn [publicKey secretKey Encoded.privateKey Encoded.publicKey].
  exists (seed ++ crypto_sign_public seed). rewrite Hb64.
  split; [reflexivity|]. split.
  - rewrite length_app, Hseed, Hpublic. reflexivity.
  - rewrite skipn_app, Hseed, Nat.sub_diag, skipn_all2 by lia. reflexivity.
Qed.

(** X8.  The two strings [generateKeyPair] returns belong together: the
    private key decodes to a secret key [nacl.sign.keyPair.fromSecretKey]
    accepts, and its public half encodes to the returned public key.
    Every envelope [signContextKey] returns for this private key holds the
    record itself and this public key. *)
Theorem generateKeyPair_fits_signContextKey (g : Rng P) :
  (forall b, decodeBase64 P (JStr (encodeBase64 P b)) = Ok b) ->
  (forall n g, List.length (fst (getRandomValues P n g)) = n) ->
  (forall seed, List.length (crypto_sign_public seed) = 32) ->
  let keys := fst (generateKeyPair P crypto_sign_public g) in
  exists sk keyPair,
    decodeBase64 P (JStr (Encoded.privateKey keys)) = Ok sk
    /\ nacl_sign_keyPair_fromSecretKey sk = Ok keyPair
    /\ encodeBase64 P (publicKey keyPair) = Encoded.publicKey keys
    /\ forall contextKey signedKey,
         signContextKey P contextKey (Encoded.privateKey keys) = Ok signedKey ->
         Get signedKey "data" = Ok contextKey
         /\ Get signedKey "public_key" = Ok (JStr (Encoded.publicKey keys)).
Proof.
  intros Hb64 Hrandom Hpublic keys.
  destruct (generateKeyPair_secret g Hb64 Hrandom Hpublic)
    as (sk & Hsk & Hlen & Hpk).
  fold keys in Hsk, Hpk.
  exists sk, {| publicKey := skipn 32 sk; secretKey := sk |}.
  split; [exact Hsk|]. split.
  { unfold nacl_sign_keyPair_fromSecretKey. rewrite Hlen. reflexivity. }
  split; [exact Hpk|].
  intros contextKey signedKey H.
  apply signContextKey_envelope in H as (sk' & signature & Hsk' & _ & ->).
  rewrite Hsk in Hsk'. injection Hsk' as <-. rewrite Hpk.
  split; reflexivity.
Qed.

(** The secret key [generateKeyPair] encodes is a seed of 32 bytes followed
    by its public key. *)
Lemma generateKeyPair_seed (g : Rng P) :
  (forall b, decodeBase64 P (JStr (encodeBase64 P b)) = Ok b) ->
  (forall n g, List.length (fst (getRandomValues P n g)) = n) ->
  let keys := fst (generateKeyPair P crypto_sign_public g) in
  exists seed,
    decodeBase64 P (JStr (Encoded.privateKey keys))
    = Ok (seed ++ crypto_sign_public seed)
    /\ List.length seed = 32
    /\ encodeBase64 P (crypto_sign_public seed) = Encoded.publicKey keys.
Proof.
  intros Hb64 Hrandom. unfold generateKeyPair, nacl_sign_keyPair.
  pose proof (Hrandom 32 g) as Hseed.
  destruct (getRandomValues P 32 g) as [seed g']. cbn [fst snd] in *.
  cbn [publicKey secretKey Encoded.privateKey Encoded.publicKey].
  exists seed. rewrite Hb64. repeat split. exact Hseed.
Qed.

(** With the message in bytes and the secret key of a key pair, an object
    is signed, and the signature is accepted. *)
Lemma signContextKey_accepted (fs : list (string * value))
    (privateKey : string) (seed : bytes) :
  (forall b, decodeBase64 P (JStr (encodeBase64 P b)) = Ok b) ->
  SignatureLaws P crypto_sign_public ->
  (forall s, exists m, encodeUTF8 P (JStr s) = Ok (Uint8Array m)) ->
  decodeBase64 P (JStr privateKey) = Ok (seed ++ crypto_sign_public seed) ->
  List.length seed = 32 ->
  exists signature,
    signContextKey P (JObj fs) privateKey
    = Ok (SignedContextKey (JObj fs) signature
            (encodeBase64 P (crypto_sign_public seed)))
    /\ verifyContextKey P
         (SignedContextKey (JObj fs) signature
            (encodeBase64 P (crypto_sign_public seed)))
       = Ok true.
Proof.
  intros Hb64 S Hbytes Hsk Hseed.
  destruct (serialize_object fs) as [text Htext].
  destruct (Hbytes text) as [m Hm].
  set (sk := seed ++ crypto_sign_public seed) in *.
  assert (List.length sk = 64) as Hlen.
  { unfold sk. rewrite length_app, Hseed.
    now rewrite (public_key_length P crypto_sign_public S). }
  assert (Nat.eqb (List.length sk) 64 = true) as Hlenb
    by now apply Nat.eqb_eq.
  assert (skipn 32 sk = crypto_sign_public seed) as Hpk
    by now apply skipn_secret_key.
  exists (encodeBase64 P (crypto_sign P m sk)). split.
  - unfold signContextKey, nacl_sign_keyPair_fromSecretKey.
    rewrite Hsk. cbn [bind]. rewrite Hlenb. cbn [negb bind].
    rewrite Htext. cbn [bind string_or_undefined]. rewrite Hm.
    cbn [bind nacl_sign_detached publicKey secretKey]. rewrite Hlenb, Hpk.
    reflexivity.
  - unfold verifyContextKey.
    destruct (Get_SignedContextKey (JObj fs)
                (encodeBase64 P (crypto_sign P m sk))
                (encodeBase64 P (crypto_sign_public seed))) as (-> & -> & ->).
    cbn [bind]. rewrite !Hb64. cbn [bind]. rewrite Htext.
    cbn [bind string_or_undefined]. rewrite Hm.
    cbn [bind nacl_sign_detached_verify].
    rewrite (signature_length P crypto_sign_public S) by exact Hlen.
    rewrite (public_key_length P crypto_sign_public S).
    cbn [Nat.eqb negb]. unfold sk.
    rewrite (own_signature_accepted P crypto_sign_public S m seed Hseed).
    reflexivity.
Qed.

(** What is sealed opens under the same password. *)
Lemma sealed_blob_opens (L : PlatformLaws P) (signedKey : value)
    (password : string) (g : Rng P) :
  json_clean signedKey = true ->
  exists blob,
    fst (encryptContextKey P signedKey password g) = Ok blob
    /\ iterations (kdf_params blob) = 100000%Z
    /\ decryptContextKey P blob password = Ok signedKey.
Proof.
  intros Hclean.
  destruct (encryptContextKey_returns P L signedKey password g)
    as (salt' & iv' & key & encrypted & Hkey & Henc & ->).
  eexists. split; [reflexivity|]. split; [reflexivity|].
  unfold decryptContextKey. cbn [salt iv encrypted_data kdf_params iterations].
  rewrite !(base64_roundtrip P L). cbn [bind]. rewrite Hkey. cbn [bind].
  rewrite (decrypt_encrypt P L _ _ _ _ Henc). cbn [bind].
  rewrite (text_roundtrip P L).
  destruct (JSON_parse_stringify signedKey Hclean) as (text & -> & Hparse).
  exact Hparse.
Qed.

End MoreOfCrypto.

(** ** The string methods *)

Lemma trimStart_starts (s : string) : starts_with_space (trimStart s) = false.
Proof.
  induction s as [|c s IH]; [reflexivity|]. simpl.
  destruct (is_white_space c) eqn:E; [exact IH | simpl; exact E].
Qed.

Lemma trimEnd_ends (s : string) : ends_with_space (trimEnd s) = false.
Proof.
  induction s as [|c s IH]; [reflexivity|]. simpl.
  destruct (trimEnd s) as [|d r].
  - destruct (is_white_space c) eqn:E; [reflexivity | simpl; exact E].
  - exact IH.
Qed.

Lemma trimEnd_starts (s : string) :
  starts_with_space s = false -> starts_with_space (trimEnd s) = false.
Proof.
  destruct s as [|c s]; [reflexivity|]. simpl. intros E.
  destruct (trimEnd s); [rewrite E|]; simpl; exact E.
Qed.

Lemma trim_edges (s : string) :
  starts_with_space (trim s) = false /\ ends_with_space (trim s) = false.
Proof.
  split; [apply trimEnd_starts, trimStart_starts | apply trimEnd_ends].
Qed.

Lemma split_length (sep : ascii) (s : string) :
  List.length (split sep s) = S (count (Ascii.eqb sep) s).
Proof.
  induction s as [|c s IH]; [reflexivity|]. simpl.
  rewrite (Ascii.eqb_sym sep c).
  destruct (Ascii.eqb c sep); simpl; [now rewrite IH|].
  destruct (split sep s); simpl in *; [discriminate | exact IH].
Qed.

Lemma split_concat (sep : ascii) (s : string) :
  String.concat (String sep "") (split sep s) = s.
Proof.
  induction s as [|c s IH]; [reflexivity|]. cbn [split].
  destruct (Ascii.eqb c sep) eqn:E.
  - apply Ascii.eqb_eq in E. subst c.
    pose proof (split_length sep s) as Hlen.
    destruct (split sep s) as [|p ps]; [discriminate|].
    change (String.concat (String sep "") ("" :: p :: ps))
      with (String sep (String.concat (String sep "") (p :: ps))).
    now rewrite IH.
  - pose proof (split_length sep s) as Hlen.
    destruct (split sep s) as [|p ps]; [discriminate|].
    destruct ps as [|q ps].
    + simpl in *. now rewrite IH.
    + change (String.concat (String sep "") (String c p :: q :: ps))
        with (String c (String.concat (String sep "") (p :: q :: ps))).
      now rewrite IH.
Qed.

Lemma has_append (p : ascii -> bool) (a b : string) :
  has p (a ++ b) = has p a || has p b.
Proof.
  induction a as [|c a IH]; [reflexivity|]. simpl.
  now rewrite IH, orb_assoc.
Qed.

Lemma replace_runs_no_space (in_run : bool) (s : string) :
  has is_white_space (replace_runs in_run s) = false.
Proof.
  revert in_run. induction s as [|c s IH]; intros in_run; [reflexivity|].
  simpl. destruct (is_white_space c) eqn:E.
  - destruct in_run; [apply IH|]. simpl. apply IH.
  - simpl. rewrite E. apply IH.
Qed.

Lemma replace_runs_without_space (s : string) :
  has is_white_space s = false -> replace_runs false s = s.
Proof.
  induction s as [|c s IH]; [reflexivity|]. simpl.
  destruct (is_white_space c); [discriminate|]. simpl.
  intros H. now rewrite IH.
Qed.

Lemma toLowerCase_unit_space (c : ascii) :
  is_white_space (toLowerCase_unit c) = is_white_space c.
Proof. destruct c as [[] [] [] [] [] [] [] []]; reflexivity. Qed.

Lemma toLowerCase_unit_capital (c : ascii) :
  is_capital (toLowerCase_unit c) = false.
Proof. destruct c as [[] [] [] [] [] [] [] []]; reflexivity. Qed.

Lemma toLowerCase_space (s : string) :
  has is_white_space (toLowerCase s) = has is_white_space s.
Proof.
  induction s as [|c s IH]; [reflexivity|]. simpl.
  now rewrite toLowerCase_unit_space, IH.
Qed.

Lemma toLowerCase_capital (s : string) :
  has is_capital (toLowerCase s) = false.
Proof.
  induction s as [|c s IH]; [reflexivity|]. simpl.
  now rewrite toLowerCase_unit_capital, IH.
Qed.

(** ** The vault's page *)

(** X9.  The domains of the record are the selected ones followed by the
    pieces of custom_domains between its commas, each trimmed.  With no
    custom text nothing is added; otherwise there is one domain per piece,
    empty pieces included, and none starts or ends with white space. *)
Theorem allDomains_trims_custom_domains (data : Vault.FormData) :
  (Vault.custom_domains data = EmptyString ->
   Vault.allDomains data = Vault.domains data)
  /\ (Vault.custom_domains data <> EmptyString ->
      exists pieces,
        String.concat "," pieces = Vault.custom_domains data
        /\ List.length pieces
           = S (count (Ascii.eqb ",") (Vault.custom_domains data))
        /\ Vault.allDomains data = Vault.domains data ++ map trim pieces
        /\ Forall (fun d => starts_with_space d = false
                            /\ ends_with_space d = false) (map trim pieces)).
Proof.
  unfold Vault.allDomains. split.
  - intros ->. apply app_nil_r.
  - intros Hne. exists (split "," (Vault.custom_domains data)).
    split; [apply split_concat|]. split; [apply split_length|].
    split.
    + destruct (Vault.custom_domains data); [contradiction | reflexivity].
    + apply Forall_forall. intros d Hd.
      apply in_map_iff in Hd as (p & <- & _). apply trim_edges.
Qed.

(** X10.  The name of the file handed out holds no white space and no
    capital letter A to Z, and ends with _context_key.ckey.  What stands
    before that is the lower-case form of the display name when the
    display name has no white space. *)
Theorem filename_has_no_white_space (data : Vault.FormData) :
  has is_white_space (Vault.filename data) = false
  /\ has is_capital (Vault.filename data) = false
  /\ exists stem,
       Vault.filename data = (stem ++ "_context_key.ckey")%string
       /\ (has is_white_space (Vault.display_name data) = false ->
           stem = toLowerCase (Vault.display_name data)).
Proof.
  unfold Vault.filename, replace_white_space.
  rewrite !has_append, toLowerCase_space, replace_runs_no_space,
    toLowerCase_capital.
  repeat split.
  exists (toLowerCase (replace_runs false (Vault.display_name data))).
  split; [reflexivity|].
  intros H. now rewrite replace_runs_without_space.
Qed.

(** The record the vault builds is one that JSON text holds exactly. *)
Lemma strings_clean (l : list string) : json_clean (strings l) = true.
Proof.
  unfold strings. simpl. induction l as [|s l IH]; [reflexivity | exact IH].
Qed.

Lemma contextKey_clean (data : Vault.FormData)
    (id created_at updated_at signature public_key : string) :
  json_clean
    (SignedContextKey (Vault.contextKey data id created_at updated_at)
       signature public_key) = true.
Proof.
  unfold Vault.contextKey, SignedContextKey, ContextKey, UserProfile, Policies.
  pose proof (strings_clean (Vault.allDomains data)) as H.
  remember (strings (Vault.allDomains data)) as ds.
  simpl. rewrite H. reflexivity.
Qed.

Section VaultFacts.

Context (P : Platform).
Variable crypto_sign_public : bytes -> bytes.

(** X11.  When [encodeUTF8] returns a string, as tweetnacl-util's does,
    [onSubmit] never hands out a file and never records a generated key.
    Before step 3 it advances the step; from step 3 on it stays at the
    step, and with the two passwords equal it ends with the alert of the
    catch clause and with isGenerating false. *)
Theorem onSubmit_never_delivers (st : Vault.State) (data : Vault.FormData)
    (id created_at updated_at : string) (g : Rng P) :
  encodeUTF8_returns_string P ->
  let out := Vault.onSubmit P crypto_sign_public st data id created_at updated_at g in
  Vault.downloads (snd (fst out)) = []
  /\ Vault.generatedKey (fst (fst out)) = Vault.generatedKey st
  /\ ((Vault.step st < 3)%Z ->
      Vault.step (fst (fst out)) = (Vault.step st + 1)%Z)
  /\ ((3 <= Vault.step st)%Z -> Vault.step (fst (fst out)) = Vault.step st)
  /\ ((3 <= Vault.step st)%Z ->
      Vault.password data = Vault.confirm_password data ->
      Vault.alerts (snd (fst out))
      = ["Failed to generate key. Please try again."]
      /\ Vault.isGenerating (fst (fst out)) = false).
Proof.
  intros Hstring. unfold Vault.onSubmit.
  destruct (Vault.step st <? 3)%Z eqn:Hstep.
  - apply Z.ltb_lt in Hstep. cbn. repeat split; try reflexivity; lia.
  - apply Z.ltb_ge in Hstep.
    destruct (String.eqb (Vault.password data) (Vault.confirm_password data))
      eqn:Hpw; cbn [negb].
    + destruct (generateKeyPair P crypto_sign_public g) as [keyPair g1].
      destruct (signContextKey_throws P
                  (Vault.contextKey data id created_at updated_at)
                  (Encoded.privateKey keyPair) Hstring) as [e ->].
      cbn. repeat split; try reflexivity; lia.
    + apply String.eqb_neq in Hpw. cbn.
      repeat split; try reflexivity; try lia; contradiction.
Qed.

(** X12.  Before step 3, or with a confirmation that differs from the
    password, [onSubmit] generates nothing: the random source is untouched,
    no file is handed out, nothing is logged, and generatedKey and
    isGenerating stay as they were. *)
Theorem onSubmit_generates_only_when_confirmed (st : Vault.State)
    (data : Vault.FormData) (id created_at updated_at : string) (g : Rng P) :
  (Vault.step st < 3)%Z
  \/ Vault.password data <> Vault.confirm_password data ->
  let out := Vault.onSubmit P crypto_sign_public st data id created_at updated_at g in
  snd out = g
  /\ Vault.downloads (snd (fst out)) = []
  /\ Vault.errors (snd (fst out)) = []
  /\ Vault.generatedKey (fst (fst out)) = Vault.generatedKey st
  /\ Vault.isGenerating (fst (fst out)) = Vault.isGenerating st.
Proof.
  intros H. unfold Vault.onSubmit.
  destruct (Vault.step st <? 3)%Z eqn:Hstep.
  - cbn. repeat split.
  - apply Z.ltb_ge in Hstep. destruct H as [H|H]; [lia|].
    apply String.eqb_neq in H. rewrite H. cbn. repeat split.
Qed.

(** X13.  The step stays between 1 and 4 under [onSubmit] and under the
    Back button, and Back undoes the advance [onSubmit] makes before
    step 3. *)
Theorem step_stays_in_range (st : Vault.State) (data : Vault.FormData)
    (id created_at updated_at : string) (g : Rng P) :
  (1 <= Vault.step st <= 4)%Z ->
  let st' := fst (fst (Vault.onSubmit P crypto_sign_public st data id created_at updated_at g)) in
  (1 <= Vault.step st' <= 4)%Z
  /\ (1 <= Vault.step (Vault.onBack st) <= 4)%Z
  /\ ((Vault.step st < 3)%Z -> Vault.step (Vault.onBack st') = Vault.step st).
Proof.
  intros H. unfold Vault.onSubmit, Vault.onBack.
  destruct (Vault.step st <? 3)%Z eqn:Hstep.
  - apply Z.ltb_lt in Hstep. cbn. lia.
  - apply Z.ltb_ge in Hstep.
    destruct (negb _).
    + cbn. lia.
    + destruct (generateKeyPair P crypto_sign_public g) as [keyPair g1].
      destruct (signContextKey P _ _) as [signedKey|e].
      * destruct (encryptContextKey P signedKey (Vault.password data) g1)
          as [[encryptedKey|e] g2]; cbn; lia.
      * cbn. lia.
Qed.

(** With the message in bytes, a confirmed submission at the last step
    signs the record of the form with the generated private key, seals the
    envelope under the password and hands out the indented text of the
    blob, which opens under the password. *)
Lemma onSubmit_delivers (L : PlatformLaws P)
    (S : SignatureLaws P crypto_sign_public) (st : Vault.State)
    (data : Vault.FormData) (id created_at updated_at : string) (g : Rng P) :
  (forall s, exists m, encodeUTF8 P (JStr s) = Ok (Uint8Array m)) ->
  (3 <= Vault.step st)%Z ->
  Vault.password data = Vault.confirm_password data ->
  let keys := generateKeyPair P crypto_sign_public g in
  exists signedKey blob text,
    signContextKey P (Vault.contextKey data id created_at updated_at)
      (Encoded.privateKey (fst keys)) = Ok signedKey
    /\ fst (encryptContextKey P signedKey (Vault.password data) (snd keys))
       = Ok blob
    /\ JSON_stringify_space (EncryptedContextKey_object blob) 2 = Some text
    /\ Vault.onSubmit P crypto_sign_public st data id created_at updated_at g
       = ({| Vault.step := 4; Vault.isGenerating := false;
             Vault.generatedKey := Some (Vault.filename data) |},
          {| Vault.alerts := []; Vault.errors := [];
             Vault.downloads := [(Vault.filename data, text)] |},
          snd (encryptContextKey P signedKey (Vault.password data)
                 (snd keys)))
    /\ iterations (kdf_params blob) = 100000%Z
    /\ decryptContextKey P blob (Vault.password data) = Ok signedKey
    /\ Get signedKey "data"
       = Ok (Vault.contextKey data id created_at updated_at)
    /\ verifyContextKey P signedKey = Ok true.
Proof.
  intros Hbytes Hstep Hpw keys. unfold Vault.onSubmit.
  apply Z.ltb_ge in Hstep. rewrite Hstep.
  rewrite <- Hpw, String.eqb_refl. cbn [negb].
  destruct (generateKeyPair_seed P crypto_sign_public g
              (base64_roundtrip P L) (random_length P L))
    as (seed & Hsk & Hseed & _).
  subst keys.
  destruct (generateKeyPair P crypto_sign_public g) as [keyPair g1].
  cbn [fst snd] in *.
  pose proof (contextKey_clean data id created_at updated_at) as Hclean.
  assert (exists fs, Vault.contextKey data id created_at updated_at = JObj fs)
    as [fs Hfs] by (eexists; reflexivity).
  rewrite Hfs in *.
  destruct (signContextKey_accepted P crypto_sign_public fs _ seed
              (base64_roundtrip P L) S Hbytes Hsk Hseed)
    as (signature & Hsign & Hverify).
  rewrite Hsign.
  destruct (sealed_blob_opens P L _ (Vault.password data) g1
              (Hclean signature (encodeBase64 P (crypto_sign_public seed))))
    as (blob & Hseal & Hiter & Hopen).
  exists (SignedContextKey (JObj fs) signature
            (encodeBase64 P (crypto_sign_public seed))), blob.
  destruct (encryptContextKey P _ (Vault.password data) g1) as [r g2].
  cbn [fst snd] in *. subst r.
  eexists.
  split; [reflexivity|]. split; [reflexivity|].
  split; [|split; [reflexivity|repeat split; assumption]].
  reflexivity.
Qed.

End VaultFacts.

(** ** The chat page *)

Section ChatFacts.

Context (P : Platform).
Variable JSON_parse_file : string -> result value.
Variable unsigned_long : value -> result Z.
Variable fetch : string -> result TempChat.Response.

Lemma verified_envelope_verified (file : TempChat.File) (password : string)
    (signedKey : value) :
  TempChat.verified_envelope P JSON_parse_file unsigned_long file password
  = Ok signedKey ->
  exists fileContent encryptedKey,
    TempChat.text file = Ok fileContent
    /\ JSON_parse_file fileContent = Ok encryptedKey
    /\ TempChat.decryptContextKey_of P unsigned_long encryptedKey password
       = Ok signedKey
    /\ verifyContextKey P signedKey = Ok true.
Proof.
  unfold TempChat.verified_envelope.
  destruct (TempChat.text file) as [fileContent|] eqn:E1; [|discriminate].
  cbn [bind].
  destruct (JSON_parse_file fileContent) as [encryptedKey|] eqn:E2;
    [|discriminate].
  cbn [bind].
  destruct (TempChat.decryptContextKey_of P unsigned_long encryptedKey password)
    as [opened|] eqn:E3; [|discriminate].
  cbn [bind].
  destruct (verifyContextKey P opened) as [[|]|] eqn:Hv; try discriminate.
  cbn [bind negb]. intros [= <-].
  exists fileContent, encryptedKey. repeat split; assumption.
Qed.

Lemma context_of_data (signedKey : value) (context : TempChat.LoadedContext) :
  TempChat.context_of signedKey = Ok context ->
  Get signedKey "data" = Ok (TempChat.contextKey context).
Proof.
  unfold TempChat.context_of.
  destruct (Get signedKey "data") as [data|]; [|discriminate]. cbn [bind].
  destruct (Get data "profile") as [profile|]; [|discriminate]. cbn [bind].
  destruct (Get profile "display_name"); [|discriminate]. cbn [bind].
  destruct (Get profile "tone"); [|discriminate]. cbn [bind].
  destruct (Get profile "domains"); [|discriminate]. cbn [bind].
  intros [= <-]. reflexivity.
Qed.

(** X14.  [loadContextKey] ends in one of three ways: with the request
    for a file and a password, the state otherwise as it was; with the one
    failure message and isLoading false, the state otherwise as it was; or
    with a context whose record is the [data] of an envelope that was read
    from the file, decrypted under the password and accepted by
    [verifyContextKey]. *)
Theorem loadContextKey_loads_only_verified (st : TempChat.State) (now : Z)
    (timestamp : string) :
  let st' :=
    TempChat.loadContextKey P JSON_parse_file unsigned_long st now timestamp in
  ((TempChat.keyFile st = None \/ TempChat.password st = EmptyString)
   /\ st' = TempChat.setError
              (Some "Please select a key file and enter your password") st)
  \/ st' = TempChat.setIsLoading false
             (TempChat.setError
                (Some "Failed to load context key. Please check your file and password.")
                st)
  \/ exists file fileContent encryptedKey signedKey context,
       TempChat.keyFile st = Some file
       /\ TempChat.text file = Ok fileContent
       /\ JSON_parse_file fileContent = Ok encryptedKey
       /\ TempChat.decryptContextKey_of P unsigned_long encryptedKey
            (TempChat.password st) = Ok signedKey
       /\ verifyContextKey P signedKey = Ok true
       /\ Get signedKey "data" = Ok (TempChat.contextKey context)
       /\ TempChat.loadedContext st' = Some context.
Proof.
  unfold TempChat.loadContextKey.
  destruct (TempChat.keyFile st) as [file|] eqn:Hfile; [|left; auto].
  destruct (TempChat.password st) as [|c pw] eqn:Hpw; [left; auto|].
  right. unfold TempChat.load.
  cbn [TempChat.password TempChat.setError TempChat.setIsLoading].
  rewrite Hpw.
  destruct (TempChat.verified_envelope P JSON_parse_file unsigned_long file
              (String c pw)) as [signedKey|e] eqn:Hv.
  2:{ left. reflexivity. }
  destruct (TempChat.context_of signedKey) as [context|e] eqn:Hc.
  2:{ left. reflexivity. }
  right.
  apply verified_envelope_verified in Hv
    as (fileContent & encryptedKey & Htext & Hparse & Hopen & Hverify).
  exists file, fileContent, encryptedKey, signedKey, context.
  repeat split; try assumption.
  - now apply context_of_data.
  - destruct (TempChat.systemMessage _ _ _); reflexivity.
Qed.

(** When [encodeUTF8] returns a string, [loadContextKey] ends with one of
    its two messages. *)
Lemma loadContextKey_fails (st : TempChat.State) (now : Z)
    (timestamp : string) :
  encodeUTF8_returns_string P ->
  let st' :=
    TempChat.loadContextKey P JSON_parse_file unsigned_long st now timestamp in
  ((TempChat.keyFile st = None \/ TempChat.password st = EmptyString)
   /\ st' = TempChat.setError
              (Some "Please select a key file and enter your password") st)
  \/ ((TempChat.keyFile st <> None /\ TempChat.password st <> EmptyString)
      /\ st' = TempChat.setIsLoading false
                 (TempChat.setError
                    (Some "Failed to load context key. Please check your file and password.")
                    st)).
Proof.
  intros Hstring. unfold TempChat.loadContextKey.
  destruct (TempChat.keyFile st) as [file|] eqn:Hfile; [|left; auto].
  destruct (TempChat.password st) as [|c pw] eqn:Hpw; [left; auto|].
  right. split; [split; discriminate|].
  unfold TempChat.load, TempChat.verified_envelope.
  cbn [TempChat.password TempChat.setError TempChat.setIsLoading].
  rewrite Hpw.
  destruct (TempChat.text file) as [fileContent|]; cbn [bind];
    [|reflexivity].
  destruct (JSON_parse_file fileContent) as [encryptedKey|]; cbn [bind];
    [|reflexivity].
  destruct (TempChat.decryptContextKey_of P unsigned_long encryptedKey
              (String c pw)) as [signedKey|]; cbn [bind]; [|reflexivity].
  rewrite verifyContextKey_rejects by assumption. reflexivity.
Qed.

(** X15.  When [encodeUTF8] returns a string, [loadContextKey] never loads
    a context, whatever the file and the password: the context, the
    messages, the key loader, the password and the file stay as they were,
    and the page shows the request for a file and a password, or else the
    failure message with isLoading false. *)
Theorem loadContextKey_never_loads (st : TempChat.State) (now : Z)
    (timestamp : string) :
  encodeUTF8_returns_string P ->
  let st' :=
    TempChat.loadContextKey P JSON_parse_file unsigned_long st now timestamp in
  TempChat.loadedContext st' = TempChat.loadedContext st
  /\ TempChat.messages st' = TempChat.messages st
  /\ TempChat.showKeyLoader st' = TempChat.showKeyLoader st
  /\ TempChat.password st' = TempChat.password st
  /\ TempChat.keyFile st' = TempChat.keyFile st
  /\ (TempChat.keyFile st = None \/ TempChat.password st = EmptyString ->
      st' = TempChat.setError
              (Some "Please select a key file and enter your password") st)
  /\ (TempChat.keyFile st <> None -> TempChat.password st <> EmptyString ->
      st' = TempChat.setIsLoading false
              (TempChat.setError
                 (Some "Failed to load context key. Please check your file and password.")
                 st)).
Proof.
  intros Hstring st'.
  destruct (loadContextKey_fails st now timestamp Hstring)
    as [[Hguard H]|[[Hfile Hpw] H]]; fold st' in H; rewrite H;
    repeat split; try reflexivity; intros.
  - destruct Hguard; contradiction.
  - destruct H0; contradiction.
Qed.

(** X16.  If [loadContextKey] ends with no error shown, the load is
    complete: the envelope from the file was accepted by
    [verifyContextKey], the context is set, the only message is the system
    message, the key loader is closed, isLoading is false, and the password
    and the file are cleared from the state. *)
Theorem loadContextKey_without_error_is_complete (st : TempChat.State)
    (now : Z) (timestamp : string) :
  let st' :=
    TempChat.loadContextKey P JSON_parse_file unsigned_long st now timestamp in
  TempChat.error st' = None ->
  exists file signedKey context m,
    TempChat.keyFile st = Some file
    /\ TempChat.verified_envelope P JSON_parse_file unsigned_long file
         (TempChat.password st) = Ok signedKey
    /\ verifyContextKey P signedKey = Ok true
    /\ TempChat.context_of signedKey = Ok context
    /\ TempChat.systemMessage (TempChat.contextKey context) now timestamp
       = Ok m
    /\ st' = {| TempChat.loadedContext := Some context;
                TempChat.messages := [m];
                TempChat.inputMessage := TempChat.inputMessage st;
                TempChat.isLoading := false;
                TempChat.showKeyLoader := false;
                TempChat.password := EmptyString;
                TempChat.keyFile := None;
                TempChat.error := None |}.
Proof.
  unfold TempChat.loadContextKey.
  destruct (TempChat.keyFile st) as [file|] eqn:Hfile; [|discriminate].
  destruct (TempChat.password st) as [|c pw] eqn:Hpw; [discriminate|].
  unfold TempChat.load.
  cbn [TempChat.password TempChat.setError TempChat.setIsLoading].
  rewrite Hpw.
  destruct (TempChat.verified_envelope P JSON_parse_file unsigned_long file
              (String c pw)) as [signedKey|e] eqn:Hv; [|discriminate].
  destruct (TempChat.context_of signedKey) as [context|e] eqn:Hc;
    [|discriminate].
  destruct (TempChat.systemMessage _ now timestamp) as [m|e] eqn:Hm;
    [|discriminate].
  intros _. exists file, signedKey, context, m.
  pose proof (verified_envelope_verified _ _ _ Hv) as (_ & _ & _ & _ & _ & Hverify).
  repeat split; assumption.
Qed.

(** X17.  A verified record with a profile and without policies is loaded
    and reported as a failure in one go: [setLoadedContext] has run when
    the system message fails to build, so the page ends with the context
    set and the failure message shown, the rest of the state as it was. *)
Theorem loadContextKey_can_load_and_report_failure (st : TempChat.State)
    (now : Z) (timestamp : string) (file : TempChat.File)
    (signedKey policies : value) (context : TempChat.LoadedContext) (e : exn) :
  TempChat.keyFile st = Some file ->
  TempChat.password st <> EmptyString ->
  TempChat.verified_envelope P JSON_parse_file unsigned_long file
    (TempChat.password st) = Ok signedKey ->
  TempChat.context_of signedKey = Ok context ->
  Get (TempChat.contextKey context) "policies" = Ok policies ->
  Get policies "persistence" = Throw e ->
  TempChat.loadContextKey P JSON_parse_file unsigned_long st now timestamp
  = TempChat.setIsLoading false
      (TempChat.setError
         (Some "Failed to load context key. Please check your file and password.")
         (TempChat.setLoadedContext (Some context) st)).
Proof.
  intros Hfile Hpw Hv Hc Hpol Hper. unfold TempChat.loadContextKey.
  rewrite Hfile.
  destruct (TempChat.password st) as [|c pw] eqn:Epw; [contradiction|].
  unfold TempChat.load.
  cbn [TempChat.password TempChat.setError TempChat.setIsLoading].
  rewrite Epw, Hv, Hc.
  assert (exists e', TempChat.systemMessage (TempChat.contextKey context)
                       now timestamp = Throw e') as [e' ->].
  { unfold TempChat.systemMessage.
    destruct (Get (TempChat.contextKey context) "profile") as [profile|e1];
      [|now exists e1].
    cbn [bind].
    destruct (Get profile "display_name") as [dn|e1]; [|now exists e1].
    cbn [bind]. destruct (ToString dn) as [name|e1]; [|now exists e1].
    cbn [bind]. rewrite Hpol. cbn [bind]. rewrite Hper. now exists e. }
  reflexivity.
Qed.

(** With no context loaded, [sendMessage] does nothing. *)
Lemma sendMessage_without_context (st : TempChat.State) (now : Z)
    (timestamp : string) (now' : Z) (timestamp' : string) :
  TempChat.loadedContext st = None ->
  TempChat.sendMessage fetch st now timestamp now' timestamp' = (st, []).
Proof.
  intros H. unfold TempChat.sendMessage. rewrite H.
  destruct (trim (TempChat.inputMessage st)); reflexivity.
Qed.

(** X19.  When [encodeUTF8] returns a string, the chat page never gets
    past the key loader: whatever files are dropped, whatever is typed and
    whichever handlers run, in any order, no context is ever loaded, the
    conversation stays empty, the key loader stays open and no request is
    ever sent. *)
Theorem chat_never_leaves_the_key_loader (actions : list TempChat.action) :
  encodeUTF8_returns_string P ->
  let out :=
    TempChat.run P JSON_parse_file unsigned_long fetch TempChat.initial
      actions in
  TempChat.loadedContext (fst out) = None
  /\ TempChat.messages (fst out) = []
  /\ TempChat.showKeyLoader (fst out) = true
  /\ snd out = [].
Proof.
  intros Hstring.
  assert (forall st,
             TempChat.loadedContext st = None ->
             TempChat.messages st = [] ->
             TempChat.showKeyLoader st = true ->
             let out :=
               TempChat.run P JSON_parse_file unsigned_long fetch st actions in
             TempChat.loadedContext (fst out) = None
             /\ TempChat.messages (fst out) = []
             /\ TempChat.showKeyLoader (fst out) = true
             /\ snd out = []) as Hinv.
  { induction actions as [|a actions IH]; intros st Hc Hm Hk.
    - cbn. auto.
    - cbn [TempChat.run].
      assert (exists st',
                 TempChat.step P JSON_parse_file unsigned_long fetch st a
                 = (st', [])
                 /\ TempChat.loadedContext st' = None
                 /\ TempChat.messages st' = []
                 /\ TempChat.showKeyLoader st' = true)
        as (st' & -> & Hc' & Hm' & Hk').
      { destruct a as [files|s|s|now timestamp|now timestamp now' timestamp'|];
          cbn [TempChat.step].
        - eexists. split; [reflexivity|].
          destruct files; cbn; auto.
        - eexists. split; [reflexivity|]. cbn. auto.
        - eexists. split; [reflexivity|]. cbn. auto.
        - eexists. split; [reflexivity|].
          destruct (loadContextKey_fails st now timestamp Hstring)
            as [[_ H]|[_ H]]; cbv zeta in H; rewrite H; cbn; auto.
        - exists st. split; [|auto].
          now apply sendMessage_without_context.
        - eexists. split; [reflexivity|]. cbn. auto. }
      specialize (IH st' Hc' Hm' Hk').
      destruct (TempChat.run P JSON_parse_file unsigned_long fetch st' actions)
        as [st'' sent]. exact IH. }
  apply Hinv; reflexivity.
Qed.

End ChatFacts.

(** ** From the vault to the chat *)

Section VaultToChat.

Context (P : Platform) (L : PlatformLaws P).
Variable crypto_sign_public : bytes -> bytes.
Context (S : SignatureLaws P crypto_sign_public).
Variable JSON_parse_file : string -> result value.
Variable unsigned_long : value -> result Z.

(** On a blob in the shape [encryptContextKey] returns, the page's call of
    [decryptContextKey] is the typed one. *)
Lemma decryptContextKey_of_blob (blob : EncryptedContextKey)
    (password : string) :
  unsigned_long (JNum (Finite (iterations (kdf_params blob))))
  = Ok (iterations (kdf_params blob)) ->
  TempChat.decryptContextKey_of P unsigned_long
    (EncryptedContextKey_object blob) password
  = decryptContextKey P blob password.
Proof.
  intros Hul.
  unfold TempChat.decryptContextKey_of, decryptContextKey,
    TempChat.deriveKey_of, deriveKey, EncryptedContextKey_object.
  cbn [Get assoc String.eqb Ascii.eqb Bool.eqb bind].
  destruct (decodeBase64 P (JStr (salt blob))); [|reflexivity]. cbn [bind].
  destruct (decodeBase64 P (JStr (iv blob))); [|reflexivity]. cbn [bind].
  destruct (decodeBase64 P (JStr (encrypted_data blob))); [|reflexivity].
  cbn [bind]. rewrite Hul.
  destruct (subtle_importKey P _ _ _); reflexivity.
Qed.

(** X20.  Were the message the bytes of the serialized record, the file
    the vault hands out would load in the chat.  With the libraries
    working as documented (tweetnacl accepting the signatures made with the
    secret key of a key pair) and [encodeUTF8] replaced by a function into
    Uint8Array, a confirmed submission at the last step signs the record
    of the form with the generated private key, seals the envelope under
    the password and hands out one file, the indented JSON text of the
    blob; and once [JSON.parse] has read that blob from the text,
    [loadContextKey] under the same password ends with the record of the
    form as the context, one system message that names the display name
    and the persistence, the key loader closed, the password and the file
    cleared and no error. *)
Theorem key_from_vault_loads_in_chat (st : Vault.State)
    (data : Vault.FormData) (id created_at updated_at : string) (g : Rng P) :
  (forall s, exists m, encodeUTF8 P (JStr s) = Ok (Uint8Array m)) ->
  (forall z, (0 <= z < 2 ^ 32)%Z -> unsigned_long (JNum (Finite z)) = Ok z) ->
  (3 <= Vault.step st)%Z ->
  Vault.password data = Vault.confirm_password data ->
  Vault.password data <> EmptyString ->
  let keys := generateKeyPair P crypto_sign_public g in
  exists signedKey blob text,
    signContextKey P (Vault.contextKey data id created_at updated_at)
      (Encoded.privateKey (fst keys)) = Ok signedKey
    /\ fst (encryptContextKey P signedKey (Vault.password data) (snd keys))
       = Ok blob
    /\ JSON_stringify_space (EncryptedContextKey_object blob) 2 = Some text
    /\ Vault.downloads
         (snd (fst (Vault.onSubmit P crypto_sign_public st data id created_at
                      updated_at g)))
       = [(Vault.filename data, text)]
    /\ forall (chat : TempChat.State) (now : Z) (timestamp : string),
         JSON_parse_file text = Ok (EncryptedContextKey_object blob) ->
         TempChat.keyFile chat = Some {| TempChat.text := Ok text |} ->
         TempChat.password chat = Vault.password data ->
         TempChat.loadContextKey P JSON_parse_file unsigned_long chat now
           timestamp
         = {| TempChat.loadedContext :=
                Some {| TempChat.contextKey :=
                          Vault.contextKey data id created_at updated_at;
                        TempChat.displayName := JStr (Vault.display_name data);
                        TempChat.tone :=
                          JStr (if String.eqb (Vault.tone data) "custom"
                                then Vault.custom_tone data
                                else Vault.tone data);
                        TempChat.domains :=
                          strings (Vault.allDomains data) |};
              TempChat.messages :=
                [{| TempChat.id := Number_toString now;
                    TempChat.role := "system";
                    TempChat.content :=
                      JStr ("Context Key loaded for "
                            ++ Vault.display_name data
                            ++ ". This session is " ++ Vault.persistence data
                            ++ ".");
                    TempChat.timestamp := timestamp |}];
              TempChat.inputMessage := TempChat.inputMessage chat;
              TempChat.isLoading := false;
              TempChat.showKeyLoader := false;
              TempChat.password := EmptyString;
              TempChat.keyFile := None;
              TempChat.error := None |}.
Proof.
  intros Hbytes Hul Hstep Hpw Hne keys.
  destruct (onSubmit_delivers P crypto_sign_public L S st data id created_at
              updated_at g Hbytes Hstep Hpw)
    as (signedKey & blob & text & Hsign & Hseal & Htext & -> & Hiter
        & Hopen & Hdata & Hv).
  exists signedKey, blob, text.
  split; [exact Hsign|]. split; [exact Hseal|]. split; [exact Htext|].
  split; [reflexivity|].
  intros chat now timestamp Hparse Hfile Hpassword.
  unfold TempChat.loadContextKey. rewrite Hfile, Hpassword.
  destruct (Vault.password data) as [|c pw] eqn:Epw; [contradiction|].
  unfold TempChat.load, TempChat.verified_envelope.
  cbn [TempChat.password TempChat.setError TempChat.setIsLoading
       TempChat.text bind].
  rewrite Hpassword, Hparse. cbn [bind].
  rewrite decryptContextKey_of_blob by (rewrite Hiter; apply Hul; lia).
  rewrite Hopen. cbn [bind]. rewrite Hv. cbn [bind negb].
  unfold TempChat.context_of. rewrite Hdata. cbn [bind].
  reflexivity.
Qed.

End VaultToChat.

(** ** The theorems on concrete inputs *)

Module Witnesses.

Import Symbolic SymbolicLaws Examples.

(** Every value is a reordering of itself. *)
Lemma reordered_refl (v : value) : reordered v v.
Proof.
  induction v as [| |b|n|s|xs IH|fs IH] using value_ind'; try constructor.
  - induction IH; constructor; assumption.
  - apply (reordered_obj fs fs fs); [|apply Permutation_refl].
    induction IH; constructor; auto.
Qed.

(** [ana_reversed] is [ana] created in another order. *)
Lemma ana_reordered : reordered ana ana_reversed.
Proof.
  apply (reordered_obj _ (ana_fields (JObj (rev ana_profile_fields))));
    [|apply Permutation_rev].
  repeat (apply Forall2_cons || apply Forall2_nil);
    split; try reflexivity; try apply reordered_refl.
  apply (reordered_obj _ ana_profile_fields); [|apply Permutation_rev].
  repeat (apply Forall2_cons || apply Forall2_nil);
    split; try reflexivity; apply reordered_refl.
Qed.

(** The text signed for [ana], and for [mallory], is the plain JSON text of
    [ana_signed_part]: empty profile and policies, memory entries reduced
    to created_at and id. *)
Example signed_text_of_ana :
  serialize ana = Ok (JSON_stringify ana_signed_part None)
  /\ serialize mallory = Ok (JSON_stringify ana_signed_part None).
Proof. split; vm_compute; reflexivity. Qed.

(** At [ana] and [mallory]: one verdict for both. *)
Example tampered_envelope_same_verdict :
  verifyContextKey platform (SignedContextKey ana "AAAA" "BBBB")
  = verifyContextKey platform (SignedContextKey mallory "AAAA" "BBBB").
Proof.
  exact (verifyContextKey_blind_to_nested_fields platform "1.0.0" "key-1"
           "2024-01-01T00:00:00.000Z" "2024-01-02T00:00:00.000Z"
           "Ana" "concise" "Bob" "verbose" ["ml"] ["law"; "finance"]
           false true "session" "strict" "permanent" "permissive" []
           (fun _ => "owes me money") [("m1", "likes tea", "2024-01-03")]
           "AAAA" "BBBB").
Defined.

(** On the platform whose message is the bytes of the text, the signature of
    [ana] is accepted on the tampered record [mallory]. *)
Example signature_of_ana_accepted_on_mallory :
  exists signature public_key,
    signContextKey with_decodeUTF8 ana private_key
    = Ok (SignedContextKey ana signature public_key)
    /\ verifyContextKey with_decodeUTF8
         (SignedContextKey ana signature public_key) = Ok true
    /\ verifyContextKey with_decodeUTF8
         (SignedContextKey mallory signature public_key) = Ok true.
Proof.
  eexists. eexists. split; [vm_compute; reflexivity|].
  split; vm_compute; reflexivity.
Qed.

(** C1 at [ana] tampered into [mallory], under any signature. *)
Lemma tampered_record_is_rejected_witness :
  verifyContextKey platform (SignedContextKey mallory "AAAA" "BBBB") = Ok false
  /\ forall privateKey,
       signContextKey platform ana privateKey
       <> Ok (SignedContextKey ana "AAAA" "BBBB").
Proof.
  apply (tampered_record_is_rejected platform ana mallory "AAAA" "BBBB").
  - exact encodeUTF8_string.
  - discriminate.
Defined.

(** X1 at the unsigned envelope, on the symbolic platform. *)
Lemma verifyContextKey_rejects_every_envelope_witness :
  verifyContextKey platform forged = Ok false.
Proof.
  apply (verifyContextKey_rejects_every_envelope platform forged).
  exact encodeUTF8_string.
Defined.

(** X2 at [ana] and a generated private key, on the platform whose
    message is the bytes of the text. *)
Lemma verify_after_sign_with_bytes_witness :
  exists signedKey,
    signContextKey with_decodeUTF8 ana
      (Encoded.privateKey
         (fst (generateKeyPair with_decodeUTF8 PageExamples.public_of_seed 7)))
    = Ok signedKey
    /\ verifyContextKey with_decodeUTF8 signedKey = Ok true.
Proof.
  apply (verify_after_sign_with_bytes with_decodeUTF8
           PageExamples.public_of_seed ana
           (Encoded.privateKey
              (fst (generateKeyPair with_decodeUTF8
                      PageExamples.public_of_seed 7)))
           (fst (getRandomValues with_decodeUTF8 32 7))
           (list_ascii_of_string
              (match serialize ana with
               | Ok (Some t) => t
               | _ => EmptyString
               end))
           (match serialize ana with Ok t => t | Throw _ => None end)).
  - exact base64.
  - exact signatures.
  - vm_compute. reflexivity.
  - reflexivity.
  - reflexivity.
  - vm_compute. reflexivity.
Defined.

(** C10 at two blobs that differ in algorithm, memory and parallelism. *)
Lemma decrypt_independent_of_kdf_labels_witness :
  decryptContextKey platform blob_a "correct-horse"
  = decryptContextKey platform blob_b "correct-horse".
Proof.
  apply (decrypt_independent_of_kdf_labels platform blob_a blob_b);
    reflexivity.
Defined.

(** C3, as amended, at the blob sealed from the unsigned envelope. *)
Lemma seal_and_open_derive_alike_witness :
  exists blob,
    fst (encryptContextKey platform forged "correct-horse" 7) = Ok blob
    /\ kdf_params blob
       = {| algorithm := "argon2id"; iterations := 100000;
            memory := 65536; parallelism := 1 |}
    /\ decryptContextKey platform blob "correct-horse" = Ok forged.
Proof.
  destruct (encryptContextKey platform forged "correct-horse" 7)
    as [[blob|e] g] eqn:E; [|vm_compute in E; discriminate].
  exists blob. split; [reflexivity|].
  destruct (seal_and_open_derive_alike platform forged "correct-horse" 7 blob
              (base64_roundtrip platform laws)
              ltac:(rewrite E; reflexivity))
    as (Hparams & salt' & iv' & baseKey & key & encrypted & Hsalt & _ & Hiv
        & Hdata & _ & _ & _ & Hopen & _).
  split; [exact Hparams|].
  rewrite Hopen. vm_compute in E. injection E as <- _.
  vm_compute in Hiv. injection Hiv as <-.
  vm_compute in Hdata. injection Hdata as <-.
  subst salt'. vm_compute. reflexivity.
Defined.

(** C3 as stated fails: the blob names argon2id, the derivation that ran
    is PBKDF2, and the memory and parallelism it records are parameters of
    no computation. *)
Lemma kdf_params_name_another_algorithm :
  exists blob salt',
    fst (encryptContextKey platform forged "correct-horse" 7) = Ok blob
    /\ decodeBase64 platform (JStr (salt blob)) = Ok salt'
    /\ algorithm (kdf_params blob) = "argon2id"
    /\ kdf_name (deriveKey_algorithm salt' (iterations (kdf_params blob)))
       = "PBKDF2"
    /\ algorithm (kdf_params blob)
       <> kdf_name (deriveKey_algorithm salt' (iterations (kdf_params blob))).
Proof.
  eexists. eexists. split; [vm_compute; reflexivity|].
  split; [vm_compute; reflexivity|].
  repeat split. discriminate.
Qed.

(** C4 as stated fails: a record holding NaN is serialized without any
    error, to the text of the record without it; a NaN at signed depth is
    written as null. *)
Lemma nan_is_serialized_silently :
  (exists text,
     serialize with_nan = Ok (Some text)
     /\ serialize without_nan = Ok (Some text))
  /\ (exists text,
        serialize version_nan = Ok (Some text)
        /\ serialize version_null = Ok (Some text)).
Proof.
  split; eexists; split; vm_compute; reflexivity.
Qed.



(** C6 at [ana]: signing throws. *)
Lemma verify_after_sign_throws_witness :
  exists e,
    (signedKey <- signContextKey platform ana private_key ;;
     verifyContextKey platform signedKey) = Throw e.
Proof.
  apply (verify_after_sign_throws platform ana private_key).
  exact encodeUTF8_string.
Defined.

(** C2 at [ana]: nothing is sealed. *)
Lemma open_after_seal_throws_witness :
  exists e,
    (signedKey <- signContextKey platform ana private_key ;;
     blob <- fst (encryptContextKey platform signedKey "correct-horse" 7) ;;
     opened <- decryptContextKey platform blob "correct-horse" ;;
     verified <- verifyContextKey platform opened ;;
     Ok (opened, verified)) = Throw e.
Proof.
  apply (open_after_seal_throws platform ana private_key "correct-horse" 7).
  exact encodeUTF8_string.
Defined.

(** C8 at [ana] and the same record created in the opposite order. *)
Lemma serialize_independent_of_creation_order_witness :
  serialize ana = serialize ana_reversed.
Proof.
  apply (serialize_independent_of_creation_order ana ana_reversed).
  - reflexivity.
  - exact ana_reordered.
Defined.



End Witnesses.

(** ** The further theorems on concrete inputs *)

Module MoreWitnesses.

Import Symbolic SymbolicLaws Examples PageExamples.

Lemma laws_with_bytes : PlatformLaws with_decodeUTF8.
Proof.
  split.
  - exact (base64_roundtrip platform laws).
  - exact (text_roundtrip platform laws).
  - exact (random_length platform laws).
  - exact (deriveKey_returns platform laws).
  - exact (encrypt_returns platform laws).
  - exact (decrypt_encrypt platform laws).
Qed.

Lemma message_in_bytes (s : string) :
  exists m, encodeUTF8 with_decodeUTF8 (JStr s) = Ok (Uint8Array m).
Proof. eexists. reflexivity. Qed.

Lemma public_of_seed_length (seed : bytes) :
  List.length (public_of_seed seed) = 32.
Proof.
  unfold public_of_seed. rewrite length_firstn, length_app, repeat_length. lia.
Qed.

Lemma unsigned_long_in_range (z : Z) :
  (0 <= z < 2 ^ 32)%Z -> unsigned_long (JNum (Finite z)) = Ok z.
Proof.
  intros [H0 H1]. unfold unsigned_long.
  apply Z.leb_le in H0. apply Z.ltb_lt in H1. now rewrite H0, H1.
Qed.

(** What the vault makes of the form: a trailing comma gives an empty
    domain, and a run of spaces one underscore. *)
Example domains_and_name_of_form :
  Vault.allDomains form = ["Software Development"; "ml"; "law"; EmptyString]
  /\ Vault.filename form = "ana_maria_context_key.ckey".
Proof. split; reflexivity. Qed.

(** X3 at [ana] and [mallory]. *)
Lemma serialize_eq_iff_signed_part_witness :
  serialize ana = serialize mallory <-> signed_part ana = signed_part mallory.
Proof.
  apply (serialize_eq_iff_signed_part ana mallory); reflexivity.
Defined.

(** X4 at [ana] and [mallory], whose signed texts are the same. *)
Lemma signed_text_pins_top_level_witness :
  "1.0.0" = "1.0.0" /\ "key-1" = "key-1"
  /\ "2024-01-01T00:00:00.000Z" = "2024-01-01T00:00:00.000Z"
  /\ "2024-01-02T00:00:00.000Z" = "2024-01-02T00:00:00.000Z"
  /\ written signed_names (JArr []) = written signed_names (JArr [])
  /\ written signed_names
       (JArr (memory_entries (fun c => c) [("m1", "likes tea", "2024-01-03")]))
     = written signed_names
         (JArr (memory_entries (fun _ => "owes me money")
                  [("m1", "likes tea", "2024-01-03")]))
  /\ List.length (@nil value) = List.length (@nil value)
  /\ List.length (memory_entries (fun c => c)
                    [("m1", "likes tea", "2024-01-03")])
     = List.length (memory_entries (fun _ => "owes me money")
                      [("m1", "likes tea", "2024-01-03")]).
Proof.
  apply (signed_text_pins_top_level "1.0.0" "key-1"
           "2024-01-01T00:00:00.000Z" "2024-01-02T00:00:00.000Z"
           "1.0.0" "key-1"
           "2024-01-01T00:00:00.000Z" "2024-01-02T00:00:00.000Z"
           (UserProfile "Ana" "concise" ["ml"])
           (Policies false "session" "strict")
           (UserProfile "Bob" "verbose" ["law"; "finance"])
           (Policies true "permanent" "permissive")).
  vm_compute. reflexivity.
Defined.

(** X5 at [ana] and [mallory]. *)
Lemma verifyContextKey_depends_on_signed_part_witness :
  verifyContextKey platform (SignedContextKey ana "AAAA" "BBBB")
  = verifyContextKey platform (SignedContextKey mallory "AAAA" "BBBB").
Proof.
  apply (verifyContextKey_depends_on_signed_part platform ana mallory).
  vm_compute. reflexivity.
Defined.


(** X8 on the symbolic platform. *)
Lemma generateKeyPair_fits_signContextKey_witness :
  exists sk keyPair,
    decodeBase64 platform
      (JStr (Encoded.privateKey
               (fst (generateKeyPair platform public_of_seed 0)))) = Ok sk
    /\ nacl_sign_keyPair_fromSecretKey sk = Ok keyPair
    /\ encodeBase64 platform (publicKey keyPair)
       = Encoded.publicKey (fst (generateKeyPair platform public_of_seed 0))
    /\ forall contextKey signedKey,
         signContextKey platform contextKey
           (Encoded.privateKey
              (fst (generateKeyPair platform public_of_seed 0)))
         = Ok signedKey ->
         Get signedKey "data" = Ok contextKey
         /\ Get signedKey "public_key"
            = Ok (JStr (Encoded.publicKey
                          (fst (generateKeyPair platform public_of_seed 0)))).
Proof.
  apply (generateKeyPair_fits_signContextKey platform public_of_seed 0).
  - exact (base64_roundtrip platform laws).
  - exact (random_length platform laws).
  - exact public_of_seed_length.
Defined.

(** X11 at the last step of the form, on the symbolic platform. *)
Lemma onSubmit_never_delivers_witness :
  let out :=
    Vault.onSubmit platform public_of_seed (at_step 3) form "key-1"
      "2024-01-01T00:00:00.000Z" "2024-01-01T00:00:00.001Z" 0 in
  Vault.downloads (snd (fst out)) = []
  /\ Vault.generatedKey (fst (fst out)) = None
  /\ ((3 < 3)%Z -> Vault.step (fst (fst out)) = (3 + 1)%Z)
  /\ ((3 <= 3)%Z -> Vault.step (fst (fst out)) = 3%Z)
  /\ ((3 <= 3)%Z ->
      Vault.password form = Vault.confirm_password form ->
      Vault.alerts (snd (fst out))
      = ["Failed to generate key. Please try again."]
      /\ Vault.isGenerating (fst (fst out)) = false).
Proof.
  apply (onSubmit_never_delivers platform public_of_seed (at_step 3) form
           "key-1" "2024-01-01T00:00:00.000Z" "2024-01-01T00:00:00.001Z" 0).
  exact encodeUTF8_string.
Defined.

(** X12 at a mistyped confirmation. *)
Lemma onSubmit_generates_only_when_confirmed_witness :
  let out :=
    Vault.onSubmit with_decodeUTF8 public_of_seed (at_step 3) mistyped "key-1"
      "2024-01-01T00:00:00.000Z" "2024-01-01T00:00:00.001Z" 0 in
  snd out = 0
  /\ Vault.downloads (snd (fst out)) = []
  /\ Vault.errors (snd (fst out)) = []
  /\ Vault.generatedKey (fst (fst out)) = None
  /\ Vault.isGenerating (fst (fst out)) = false.
Proof.
  apply (onSubmit_generates_only_when_confirmed with_decodeUTF8 public_of_seed
           (at_step 3) mistyped "key-1" "2024-01-01T00:00:00.000Z"
           "2024-01-01T00:00:00.001Z" 0).
  right. vm_compute. discriminate.
Defined.

(** X13 at step 2. *)
Lemma step_stays_in_range_witness :
  let st' :=
    fst (fst (Vault.onSubmit with_decodeUTF8 public_of_seed (at_step 2) form
                "key-1" "2024-01-01T00:00:00.000Z"
                "2024-01-01T00:00:00.001Z" 0)) in
  (1 <= Vault.step st' <= 4)%Z
  /\ (1 <= Vault.step (Vault.onBack (at_step 2)) <= 4)%Z
  /\ ((2 < 3)%Z -> Vault.step (Vault.onBack st') = 2%Z).
Proof.
  apply (step_stays_in_range with_decodeUTF8 public_of_seed (at_step 2) form
           "key-1" "2024-01-01T00:00:00.000Z" "2024-01-01T00:00:00.001Z" 0).
  simpl. lia.
Defined.

(** X20 on the platform whose message is the bytes of the text: the text
    the vault hands out is read, white space and all, and loads. *)
Lemma key_from_vault_loads_in_chat_witness :
  exists text,
    Vault.downloads
      (snd (fst (Vault.onSubmit with_decodeUTF8 public_of_seed (at_step 3)
                   form "key-1" "2024-01-01T00:00:00.000Z"
                   "2024-01-01T00:00:00.001Z" 0)))
    = [("ana_maria_context_key.ckey", text)]
    /\ let chat :=
         TempChat.loadContextKey with_decodeUTF8 JSON_parse_text unsigned_long
           (waiting {| TempChat.text := Ok text |} "correct horse")
           1704067200000 "2024-01-01T00:00:00.000Z" in
       option_map TempChat.displayName (TempChat.loadedContext chat)
       = Some (JStr "Ana  Maria")
       /\ List.length (TempChat.messages chat) = 1
       /\ TempChat.showKeyLoader chat = false
       /\ TempChat.error chat = None.
Proof.
  destruct (key_from_vault_loads_in_chat with_decodeUTF8 laws_with_bytes
              public_of_seed signatures JSON_parse_text unsigned_long
              (at_step 3) form "key-1" "2024-01-01T00:00:00.000Z"
              "2024-01-01T00:00:00.001Z" 0 message_in_bytes
              unsigned_long_in_range
              ltac:(simpl; lia) eq_refl ltac:(discriminate))
    as (signedKey & blob & text & Hsign & Hseal & Htext & Hfile & Hload).
  exists text. split; [exact Hfile|].
  vm_compute in Hsign. injection Hsign as <-.
  vm_compute in Hseal. injection Hseal as <-.
  vm_compute in Htext. injection Htext as <-.
  rewrite (Hload (waiting _ "correct horse") 1704067200000%Z
             "2024-01-01T00:00:00.000Z");
    [repeat split | vm_compute; reflexivity | reflexivity | reflexivity].
Defined.

(** X15 at a sealed [ana], on the symbolic platform. *)
Lemma loadContextKey_never_loads_witness :
  TempChat.loadContextKey platform (read_as (sealed ana "correct horse"))
    unsigned_long (waiting some_file "correct horse") 1704067200000
    "2024-01-01T00:00:00.000Z"
  = TempChat.setIsLoading false
      (TempChat.setError
         (Some "Failed to load context key. Please check your file and password.")
         (waiting some_file "correct horse")).
Proof.
  apply (loadContextKey_never_loads platform
           (read_as (sealed ana "correct horse")) unsigned_long
           (waiting some_file "correct horse") 1704067200000
           "2024-01-01T00:00:00.000Z" encodeUTF8_string);
    discriminate.
Defined.

(** X16 at a sealed [ana], on the platform whose message is the bytes of
    the text: the password is gone from the state. *)
Lemma loadContextKey_without_error_is_complete_witness :
  TempChat.password
    (TempChat.loadContextKey with_decodeUTF8
       (read_as (sealed ana "correct horse")) unsigned_long
       (waiting some_file "correct horse") 1704067200000
       "2024-01-01T00:00:00.000Z") = EmptyString.
Proof.
  destruct (loadContextKey_without_error_is_complete with_decodeUTF8
              (read_as (sealed ana "correct horse")) unsigned_long
              (waiting some_file "correct horse") 1704067200000
              "2024-01-01T00:00:00.000Z" ltac:(vm_compute; reflexivity))
    as (file & signedKey & context & m & _ & _ & _ & _ & _ & ->).
  reflexivity.
Defined.

(** X17 at a sealed record with no policies. *)
Lemma loadContextKey_can_load_and_report_failure_witness :
  exists context,
    TempChat.loadContextKey with_decodeUTF8
      (read_as (sealed no_policies "correct horse")) unsigned_long
      (waiting some_file "correct horse") 1704067200000
      "2024-01-01T00:00:00.000Z"
    = TempChat.setIsLoading false
        (TempChat.setError
           (Some "Failed to load context key. Please check your file and password.")
           (TempChat.setLoadedContext (Some context)
              (waiting some_file "correct horse"))).
Proof.
  eexists.
  apply (loadContextKey_can_load_and_report_failure with_decodeUTF8
           (read_as (sealed no_policies "correct horse")) unsigned_long
           (waiting some_file "correct horse") 1704067200000
           "2024-01-01T00:00:00.000Z" some_file
           (match signContextKey with_decodeUTF8 no_policies private_key with
            | Ok signedKey => signedKey
            | Throw _ => JUndefined
            end)
           JUndefined _ TypeError).
  - reflexivity.
  - discriminate.
  - vm_compute. reflexivity.
  - vm_compute. reflexivity.
  - reflexivity.
  - reflexivity.
Defined.

(** X19 at [session], on the symbolic platform. *)
Lemma chat_never_leaves_the_key_loader_witness :
  let out :=
    TempChat.run platform (read_as (sealed ana "correct horse")) unsigned_long
      answering TempChat.initial session in
  TempChat.loadedContext (fst out) = None
  /\ TempChat.messages (fst out) = []
  /\ TempChat.showKeyLoader (fst out) = true
  /\ snd out = [].
Proof.
  apply (chat_never_leaves_the_key_loader platform
           (read_as (sealed ana "correct horse")) unsigned_long answering
           session).
  exact encodeUTF8_string.
Defined.

(** The same session on the platform whose message is the bytes of the
    text: the key is loaded, one request goes out, and the conversation
    holds the system message, the message of the user and the answer. *)
Example session_with_bytes :
  let out :=
    TempChat.run with_decodeUTF8 (read_as (sealed ana "correct horse"))
      unsigned_long answering TempChat.initial session in
  TempChat.showKeyLoader (fst out) = false
  /\ map TempChat.role (TempChat.messages (fst out))
     = ["system"; "user"; "assistant"]
  /\ map TempChat.content (TempChat.messages (fst out))
     = [JStr "Context Key loaded for Ana. This session is session.";
        JStr "hello"; JStr "Hello, Ana."]
  /\ List.length (snd out) = 1.
Proof. vm_compute. repeat split. Qed.

End MoreWitnesses.
